(** * currconv: rate cache and conversion engine

    A shallow embedding of [currconv.go]: the [Data] snapshot, the
    conversion arithmetic ([Data.convert], [roundTo2Decimals]), the JSON
    decoder ([decodeJSON]), the refresh logic ([Data.update], [getData]) and
    the request handler ([convertHandler]).

    Go's [float64] is IEEE 754 binary64; it is modelled by the Standard
    Library's [spec_float] at precision 53 and maximal exponent 1024, so that
    every arithmetic result below is the bit pattern the program computes
    (NaN payloads apart, which Go does not expose to this program). *)

From Stdlib Require Import ZArith QArith Qpower Qabs Bool Lia Lqa.
From Stdlib Require Import Floats.SpecFloat.
From stdpp Require Import gmap strings list.

Set Implicit Arguments.
Unset Strict Implicit.
Set Warnings "-register-all".

Open Scope Z_scope.

(** ** binary64 *)

Module F64.

Definition prec : Z := 53.
Definition emax : Z := 1024.

Definition t : Type := spec_float.

Definition valid (x : t) : bool := valid_binary prec emax x.

Definition zero : t := S754_zero false.
Definition nan : t := S754_nan.
Definition pinf : t := S754_infinity false.

Definition mul (x y : t) : t := SFmul prec emax x y.
Definition div (x y : t) : t := SFdiv prec emax x y.
Definition add (x y : t) : t := SFadd prec emax x y.
Definition opp (x : t) : t := SFopp x.

(** Go's [<] on float64. *)
Definition ltb (x y : t) : bool := SFltb x y.

(** [float64(n)] for an integer [n]: the nearest binary64, ties to even. *)
Definition of_Z (n : Z) : t := binary_normalize prec emax n 0 false.

(** A decimal literal [n/d] with [|n|, d < 2^53]: both are exact in
    binary64, so the correctly rounded quotient is the value a Go literal
    or [strconv.ParseFloat] gives for that decimal. *)
Definition dec (n : Z) (d : positive) : t := div (of_Z n) (of_Z (Zpos d)).

Definition one : t := of_Z 1.

Definition is_nan (x : t) : bool :=
  match x with S754_nan => true | _ => false end.

Definition is_finite (x : t) : bool :=
  match x with S754_zero _ | S754_finite _ _ _ => true | _ => false end.

Definition is_zero (x : t) : bool :=
  match x with S754_zero _ => true | _ => false end.

Definition is_negative (x : t) : bool :=
  match x with
  | S754_finite true _ _ | S754_infinity true => true
  | _ => false
  end.

(** Go's [==] on float64. *)
Definition eqb (x y : t) : bool := SFeqb x y.

(** The absolute value of a finite [x], as a rational. *)
Definition mag (x : t) : Q :=
  match x with
  | S754_finite _ m e => inject_Z (Zpos m) * Qpower 2 e
  | _ => 0
  end.

(** [x] is a normal number (its mantissa has all 53 bits) with
    [2^lo <= |x| < 2^(hi+1)]. *)
Definition in_binades (lo hi : Z) (x : t) : bool :=
  match x with
  | S754_finite _ m e =>
      (Zpos (digits2_pos m) =? 53) && (lo <=? e + 52) && (e + 52 <=? hi)
  | _ => false
  end.

(** The relative error that two roundings to nearest can leave:
    [(1 + 2^-53)^2 - 1 = 2^-52 + 2^-106]. *)
Definition two_roundings : Q :=
  (1 # 4503599627370496) + (1 # 81129638414606681695789005144064).

End F64.

Abbreviation float64 := F64.t.

(** ** Arithmetic interface

    [Data.convert] uses one division and one multiplication.  The interface
    lets the same definition be read over binary64 (what the program runs)
    and over the rationals (the exact arithmetic the formula describes). *)

Class Arith (F : Type) := {
  azero : F;
  adiv : F -> F -> F;
  amul : F -> F -> F
}.

#[export] Instance float64_arith : Arith float64 := {|
  azero := F64.zero;
  adiv := F64.div;
  amul := F64.mul
|}.

#[export] Instance Q_arith : Arith Q := {|
  azero := 0%Q;
  adiv := Qdiv;
  amul := Qmult
|}.

(** ** The snapshot *)

Section Snapshot.

Context {F : Type} `{Arith F}.

(** [type Data struct].  [Rates] is a Go map; the nil map of the zero
    value reads like the empty map. *)
Record Data_ := mkData {
  Success : bool;
  Timestamp : Z;
  Base : string;
  Date : string;
  Rates : gmap string F
}.

(** [data.Rates[k]]: the one-result read gives the zero value for an
    absent key. *)
Definition rate (data : Data_) (k : string) : F :=
  default azero (Rates data !! k).

(** [_, ok := data.Rates[k]] *)
Definition has_rate (data : Data_) (k : string) : bool :=
  bool_decide (is_Some (Rates data !! k)).

(** [func (data Data) convert(curr1, curr2 string, amount float64) float64] *)
Definition convert (data : Data_) (curr1 curr2 : string) (amount : F) : F :=
  let euroAmount := adiv amount (rate data curr1) in
  amul euroAmount (rate data curr2).

End Snapshot.

Arguments Data_ F : clear implicits.

Abbreviation Data := (Data_ float64).

(** ** Abnormal termination

    The program has no error values of its own.  A failed type assertion, an
    index out of range and a nil dereference are run-time panics;
    [log.Fatalln] ends the process with status 1. *)

(** The dynamic type of an [interface{}] value produced by
    [json.Unmarshal]. *)
Inductive dyn_type :=
  | TNil | TBool | TFloat64 | TString | TSlice | TMap.

(** Run-time panic values.  A [runtime.TypeAssertionError] carries the
    dynamic type found and the type asserted ("interface conversion:
    interface {} is nil, not bool"); it carries no map key. *)
Inductive panic :=
  | InterfaceConversion (have want : dyn_type)
  | IndexOutOfRange (index len : nat)
  | NilDereference.

Inductive outcome (A : Type) :=
  | Ret (a : A)
  | Panic (p : panic)
  | Exit (status : Z).

Arguments Ret {A} a.
Arguments Panic {A} p.
Arguments Exit {A} status.

#[export] Instance outcome_ret : MRet outcome := fun A a => Ret a.
#[export] Instance outcome_bind : MBind outcome := fun A B f o =>
  match o with
  | Ret a => f a
  | Panic p => Panic p
  | Exit n => Exit n
  end.

Definition returned {A} (o : outcome A) : bool :=
  match o with Ret _ => true | _ => false end.

(** ** Decoding *)

(** What [json.Unmarshal] stores in an [interface{}]: nil, bool, float64,
    string, a slice, or a map keyed by strings. *)
Inductive json :=
  | JNull
  | JBool (b : bool)
  | JNumber (x : float64)
  | JString (s : string)
  | JArray (l : list json)
  | JObject (m : gmap string json).

Definition dyn_type_of (v : json) : dyn_type :=
  match v with
  | JNull => TNil
  | JBool _ => TBool
  | JNumber _ => TFloat64
  | JString _ => TString
  | JArray _ => TSlice
  | JObject _ => TMap
  end.

(** [m[k]] on a [map[string]interface{}]: nil for an absent key. *)
Definition index (m : gmap string json) (k : string) : json :=
  default JNull (m !! k).

(** The four single-result type assertions used by [decodeJSON]. *)
Definition assert_bool (v : json) : outcome bool :=
  match v with
  | JBool b => Ret b
  | _ => Panic (InterfaceConversion (dyn_type_of v) TBool)
  end.

Definition assert_float64 (v : json) : outcome float64 :=
  match v with
  | JNumber x => Ret x
  | _ => Panic (InterfaceConversion (dyn_type_of v) TFloat64)
  end.

Definition assert_string (v : json) : outcome string :=
  match v with
  | JString s => Ret s
  | _ => Panic (InterfaceConversion (dyn_type_of v) TString)
  end.

Definition assert_map (v : json) : outcome (gmap string json) :=
  match v with
  | JObject m => Ret m
  | _ => Panic (InterfaceConversion (dyn_type_of v) TMap)
  end.

#[export] Instance dyn_type_eq_dec : EqDecision dyn_type.
Proof. solve_decision. Defined.

(** The keys [decodeJSON] reads, each with the type it asserts. *)
Definition required : list (string * dyn_type) :=
  [("success", TBool); ("timestamp", TFloat64); ("base", TString);
   ("date", TString); ("rates", TMap)].

Definition field_ok (m : gmap string json) (f : string * dyn_type) : bool :=
  bool_decide (dyn_type_of (index m (fst f)) = snd f).

Definition required_fields_ok (m : gmap string json) : bool :=
  forallb (field_ok m) required.

(** Every entry of the "rates" object is a number. *)
Definition rates_ok (m : gmap string json) : bool :=
  match index m "rates" with
  | JObject rm =>
      forallb (fun e => bool_decide (dyn_type_of (snd e) = TFloat64))
        (map_to_list rm)
  | _ => false
  end.

(** The documents [decodeJSON] accepts: an object with the five keys, each
    of the asserted type, and numeric rates. *)
Definition well_formed (i : json) : bool :=
  match i with
  | JObject m => required_fields_ok m && rates_ok m
  | _ => false
  end.

Module Int64.
Definition min : Z := - 2 ^ 63.
Definition max : Z := 2 ^ 63 - 1.
Definition in_range (z : Z) : bool := (min <=? z) && (z <=? max).
(** The int64 that an int64 operation leaves for the exact result [z]:
    Go's integer arithmetic wraps around. *)
Definition wrap (z : Z) : Z := (z - min) mod 2 ^ 64 + min.
End Int64.

(** [int64(x)] for a float64 [x]: the fraction is discarded.  For a value
    outside int64 (or NaN) Go leaves the result to the implementation; the
    amd64 instruction gives the minimal int64, which is what is taken
    here. *)
Definition int64_of_float64 (x : float64) : Z :=
  match x with
  | S754_zero _ => 0
  | S754_finite s m e =>
      let mag := if 0 <=? e then Z.shiftl (Zpos m) e
                 else Z.shiftr (Zpos m) (- e) in
      let z := if s then - mag else mag in
      if Int64.in_range z then z else Int64.min
  | _ => Int64.min
  end.

(** The [for key, value := range ratesInterface] loop: every entry must
    hold a float64.  Go visits the entries in an unspecified order; the
    model visits them in the order of [map_to_list], so when several
    entries are not numbers the panic reported is that of the first one in
    that order. *)
Fixpoint decode_rates (l : list (string * json)) (rates : gmap string float64)
  : outcome (gmap string float64) :=
  match l with
  | [] => Ret rates
  | (key, value) :: l' =>
      x ← assert_float64 value;
      decode_rates l' (<[key := x]> rates)
  end.

Section Decoder.

(** [json.Unmarshal(b, &i)] for [var i interface{}]: [None] when it
    reports an error. *)
Variable Unmarshal : list Byte.byte -> option json.

(** [func decodeJSON(b []byte) Data].  The line that [log.Fatalln] writes
    before it ends the process is not recorded. *)
Definition decodeJSON (b : list Byte.byte) : outcome Data :=
  match Unmarshal b with
  | None => Exit 1
  | Some i =>
      m ← assert_map i;
      success ← assert_bool (index m "success");
      ts ← assert_float64 (index m "timestamp");
      let timestamp := int64_of_float64 ts in
      base ← assert_string (index m "base");
      date ← assert_string (index m "date");
      ratesInterface ← assert_map (index m "rates");
      rates ← decode_rates (map_to_list ratesInterface) ∅;
      mret (mkData success timestamp base date rates)
  end.

End Decoder.

(** ** Rounding for presentation *)

Module math.

(** [math.Round]: the nearest integer, halves away from zero; zeros,
    infinities and NaN are returned as they are.  A finite [x] is
    [m * 2^e]; for [e < 0] the integer part is [m >> -e] and it is bumped
    when the discarded bits are at least one half. *)
Definition Round (x : float64) : float64 :=
  match x with
  | S754_finite s m e =>
      if 0 <=? e then x
      else
        let q := Z.shiftr (Zpos m) (- e) in
        let r := Zpos m - Z.shiftl q (- e) in
        let q' := if Z.shiftl 1 (- e) <=? 2 * r then q + 1 else q in
        binary_normalize F64.prec F64.emax (if s then - q' else q') 0 s
  | _ => x
  end.

(** [math.Signbit]: the sign bit, set for -0.0 as well.  A NaN is kept
    without its sign here and counts as not signed. *)
Definition Signbit (x : float64) : bool :=
  match x with
  | S754_zero s | S754_infinity s | S754_finite s _ _ => s
  | S754_nan => false
  end.

End math.

(** [func roundTo2Decimals(x float64) float64] *)
Definition roundTo2Decimals (x : float64) : float64 :=
  F64.div (math.Round (F64.mul x (F64.of_Z 100))) (F64.of_Z 100).

(** ** Rounding error

    What is needed to say how far a rounded result is from the exact one.
    One rounding to nearest of a normal result moves it by at most half a
    unit in the last place, a relative error of at most [2^-53]. *)

Definition half_ulp : Q := 1 # 9007199254740992.

(** [x] is [v] rounded once, and twice. *)
Definition near1 (x v : Q) : Prop :=
  (v * (1 - half_ulp) <= x /\ x <= v * (1 + half_ulp))%Q.

Definition near2 (x v : Q) : Prop :=
  (v * ((1 - half_ulp) * (1 - half_ulp)) <= x
   /\ x <= v * ((1 + half_ulp) * (1 + half_ulp)))%Q.

(** What a [location] says of the part [t / d] that was cut off below
    the mantissa, [0 <= t < d]. *)
Definition loc_int (l : location) (t d : Z) : Prop :=
  match l with
  | loc_Exact => t = 0
  | loc_Inexact Lt => 0 < 2 * t < d
  | loc_Inexact Eq => 2 * t = d
  | loc_Inexact Gt => d < 2 * t
  end.

(** ** Time

    A [Time] without a monotonic reading holds an int64 count of seconds
    since 1 January of year 1 and a nanosecond below one second; it is
    modelled by the number of nanoseconds since that day.  [time.Unix]
    computes the seconds as [sec + unixToInternal] in int64, so the sum
    wraps around for a [sec] near the top of int64.  A [Duration] is an
    int64 count of nanoseconds, [Sub] saturates at the Duration bounds,
    and [Hours] is the duration divided by one hour.  [Hours] is kept exact
    here (a rational): the program only compares it with 1, and the
    float64 value that Go computes is above 1.0 exactly when the duration
    is above one hour. *)

Module time.

Definition Second : Z := 1000000000.
Definition Hour : Z := 3600 * Second.

Definition minDuration : Z := Int64.min.
Definition maxDuration : Z := Int64.max.

(** Seconds from 1 January of year 1 to the Unix epoch. *)
Definition unixToInternal : Z := 62135596800.

(** [unixTime(sec, nsec)]: the [Time] whose seconds are
    [sec + unixToInternal], an int64 addition. *)
Definition unixTime (sec nsec : Z) : Z :=
  Int64.wrap (sec + unixToInternal) * Second + nsec.

(** [time.Unix(sec, nsec)]: an [nsec] outside [0, 1e9) is first carried
    into [sec]. *)
Definition Unix (sec nsec : Z) : Z :=
  if (nsec <? 0) || (Second <=? nsec) then
    let n := Z.quot nsec Second in
    let sec := Int64.wrap (sec + n) in
    let nsec := nsec - n * Second in
    if nsec <? 0 then unixTime (Int64.wrap (sec - 1)) (nsec + Second)
    else unixTime sec nsec
  else unixTime sec nsec.

(** [t.Sub(u)] *)
Definition Sub (t u : Z) : Z :=
  Z.max minDuration (Z.min maxDuration (t - u)).

(** [d.Hours()] *)
Definition Hours (d : Z) : Q := Qmake d (Z.to_pos Hour).

(** [d.Hours()] as Go computes it,
    [float64(d / Hour) + float64(d % Hour) / (60 * 60 * 1e9)], kept to
    compare the exact test with the float64 one at the boundary. *)
Definition Hours_float64 (d : Z) : float64 :=
  F64.add (F64.of_Z (Z.quot d Hour))
          (F64.div (F64.of_Z (Z.rem d Hour)) (F64.of_Z Hour)).

End time.

(** [x > y] on exact values. *)
Definition Qgt_bool (x y : Q) : bool := negb (Qle_bool x y).

(** ** The process and its environment *)

(** Lines written by the [log] package. *)
Inductive log_line :=
  | LogText (s : string)
  | LogBytes (b : list Byte.byte)
  | LogError.

(** An [*http.Response] as far as [getData] looks at it: what
    [ioutil.ReadAll(resp.Body)] returns (the bytes read, and whether it
    also returned an error). *)
Record Response := mkResponse {
  Body : list Byte.byte;
  ReadErr : bool
}.

(** The two results of [http.Get]: the response pointer ([None] for nil)
    and whether the error is non-nil. *)
Definition GetResult : Type := option Response * bool.

(** The package-level variables [apiKey] and [data], and what the program
    observes of the outside: the wall clock (nanoseconds since the epoch),
    the answer of the network to the n-th GET of a URL, the number of
    GETs issued so far, and the log written so far. *)
Record State := mkState {
  apiKey : string;
  data : Data;
  clock : Z;
  wire : string -> nat -> GetResult;
  fetches : nat;
  logged : list log_line
}.

Definition Println (l : log_line) (st : State) : State :=
  mkState (apiKey st) (data st) (clock st) (wire st) (fetches st)
          (logged st ++ [l]).

Definition count_fetch (st : State) : State :=
  mkState (apiKey st) (data st) (clock st) (wire st) (S (fetches st))
          (logged st).

Definition set_data (d : Data) (st : State) : State :=
  mkState (apiKey st) d (clock st) (wire st) (fetches st) (logged st).

Definition set_clock (now : Z) (st : State) : State :=
  mkState (apiKey st) (data st) now (wire st) (fetches st) (logged st).

(** [time.Now()]: the wall clock gives seconds since the epoch and the
    nanosecond below; the [Time] holds the seconds from year 1. *)
Definition Now (st : State) : Z :=
  time.unixTime (clock st / time.Second) (clock st mod time.Second).

(** [time.Since(t)], for a [t] without a monotonic reading. *)
Definition Since (t : Z) (st : State) : Z := time.Sub (Now st) t.

(** The age of a snapshot as the program measures it: the current time
    minus [time.Unix(Timestamp, 0)], in nanoseconds, before [Sub]
    saturates it.  A [Timestamp] above [Int64.max - unixToInternal] wraps
    around to an instant far in the past. *)
Definition age (d : Data) (st : State) : Z :=
  Now st - time.Unix (Timestamp d) 0.


(** [st'] differs from [st] at most in the GET count and in the log. *)
Definition same_env (st st' : State) : Prop :=
  apiKey st' = apiKey st /\ data st' = data st
  /\ clock st' = clock st /\ wire st' = wire st.

(** The URL requested by [getData]. *)
Definition latest_url (st : State) : string :=
  "http://data.fixer.io/api/latest?access_key=" +:+ apiKey st.

(** [http.Get(url)] *)
Definition http_Get (url : string) (st : State) : GetResult * State :=
  (wire st url (fetches st), count_fetch st).

(** [func getData() []byte].  After a failed [http.Get] the error is
    logged and execution goes on to [defer resp.Body.Close()], which
    evaluates [resp.Body] at once: with a nil [resp] that is a nil
    dereference. *)
Definition getData (st : State) : outcome (list Byte.byte) * State :=
  let '(resp, err, st) :=
    http_Get (latest_url st) st in
  let st := if (err : bool) then Println LogError st else st in
  match resp with
  | None => (Panic NilDereference, st)
  | Some resp =>
      let body := Body resp in
      let st := if ReadErr resp then Println LogError st else st in
      (Ret body, st)
  end.

Section Server.

Variable Unmarshal : list Byte.byte -> option json.

(** [strconv.ParseFloat(s, 8)]: the value and whether the error is
    non-nil. *)
Variable ParseFloat : string -> float64 * bool.

(** [fmt.Sprint] of a [time.Time]. *)
Variable Sprint_Time : Z -> string.

(** [func (data Data) update() Data] *)
Definition update (data : Data) (st : State) : outcome Data * State :=
  let timestamp := time.Unix (Timestamp data) 0 in
  let timePassed := Since timestamp st in
  if Qgt_bool (time.Hours timePassed) 1 then
    let st := Println (LogText "Data is older than 1 hour, refreshing") st in
    match getData st with
    | (Ret b, st) =>
        let st := Println (LogBytes b) st in
        let d := decodeJSON Unmarshal b in
        (d, st)
    | (Panic p, st) => (Panic p, st)
    | (Exit n, st) => (Exit n, st)
    end
  else (Ret data, st).

(** [type Page struct] *)
Record Page := mkPage {
  From : string;
  To : string;
  Value : float64;
  Result : float64;
  Time : string
}.

(** What the handler writes to the [http.ResponseWriter]. *)
Inductive response :=
  | Redirect (url : string) (code : Z)
  | Render (tmpl : string) (p : Page).

(** [*http.Request], as far as the handler reads it: [r.URL.Query()]. *)
Record Request := mkRequest {
  Query : gmap string (list string)
}.

(** [q[k][0]]: the absent key gives the nil slice, and indexing an
    empty slice panics. *)
Definition first_value (q : gmap string (list string)) (k : string)
  : outcome string :=
  match default [] (q !! k) with
  | [] => Panic (IndexOutOfRange 0 0)
  | v :: _ => Ret v
  end.

(** The handler after [data = data.update()] has returned [data]. *)
Definition serve (data : Data) (r : Request) : outcome response :=
  from ← first_value (Query r) "from";
  to ← first_value (Query r) "to";
  v ← first_value (Query r) "value";
  let '(value, err) := ParseFloat v in
  let okFrom := has_rate data from in
  let okTo := has_rate data to in
  if err || negb okFrom || negb okTo then
    mret (Redirect "/" 302)
  else
    let time := Sprint_Time (time.Unix (Timestamp data) 0) in
    let result := convert data from to value in
    let result := roundTo2Decimals result in
    let p := mkPage from to value result time in
    mret (Render "convert" p).

(** [func convertHandler(w http.ResponseWriter, r *http.Request)] *)
Definition convertHandler (r : Request) (st : State)
  : outcome response * State :=
  match update (data st) st with
  | (Ret d, st) =>
      let st := set_data d st in
      (serve d r, st)
  | (Panic p, st) => (Panic p, st)
  | (Exit n, st) => (Exit n, st)
  end.

End Server.

(** ** Concurrent requests

    net/http runs every call of a handler in a goroutine of its own, and
    [convertHandler] takes no lock.  The statement [data = data.update()] of
    one call is made of three steps that read or write what the calls
    share: the read of [data] and of the clock for the staleness test, the
    GET with the decoding of its body, and the store to [data].  Steps of
    different calls interleave in any order. *)

Inductive goroutine :=
  | Entered                 (* about to evaluate [data.update()] *)
  | Refreshing (copy : Data) (* in [update], its copy of [data] found stale *)
  | Returned (d : Data)     (* [update] has returned [d], store pending *)
  | Stored (d : Data)       (* [data = d] done *)
  | Panicked (p : panic).   (* the call ended in a panic, recovered by net/http *)

Section Interleaving.

Variable Unmarshal : list Byte.byte -> option json.

(** One step of one goroutine; [inr n] when the step ends the process. *)
Definition step (g : goroutine) (st : State) : (goroutine + Z) * State :=
  match g with
  | Entered =>
      let data := data st in
      let timestamp := time.Unix (Timestamp data) 0 in
      let timePassed := Since timestamp st in
      if Qgt_bool (time.Hours timePassed) 1 then
        (inl (Refreshing data),
         Println (LogText "Data is older than 1 hour, refreshing") st)
      else (inl (Returned data), st)
  | Refreshing _ =>
      match getData st with
      | (Ret b, st) =>
          let st := Println (LogBytes b) st in
          match decodeJSON Unmarshal b with
          | Ret d => (inl (Returned d), st)
          | Panic p => (inl (Panicked p), st)
          | Exit n => (inr n, st)
          end
      | (Panic p, st) => (inl (Panicked p), st)
      | (Exit n, st) => (inr n, st)
      end
  | Returned d => (inl (Stored d), set_data d st)
  | Stored _ | Panicked _ => (inl g, st)
  end.

(** The process: the shared state, the goroutines serving requests, and the
    exit status once [os.Exit] has been called. *)
Record system := mkSystem {
  shared : State;
  pool : list goroutine;
  exited : option Z
}.

(** Goroutine [i] takes one step. *)
Definition sched (i : nat) (sys : system) : system :=
  match exited sys, pool sys !! i with
  | None, Some g =>
      match step g (shared sys) with
      | (inl g', st) => mkSystem st (<[i := g']> (pool sys)) None
      | (inr n, st) => mkSystem st (pool sys) (Some n)
      end
  | _, _ => sys
  end.

(** A goroutine past its GET: only the store, if any, is left. *)
Definition settled (g : goroutine) : Prop :=
  match g with
  | Entered | Refreshing _ => False
  | _ => True
  end.

(** No answer of the upstream makes [decodeJSON] end the process. *)
Definition decodable (st : State) : Prop :=
  forall i resp err,
    wire st (latest_url st) i = (Some resp, err) ->
    is_Some (Unmarshal (Body resp)).

(** A schedule is the list of the goroutines that step, in order. *)
Definition run (schedule : list nat) (sys : system) : system :=
  foldl (fun sys i => sched i sys) sys schedule.

(** [n] requests arrive together. *)
Definition arrivals (n : nat) (st : State) : system :=
  mkSystem st (replicate n Entered) None.

(** Every goroutine makes its staleness test, then every one its GET, then
    every one its store. *)
Definition lockstep (n : nat) : list nat :=
  seq 0 n ++ seq 0 n ++ seq 0 n.

(** A goroutine that has made its staleness test. *)
Definition tested (g : goroutine) : Prop :=
  match g with
  | Entered => False
  | _ => True
  end.

(** No store to [data] happens along the schedule: no goroutine steps
    while it holds a result of [update] that it has not stored yet. *)
Fixpoint store_free (schedule : list nat) (sys : system) : bool :=
  match schedule with
  | [] => true
  | i :: schedule' =>
      match pool sys !! i with
      | Some (Returned _) => false
      | _ => store_free schedule' (sched i sys)
      end
  end.

End Interleaving.

(** ** Start-up, sequential service and the form handler *)

(** [ioutil.ReadFile]: the files that can be read, with their contents. *)
Abbreviation FileSystem := (gmap string (list Byte.byte)).

(** [func readAPIKey(filename string) string].  The body reads "key.txt"
    whatever [filename] is; a read error ends the process ([log.Fatal]). *)
Definition readAPIKey (fs : FileSystem) (filename : string) : outcome string :=
  match fs !! "key.txt" with
  | None => Exit 1
  | Some data => Ret (String.string_of_list_byte data)
  end.

Definition set_apiKey (key : string) (st : State) : State :=
  mkState key (data st) (clock st) (wire st) (fetches st) (logged st).

(** [func redirectHandler(w, r)], on [r.Form] as [r.ParseForm()] leaves
    it.  The three values are concatenated as they are, without
    escaping. *)
Definition redirectHandler (form : gmap string (list string))
  : outcome response :=
  from ← first_value form "from";
  to ← first_value form "to";
  value ← first_value form "value";
  let url := "/convert/?from=" +:+ from +:+ "&to=" +:+ to
             +:+ "&value=" +:+ value in
  mret (Redirect url 302).

Section Service.

Variable Unmarshal : list Byte.byte -> option json.
Variable ParseFloat : string -> float64 * bool.
Variable Sprint_Time : Z -> string.

(** [func main()] up to the registration of the handlers:
    [apiKey = readAPIKey("key.txt")], [b := getData()],
    [data = decodeJSON(b)].  A panic here is not recovered. *)
Definition startup (fs : FileSystem) (st : State) : outcome unit * State :=
  match readAPIKey fs "key.txt" with
  | Ret key =>
      let st := set_apiKey key st in
      match getData st with
      | (Ret b, st) =>
          match decodeJSON Unmarshal b with
          | Ret d => (Ret tt, set_data d st)
          | Panic p => (Panic p, st)
          | Exit n => (Exit n, st)
          end
      | (Panic p, st) => (Panic p, st)
      | (Exit n, st) => (Exit n, st)
      end
  | Panic p => (Panic p, st)
  | Exit n => (Exit n, st)
  end.

(** Calls of [convertHandler] served one after the other, each at the
    clock reading given with it.  net/http recovers a panicking call and
    goes on with the next; [os.Exit] ends the service. *)
Fixpoint serve_all (calls : list (Z * Request)) (st : State)
  : list (outcome response) * State :=
  match calls with
  | [] => ([], st)
  | (now, r) :: calls' =>
      match convertHandler Unmarshal ParseFloat Sprint_Time r
              (set_clock now st) with
      | (Exit n, st') => ([Exit n], st')
      | (o, st') =>
          let '(os, st'') := serve_all calls' st' in
          (o :: os, st'')
      end
  end.

(** [d] was decoded from a body that the upstream gives to some GET. *)
Definition from_upstream (st : State) (d : Data) : Prop :=
  exists n resp err,
    wire st (latest_url st) n = (Some resp, err)
    /\ decodeJSON Unmarshal (Body resp) = Ret d.

End Service.

(** Goroutines that may still issue a GET. *)
Definition pending (g : goroutine) : nat :=
  match g with
  | Entered | Refreshing _ => 1
  | _ => 0
  end.

Definition pending_all (pool : list goroutine) : nat :=
  sum_list (pending <$> pool).

(** The GETs issued so far plus those that may still come. *)
Definition budget (sys : system) : nat :=
  match exited sys with
  | None => (fetches (shared sys) + pending_all (pool sys))%nat
  | Some _ => fetches (shared sys)
  end.

(** [st'] extends the log of [st]. *)
Definition log_extends (st st' : State) : Prop :=
  exists lines, logged st' = logged st ++ lines.

(** ** Concrete data used by the examples *)

Module Scenario.

#[export] Instance byte_eq_dec : EqDecision Byte.byte := Byte.byte_eq_dec.

(** Document text is written with ['] for the JSON quote. *)
Definition text (s : string) : list Byte.byte :=
  (fun c => if Ascii.eqb c (Ascii.ascii_of_nat 39) then Byte.x22
            else Ascii.byte_of_ascii c)
    <$> String.list_ascii_of_string s.

(** rates = {"USD": 1.2, "GBP": 0.9} *)
Definition rates : gmap string float64 :=
  <["USD" := F64.dec 12 10]> (<["GBP" := F64.dec 9 10]> ∅).

(** A snapshot with base "EUR" fetched at T0 = 1600000000 s. *)
Definition T0 : Z := 1600000000.

Definition snapshot : Data :=
  mkData true T0 "EUR" "2020-09-13" rates.

(** A rate table in which a currency is listed with rate 0. *)
Definition snapshot_zero_rate : Data :=
  mkData true T0 "EUR" "2020-09-13" (<["XXX" := F64.zero]> rates).

(** The base currency listed with its own rate, 1. *)
Definition snapshot_with_base : Data :=
  mkData true T0 "EUR" "2020-09-13" (<["EUR" := F64.one]> rates).

(** The same rates as exact fractions. *)
Definition exact_snapshot : Data_ Q :=
  mkData true T0 "EUR" "2020-09-13"
    (<["USD" := (12 # 10)%Q]> (<["GBP" := (9 # 10)%Q]> ∅)).

Definition json_rates : json :=
  JObject (<["USD" := JNumber (F64.dec 12 10)]>
           (<["GBP" := JNumber (F64.dec 9 10)]> ∅)).

(** A complete document, and the same document reporting failure. *)
Definition document (success : bool) : json :=
  JObject (<["success" := JBool success]>
           (<["timestamp" := JNumber (F64.of_Z (T0 + 7200))]>
           (<["base" := JString "EUR"]>
           (<["date" := JString "2020-09-13"]>
           (<["rates" := json_rates]> ∅))))).

Definition document_text (success : string) : list Byte.byte :=
  text ("{'success': " +:+ success +:+
        ", 'timestamp': 1600007200, 'base': 'EUR', 'date': '2020-09-13'," +:+
        " 'rates': {'USD': 1.2, 'GBP': 0.9}}").

(** Documents that lack one key. *)
Definition without (key : string) : json :=
  match document true with
  | JObject m => JObject (delete key m)
  | v => v
  end.

Definition text_without_rates : list Byte.byte :=
  text ("{'success': true, 'timestamp': 1600007200, 'base': 'EUR'," +:+
        " 'date': '2020-09-13'}").

Definition text_without_base : list Byte.byte :=
  text ("{'success': true, 'timestamp': 1600007200," +:+
        " 'date': '2020-09-13', 'rates': {'USD': 1.2, 'GBP': 0.9}}").

Definition text_without_date : list Byte.byte :=
  text ("{'success': true, 'timestamp': 1600007200, 'base': 'EUR'," +:+
        " 'rates': {'USD': 1.2, 'GBP': 0.9}}").

(** A body that is not JSON. *)
Definition text_html : list Byte.byte := text "<html>502 Bad Gateway</html>".

(** [json.Unmarshal] on the texts above; an error on anything else, which
    is only ever applied to [text_html] below. *)
Definition Unmarshal (b : list Byte.byte) : option json :=
  snd <$> List.find (fun e => bool_decide (fst e = b))
    [ (document_text "true", document true);
      (document_text "false", document false);
      (text_without_rates, without "rates");
      (text_without_base, without "base");
      (text_without_date, without "date") ].

(** [strconv.ParseFloat] on the amounts used below: the strings that
    parse, and the syntax error for anything else (value 0, error set). *)
Definition ParseFloat (s : string) : float64 * bool :=
  if String.eqb s "120" then (F64.of_Z 120, false)
  else if String.eqb s "10" then (F64.of_Z 10, false)
  else if String.eqb s "-120" then (F64.of_Z (-120), false)
  else if String.eqb s "NaN" then (F64.nan, false)
  else if String.eqb s "+Inf" then (F64.pinf, false)
  else (F64.zero, true).

(** [fmt.Sprint(time.Unix(sec, 0))] in UTC for the one instant rendered
    below. *)
Definition Sprint_Time (t : Z) : string := "2020-09-13 12:26:40 +0000 UTC".

(** The process holding [snapshot], [age] seconds after T0, with an upstream
    that answers every GET with [reply]. *)
Definition state (age : Z) (reply : GetResult) : State :=
  mkState "k" snapshot ((T0 + age) * time.Second) (fun _ _ => reply) 0 [].

Definition reply_ok : GetResult :=
  (Some (mkResponse (document_text "true") false), false).

Definition reply_html : GetResult :=
  (Some (mkResponse text_html false), false).

Definition request (from to value : string) : Request :=
  mkRequest (<["from" := [from]]> (<["to" := [to]]> (<["value" := [value]]> ∅))).

(** A complete document whose timestamp is T0 itself. *)
Definition old_document : json :=
  JObject (<["success" := JBool true]>
           (<["timestamp" := JNumber (F64.of_Z T0)]>
           (<["base" := JString "EUR"]>
           (<["date" := JString "2020-09-13"]>
           (<["rates" := json_rates]> ∅))))).

Definition old_document_text : list Byte.byte :=
  text ("{'success': true, 'timestamp': 1600000000, 'base': 'EUR'," +:+
        " 'date': '2020-09-13', 'rates': {'USD': 1.2, 'GBP': 0.9}}").

(** A complete document with one more key. *)
Definition document_with_error : json :=
  match document true with
  | JObject m => JObject (<["error" := JObject ∅]> m)
  | v => v
  end.

Definition document_with_error_text : list Byte.byte :=
  text ("{'success': true, 'timestamp': 1600007200, 'base': 'EUR'," +:+
        " 'date': '2020-09-13', 'rates': {'USD': 1.2, 'GBP': 0.9}," +:+
        " 'error': {}}").

(** [json.Unmarshal] on all the texts of this module. *)
Definition Unmarshal' (b : list Byte.byte) : option json :=
  snd <$> List.find (fun e => bool_decide (fst e = b))
    [ (document_text "true", document true);
      (document_text "false", document false);
      (text_without_rates, without "rates");
      (text_without_base, without "base");
      (text_without_date, without "date");
      (old_document_text, old_document);
      (document_with_error_text, document_with_error) ].

Definition reply_old : GetResult :=
  (Some (mkResponse old_document_text false), false).

(** The snapshot that [document true] decodes to. *)
Definition refreshed : Data :=
  mkData true (T0 + 7200) "EUR" "2020-09-13" rates.



(** A currency quoted at 2^-600. *)
Definition snapshot_tiny_rate : Data :=
  mkData true T0 "EUR" "2020-09-13"
    (<["XXX" := S754_finite false 4503599627370496 (-652)]> rates).

(** A file system with the key file. *)
Definition files : FileSystem := {[ "key.txt" := text "k" ]}.

End Scenario.

(** * Properties *)

(** ** Conversion *)

Section ConvertFacts.

Context {F : Type} `{Arith F}.

Lemma rate_present (s : Data_ F) (k : string) (r : F) :
  Rates s !! k = Some r -> rate s k = r.
Proof. unfold rate. intros ->. reflexivity. Qed.

Lemma rate_absent (s : Data_ F) (k : string) :
  Rates s !! k = None -> rate s k = azero.
Proof. unfold rate. intros ->. reflexivity. Qed.

Lemma convert_present (s : Data_ F) (c1 c2 : string) (amount r1 r2 : F) :
  Rates s !! c1 = Some r1 -> Rates s !! c2 = Some r2 ->
  convert s c1 c2 amount = amul (adiv amount r1) r2.
Proof.
  intros H1 H2. unfold convert.
  rewrite (rate_present H1), (rate_present H2). reflexivity.
Qed.

End ConvertFacts.

(** C1.  When both codes are in the rate table, [convert] is
    [(amount / rates[fromCode]) * rates[toCode]] in float64 arithmetic; and
    for any snapshot with base "EUR" and rates {"USD": 1.2, "GBP": 0.9},
    converting 120 USD to GBP gives exactly 90.0, which rounds to 90.00. *)
Theorem convert_formula :
  (forall (s : Data) (fromCode toCode : string) (amount r1 r2 : float64),
      Rates s !! fromCode = Some r1 ->
      Rates s !! toCode = Some r2 ->
      convert s fromCode toCode amount = F64.mul (F64.div amount r1) r2)
  /\
  (forall s : Data,
      Base s = "EUR" ->
      Rates s = Scenario.rates ->
      convert s "USD" "GBP" (F64.of_Z 120)
        = F64.mul (F64.div (F64.of_Z 120) (F64.dec 12 10)) (F64.dec 9 10)
      /\ convert s "USD" "GBP" (F64.of_Z 120) = F64.of_Z 90
      /\ roundTo2Decimals (convert s "USD" "GBP" (F64.of_Z 120)) = F64.of_Z 90).
Proof.
  split.
  - intros s c1 c2 amount r1 r2 H1 H2.
    exact (@convert_present float64 float64_arith s c1 c2 amount r1 r2 H1 H2).
  - intros s _ Hr.
    assert (Hc : convert s "USD" "GBP" (F64.of_Z 120) = F64.of_Z 90).
    { unfold convert, rate. rewrite Hr. vm_compute. reflexivity. }
    rewrite Hc. repeat split; vm_compute; reflexivity.
Qed.

Lemma convert_formula_witness :
  (Rates Scenario.snapshot !! "USD" = Some (F64.dec 12 10)
   /\ Rates Scenario.snapshot !! "GBP" = Some (F64.dec 9 10))
  /\ convert Scenario.snapshot "USD" "GBP" (F64.of_Z 120)
     = F64.mul (F64.div (F64.of_Z 120) (F64.dec 12 10)) (F64.dec 9 10).
Proof.
  split; [split; reflexivity |].
  apply (proj1 convert_formula Scenario.snapshot "USD" "GBP");
    reflexivity.
Defined.

(** ** Staleness *)

Lemma Hours_gt_1 (d : Z) :
  Qgt_bool (time.Hours d) 1 = (time.Hour <? d).
Proof.
  unfold Qgt_bool, Qle_bool, time.Hours. cbn [Qnum Qden].
  change (Z.pos (Z.to_pos time.Hour)) with 3600000000000.
  change time.Hour with 3600000000000.
  destruct (Z.leb_spec (d * 1) (1 * 3600000000000));
    destruct (Z.ltb_spec 3600000000000 d); simpl; try reflexivity; lia.
Qed.

(** The float64 test agrees with the exact one around the threshold and at
    the ends of the Duration range. *)
Lemma Hours_float64_boundary :
  forallb (fun d => Bool.eqb (F64.ltb F64.one (time.Hours_float64 d))
                             (Qgt_bool (time.Hours d) 1))
    [time.minDuration; - time.Hour - 1; -1; 0; 1; time.Hour - 1; time.Hour;
     time.Hour + 1; time.Hour + 1000; 2 * time.Hour; time.maxDuration]
  = true.
Proof. vm_compute. reflexivity. Qed.

Lemma Since_gt_Hour (d : Data) (st : State) :
  (time.Hour <? Since (time.Unix (Timestamp d) 0) st) = (time.Hour <? age d st).
Proof.
  unfold Since, time.Sub, age.
  set (x := Now st - time.Unix (Timestamp d) 0).
  assert (Hmax : time.Hour < time.maxDuration) by (vm_compute; reflexivity).
  assert (Hmin : time.minDuration < time.Hour) by (vm_compute; reflexivity).
  destruct (Z.ltb_spec time.Hour x);
    destruct (Z.ltb_spec time.Hour
                (Z.max time.minDuration (Z.min time.maxDuration x)));
    try reflexivity; lia.
Qed.

Lemma stale_test (d : Data) (st : State) :
  Qgt_bool (time.Hours (Since (time.Unix (Timestamp d) 0) st)) 1
  = (time.Hour <? age d st).
Proof. rewrite Hours_gt_1. apply Since_gt_Hour. Qed.

Section UpdateFacts.

Variable Unmarshal : list Byte.byte -> option json.

Lemma update_when_fresh (d : Data) (st : State) :
  age d st <= time.Hour -> update Unmarshal d st = (Ret d, st).
Proof.
  intros Hage. unfold update. rewrite stale_test.
  destruct (Z.ltb_spec time.Hour (age d st)); [lia | reflexivity].
Qed.

Lemma update_when_stale (d : Data) (st : State) :
  time.Hour < age d st ->
  update Unmarshal d st =
    match getData (Println (LogText "Data is older than 1 hour, refreshing") st) with
    | (Ret b, st') => (decodeJSON Unmarshal b, Println (LogBytes b) st')
    | (Panic p, st') => (Panic p, st')
    | (Exit n, st') => (Exit n, st')
    end.
Proof.
  intros Hage. unfold update. rewrite stale_test.
  destruct (Z.ltb_spec time.Hour (age d st)); [reflexivity | lia].
Qed.

End UpdateFacts.





(** ** The handler's guard *)

Lemma has_rate_absent (d : Data) (k : string) :
  Rates d !! k = None -> has_rate d k = false.
Proof.
  intros Hk. unfold has_rate. rewrite Hk.
  apply bool_decide_eq_false. intros [x Hx]. discriminate.
Qed.

Lemma has_rate_present (d : Data) (k : string) (x : float64) :
  Rates d !! k = Some x -> has_rate d k = true.
Proof.
  intros Hk. unfold has_rate. rewrite Hk.
  apply bool_decide_eq_true. exists x. reflexivity.
Qed.

Lemma first_value_cons (q : gmap string (list string)) (k v : string)
    (vs : list string) :
  q !! k = Some (v :: vs) -> first_value q k = Ret v.
Proof. unfold first_value. intros ->. reflexivity. Qed.

Lemma div_zero_not_finite (x : float64) :
  F64.is_finite (F64.div x F64.zero) = false.
Proof. destruct x as [s | s | | s m e]; reflexivity. Qed.

Lemma mul_not_finite (x y : float64) :
  F64.is_finite x = false -> F64.is_finite (F64.mul x y) = false.
Proof.
  destruct x as [s | s | | s m e]; try discriminate; intros _;
    destruct y as [s' | s' | | s' m' e']; reflexivity.
Qed.

Lemma mul_zero_zero_or_nan (x : float64) :
  F64.is_zero (F64.mul x F64.zero) || F64.is_nan (F64.mul x F64.zero) = true.
Proof. destruct x as [s | s | | s m e]; reflexivity. Qed.

Section HandlerFacts.

Variable Unmarshal : list Byte.byte -> option json.
Variable ParseFloat : string -> float64 * bool.
Variable Sprint_Time : Z -> string.

Lemma serve_spec (d : Data) (r : Request) (from to v : string)
    (fs ts vs : list string) :
  Query r !! "from" = Some (from :: fs) ->
  Query r !! "to" = Some (to :: ts) ->
  Query r !! "value" = Some (v :: vs) ->
  serve ParseFloat Sprint_Time d r =
    Ret (if snd (ParseFloat v) || negb (has_rate d from) || negb (has_rate d to)
         then Redirect "/" 302
         else Render "convert"
                (mkPage from to (fst (ParseFloat v))
                   (roundTo2Decimals (convert d from to (fst (ParseFloat v))))
                   (Sprint_Time (time.Unix (Timestamp d) 0)))).
Proof.
  intros Hf Ht Hv. unfold serve.
  rewrite (first_value_cons Hf), (first_value_cons Ht), (first_value_cons Hv).
  cbn. destruct (ParseFloat v) as [value err]. cbn.
  destruct (err || negb (has_rate d from) || negb (has_rate d to));
    reflexivity.
Qed.

Lemma convertHandler_returned (r : Request) (st st1 : State) (d : Data) :
  update Unmarshal (data st) st = (Ret d, st1) ->
  convertHandler Unmarshal ParseFloat Sprint_Time r st
  = (serve ParseFloat Sprint_Time d r, set_data d st1).
Proof. intros Hu. unfold convertHandler. rewrite Hu. reflexivity. Qed.

End HandlerFacts.

(** C3, as the code has it.  [Data.convert] has no error result: with
    [fromCode] absent it divides by the zero value and returns an infinity
    or NaN, with [toCode] absent it multiplies by the zero value and returns
    a zero or NaN.  The check for unknown codes is the guard of
    [convertHandler]: when either code is absent from the rates of the
    snapshot in use, the handler answers with a redirect to "/" (302) and
    does not convert. *)
Theorem unknown_currency_redirects
    (Unmarshal : list Byte.byte -> option json)
    (ParseFloat : string -> float64 * bool)
    (Sprint_Time : Z -> string)
    (r : Request) (st st1 : State) (d : Data)
    (fromCode toCode v : string) (fs ts vs : list string) (amount : float64) :
  update Unmarshal (data st) st = (Ret d, st1) ->
  Query r !! "from" = Some (fromCode :: fs) ->
  Query r !! "to" = Some (toCode :: ts) ->
  Query r !! "value" = Some (v :: vs) ->
  Rates d !! fromCode = None \/ Rates d !! toCode = None ->
  convertHandler Unmarshal ParseFloat Sprint_Time r st
    = (Ret (Redirect "/" 302), set_data d st1)
  /\ (Rates d !! fromCode = None ->
      F64.is_finite (convert d fromCode toCode amount) = false)
  /\ (Rates d !! toCode = None ->
      F64.is_zero (convert d fromCode toCode amount)
      || F64.is_nan (convert d fromCode toCode amount) = true).
Proof.
  intros Hu Hf Ht Hv Habs. split; [| split].
  - rewrite (convertHandler_returned ParseFloat Sprint_Time r Hu).
    rewrite (serve_spec ParseFloat Sprint_Time d Hf Ht Hv).
    destruct Habs as [Ha | Ha]; rewrite (has_rate_absent Ha); cbn;
      rewrite ?orb_true_r; reflexivity.
  - intros Ha. unfold convert. rewrite (rate_absent Ha).
    apply mul_not_finite, div_zero_not_finite.
  - intros Ha. unfold convert. rewrite (rate_absent Ha).
    apply mul_zero_zero_or_nan.
Qed.

Lemma unknown_currency_redirects_witness :
  fst (convertHandler Scenario.Unmarshal Scenario.ParseFloat
         Scenario.Sprint_Time (Scenario.request "ZZZ" "USD" "10")
         (Scenario.state 1800 Scenario.reply_ok))
  = Ret (Redirect "/" 302).
Proof.
  refine (f_equal fst
    (proj1 (@unknown_currency_redirects Scenario.Unmarshal Scenario.ParseFloat
       Scenario.Sprint_Time (Scenario.request "ZZZ" "USD" "10")
       (Scenario.state 1800 Scenario.reply_ok)
       (Scenario.state 1800 Scenario.reply_ok)
       Scenario.snapshot "ZZZ" "USD" "10" [] [] [] (F64.of_Z 10)
       _ _ _ _ _)));
    try (vm_compute; reflexivity).
  left. vm_compute. reflexivity.
Defined.

(** C3 as stated fails: with "ZZZ" absent from the rates,
    [convert(s, "ZZZ", "USD", 10)] returns a float64, +Inf. *)
Lemma unknown_currency_returns_value :
  convert Scenario.snapshot "ZZZ" "USD" (F64.of_Z 10) = F64.pinf
  /\ Rates Scenario.snapshot !! "ZZZ" = None.
Proof. split; vm_compute; reflexivity. Qed.

(** C8, as the code has it.  Neither [Data.convert] nor the handler looks at
    the sign or the finiteness of the amount.  The handler redirects to "/"
    when [strconv.ParseFloat] reports an error; for every amount that parses
    (negative numbers, "NaN" and "Inf" parse) and codes that are both in the
    rates, it renders the page with the rounded
    [(amount / rates[from]) * rates[to]]. *)
Theorem amount_not_validated
    (Unmarshal : list Byte.byte -> option json)
    (ParseFloat : string -> float64 * bool)
    (Sprint_Time : Z -> string)
    (r : Request) (st st1 : State) (d : Data)
    (fromCode toCode v : string) (fs ts vs : list string)
    (r1 r2 : float64) :
  update Unmarshal (data st) st = (Ret d, st1) ->
  Query r !! "from" = Some (fromCode :: fs) ->
  Query r !! "to" = Some (toCode :: ts) ->
  Query r !! "value" = Some (v :: vs) ->
  Rates d !! fromCode = Some r1 ->
  Rates d !! toCode = Some r2 ->
  convertHandler Unmarshal ParseFloat Sprint_Time r st
    = (Ret (if snd (ParseFloat v) then Redirect "/" 302
            else Render "convert"
                   (mkPage fromCode toCode (fst (ParseFloat v))
                      (roundTo2Decimals
                         (F64.mul (F64.div (fst (ParseFloat v)) r1) r2))
                      (Sprint_Time (time.Unix (Timestamp d) 0)))),
       set_data d st1).
Proof.
  intros Hu Hf Ht Hv H1 H2.
  rewrite (convertHandler_returned ParseFloat Sprint_Time r Hu).
  rewrite (serve_spec ParseFloat Sprint_Time d Hf Ht Hv).
  rewrite (has_rate_present H1), (has_rate_present H2).
  rewrite (@convert_present float64 float64_arith d fromCode toCode
             (fst (ParseFloat v)) r1 r2 H1 H2).
  cbn. rewrite !orb_false_r. reflexivity.
Qed.

Lemma amount_not_validated_witness :
  fst (convertHandler Scenario.Unmarshal Scenario.ParseFloat
         Scenario.Sprint_Time (Scenario.request "USD" "GBP" "-120")
         (Scenario.state 1800 Scenario.reply_ok))
  = Ret (Render "convert"
           (mkPage "USD" "GBP" (F64.of_Z (-120))
              (roundTo2Decimals
                 (F64.mul (F64.div (F64.of_Z (-120)) (F64.dec 12 10))
                    (F64.dec 9 10)))
              (Scenario.Sprint_Time (time.Unix Scenario.T0 0)))).
Proof.
  refine (f_equal fst
    (@amount_not_validated Scenario.Unmarshal Scenario.ParseFloat
       Scenario.Sprint_Time (Scenario.request "USD" "GBP" "-120")
       (Scenario.state 1800 Scenario.reply_ok)
       (Scenario.state 1800 Scenario.reply_ok)
       Scenario.snapshot "USD" "GBP" "-120" [] [] []
       (F64.dec 12 10) (F64.dec 9 10) _ _ _ _ _ _));
    vm_compute; reflexivity.
Defined.

(** C8 as stated fails: a negative amount is converted like any other,
    -120 USD gives -90 GBP, and so are NaN and +Inf. *)
Lemma negative_amount_converted :
  convert Scenario.snapshot "USD" "GBP" (F64.of_Z (-120)) = F64.of_Z (-90)
  /\ F64.is_negative (F64.of_Z (-120)) = true
  /\ convert Scenario.snapshot "USD" "GBP" F64.pinf = F64.pinf
  /\ F64.is_finite F64.pinf = false.
Proof. repeat split; vm_compute; reflexivity. Qed.

(** ** The decoder *)

Lemma decode_rates_bad (l : list (string * json)) (acc : gmap string float64) :
  Exists (fun e => dyn_type_of (snd e) <> TFloat64) l ->
  exists have, decode_rates l acc = Panic (InterfaceConversion have TFloat64).
Proof.
  revert acc. induction l as [| [k v] l IH]; intros acc Hex.
  - inversion Hex.
  - cbn [decode_rates].
    destruct v; try (eexists; reflexivity).
    cbn. apply IH.
    inversion Hex as [? ? Hbad | ? ? Hrest]; subst; [| assumption].
    cbn in Hbad. congruence.
Qed.

Lemma decode_rates_good (l : list (string * json)) (acc : gmap string float64) :
  NoDup (l.*1) ->
  Forall (fun e => exists x, snd e = JNumber x) l ->
  exists rates,
    decode_rates l acc = Ret rates
    /\ forall k x, rates !! k = Some x <->
         ((k, JNumber x) ∈ l \/ ((k ∉ l.*1) /\ acc !! k = Some x)).
Proof.
  revert acc. induction l as [| [k0 v0] l IH]; intros acc Hnd Hall.
  - exists acc. split; [reflexivity |].
    intros k x. cbn. split.
    + intros Hk. right. split; [apply not_elem_of_nil | assumption].
    + intros [Hk | [_ Hk]]; [| assumption]. inversion Hk.
  - inversion Hall as [| ? ? [x0 Hx0] Hall']; subst. cbn in Hx0. subst v0.
    cbn in Hnd. apply NoDup_cons in Hnd as [Hk0 Hnd].
    destruct (IH (<[k0 := x0]> acc) Hnd Hall') as (rates & Hdec & Hlook).
    exists rates. split; [exact Hdec |].
    intros k x. rewrite Hlook. cbn. rewrite elem_of_cons, not_elem_of_cons.
    destruct (decide (k = k0)) as [-> | Hne].
    + rewrite lookup_insert_eq. split.
      * intros [Hin | [_ Heq]].
        -- exfalso. apply Hk0. apply list_elem_of_fmap.
           exists (k0, JNumber x). split; [reflexivity | assumption].
        -- left. left. congruence.
      * intros [[Heq | Hin] | [[Hne _] _]].
        -- right. split; [assumption | congruence].
        -- left. assumption.
        -- congruence.
    + rewrite lookup_insert_ne by congruence. split.
      * intros [Hin | [Hnin Hacc]]; [left; right; assumption |].
        right. repeat split; assumption.
      * intros [[Heq | Hin] | [[_ Hnin] Hacc]].
        -- congruence.
        -- left. assumption.
        -- right. split; assumption.
Qed.

Lemma decode_rates_map (rm : gmap string json) :
  (forall k v, rm !! k = Some v -> exists x, v = JNumber x) ->
  exists rates,
    decode_rates (map_to_list rm) ∅ = Ret rates
    /\ forall k x, rates !! k = Some x <-> rm !! k = Some (JNumber x).
Proof.
  intros Hnum.
  destruct (@decode_rates_good (map_to_list rm) ∅) as (rates & Hdec & Hlook).
  - apply NoDup_fst_map_to_list.
  - apply Forall_forall. intros [k v] Hin. cbn.
    apply elem_of_map_to_list in Hin. eauto.
  - exists rates. split; [exact Hdec |].
    intros k x. rewrite Hlook, elem_of_map_to_list. split.
    + intros [Hk | [_ Hk]]; [assumption |]. rewrite lookup_empty in Hk.
      discriminate.
    + intros Hk. left. assumption.
Qed.

Section DecoderFacts.

Variable Unmarshal : list Byte.byte -> option json.

Lemma decodeJSON_not_json (b : list Byte.byte) :
  Unmarshal b = None -> decodeJSON Unmarshal b = Exit 1.
Proof. intros Hb. unfold decodeJSON. rewrite Hb. reflexivity. Qed.

Lemma decodeJSON_bad_field (b : list Byte.byte) (m : gmap string json) :
  Unmarshal b = Some (JObject m) ->
  required_fields_ok m = false ->
  exists have want, decodeJSON Unmarshal b = Panic (InterfaceConversion have want).
Proof.
  intros Hb Hbad. unfold decodeJSON. rewrite Hb. cbn.
  unfold required_fields_ok, required, field_ok in Hbad. cbn in Hbad.
  destruct (index m "success"); cbn; try (eexists _, _; reflexivity).
  destruct (index m "timestamp"); cbn; try (eexists _, _; reflexivity).
  destruct (index m "base"); cbn; try (eexists _, _; reflexivity).
  destruct (index m "date"); cbn; try (eexists _, _; reflexivity).
  destruct (index m "rates"); cbn; try (eexists _, _; reflexivity).
  cbn in Hbad. discriminate.
Qed.

Lemma decodeJSON_bad_rate (b : list Byte.byte) (m rm : gmap string json)
    (k : string) (v : json) :
  Unmarshal b = Some (JObject m) ->
  m !! "rates" = Some (JObject rm) ->
  rm !! k = Some v ->
  dyn_type_of v <> TFloat64 ->
  exists have want, decodeJSON Unmarshal b = Panic (InterfaceConversion have want).
Proof.
  intros Hb Hr Hk Hv. unfold decodeJSON. rewrite Hb. cbn.
  destruct (index m "success"); cbn; try (eexists _, _; reflexivity).
  destruct (index m "timestamp"); cbn; try (eexists _, _; reflexivity).
  destruct (index m "base"); cbn; try (eexists _, _; reflexivity).
  destruct (index m "date"); cbn; try (eexists _, _; reflexivity).
  unfold index at 1. rewrite Hr. cbn.
  destruct (@decode_rates_bad (map_to_list rm) ∅) as [have Hp].
  - apply Exists_exists. exists (k, v). split; [| exact Hv].
    apply elem_of_map_to_list. exact Hk.
  - rewrite Hp. cbn. eexists _, _. reflexivity.
Qed.

Lemma decodeJSON_complete (b : list Byte.byte) (m rm : gmap string json)
    (success : bool) (ts : float64) (base date : string) :
  Unmarshal b = Some (JObject m) ->
  m !! "success" = Some (JBool success) ->
  m !! "timestamp" = Some (JNumber ts) ->
  m !! "base" = Some (JString base) ->
  m !! "date" = Some (JString date) ->
  m !! "rates" = Some (JObject rm) ->
  (forall k v, rm !! k = Some v -> exists x, v = JNumber x) ->
  exists rates,
    decodeJSON Unmarshal b
      = Ret (mkData success (int64_of_float64 ts) base date rates)
    /\ forall k x, rates !! k = Some x <-> rm !! k = Some (JNumber x).
Proof.
  intros Hb Hs Ht Hbase Hdate Hr Hnum.
  destruct (decode_rates_map Hnum) as (rates & Hdec & Hlook).
  exists rates. split; [| exact Hlook].
  unfold decodeJSON. rewrite Hb. cbn. unfold index.
  rewrite Hs. cbn. rewrite Ht. cbn. rewrite Hbase. cbn. rewrite Hdate. cbn.
  rewrite Hr. cbn. rewrite Hdec. reflexivity.
Qed.

End DecoderFacts.

Lemma forallb_false_Exists {A : Type} (f : A -> bool) (l : list A) :
  forallb f l = false -> Exists (fun x => f x = false) l.
Proof.
  induction l as [| x l IH]; cbn; [discriminate |].
  destruct (f x) eqn:Hx; cbn.
  - intros Hl. right. apply IH. exact Hl.
  - intros _. left. exact Hx.
Qed.

Section WellFormed.

Variable Unmarshal : list Byte.byte -> option json.

Lemma decodeJSON_not_object (b : list Byte.byte) (i : json) :
  Unmarshal b = Some i ->
  dyn_type_of i <> TMap ->
  decodeJSON Unmarshal b = Panic (InterfaceConversion (dyn_type_of i) TMap).
Proof.
  intros Hb Hi. unfold decodeJSON. rewrite Hb.
  destruct i; cbn in *; try reflexivity. congruence.
Qed.

Lemma decodeJSON_ill_formed (b : list Byte.byte) (i : json) :
  Unmarshal b = Some i ->
  well_formed i = false ->
  exists have want,
    decodeJSON Unmarshal b = Panic (InterfaceConversion have want).
Proof.
  intros Hb Hwf.
  destruct i as [| | | | | m];
    try (eexists _, _; apply (decodeJSON_not_object Hb); cbn; congruence).
  cbn in Hwf. apply andb_false_iff in Hwf as [Hreq | Hrates].
  - exact (decodeJSON_bad_field Hb Hreq).
  - destruct (required_fields_ok m) eqn:Hreq;
      [| exact (decodeJSON_bad_field Hb Hreq)].
    unfold rates_ok in Hrates.
    destruct (index m "rates") as [| | | | | rm] eqn:Hr;
      try (apply (decodeJSON_bad_field Hb);
           revert Hreq; unfold required_fields_ok, required, field_ok; cbn;
           rewrite Hr; cbn; rewrite ?andb_false_r; intros Hreq; congruence).
    apply forallb_false_Exists in Hrates.
    apply Exists_exists in Hrates as ([k v] & Hin & Hv).
    apply elem_of_map_to_list in Hin. cbn in Hv.
    apply bool_decide_eq_false in Hv.
    apply (@decodeJSON_bad_rate Unmarshal b m rm k v Hb); try assumption.
    unfold index in Hr. destruct (m !! "rates") as [j |]; cbn in Hr;
      [congruence | discriminate].
Qed.

Lemma decodeJSON_well_formed (b : list Byte.byte) (i : json) :
  Unmarshal b = Some i ->
  well_formed i = true ->
  exists d, decodeJSON Unmarshal b = Ret d.
Proof.
  intros Hb Hwf. destruct i as [| | | | | m]; try discriminate.
  cbn in Hwf. apply andb_true_iff in Hwf as [Hreq Hrates].
  unfold required_fields_ok, required, field_ok in Hreq. cbn in Hreq.
  unfold rates_ok in Hrates.
  unfold decodeJSON. rewrite Hb. cbn.
  destruct (index m "success"); cbn in Hreq; try discriminate.
  destruct (index m "timestamp"); cbn in Hreq; try discriminate.
  destruct (index m "base"); cbn in Hreq; try discriminate.
  destruct (index m "date"); cbn in Hreq; try discriminate.
  destruct (index m "rates") as [| | | | | rm]; try discriminate.
  cbn.
  destruct (@decode_rates_map rm) as (rates & Hdec & _).
  - intros k v Hk.
    rewrite forallb_forall in Hrates.
    assert (Hin : In (k, v) (map_to_list rm)).
    { apply list_elem_of_In, elem_of_map_to_list. exact Hk. }
    specialize (Hrates _ Hin). cbn in Hrates.
    apply bool_decide_eq_true in Hrates.
    destruct v; cbn in Hrates; try discriminate. eauto.
  - rewrite Hdec. cbn. eauto.
Qed.

End WellFormed.

(** C5, as the code has it.  When the document is not an object, when a
    required key is missing (or null) or holds a value of another type, or
    when an entry of the rates is not a number, [decodeJSON] returns no
    snapshot at all: the failed type assertion panics.  The panic value
    records the dynamic type found and the type asserted, not the key. *)
Theorem malformed_document_panics
    (Unmarshal : list Byte.byte -> option json)
    (b : list Byte.byte) (i : json) :
  Unmarshal b = Some i ->
  well_formed i = false ->
  (exists have want,
      decodeJSON Unmarshal b = Panic (InterfaceConversion have want))
  /\ forall d : Data, decodeJSON Unmarshal b <> Ret d.
Proof.
  intros Hb Hbad.
  destruct (decodeJSON_ill_formed Hb Hbad) as (have & want & Hp).
  split.
  - exists have, want. exact Hp.
  - intros d. rewrite Hp. discriminate.
Qed.

Lemma malformed_document_panics_witness :
  exists have want,
    decodeJSON Scenario.Unmarshal Scenario.text_without_rates
    = Panic (InterfaceConversion have want).
Proof.
  refine (proj1 (@malformed_document_panics Scenario.Unmarshal
                   Scenario.text_without_rates
                   (Scenario.without "rates") _ _)).
  - vm_compute. reflexivity.
  - vm_compute. reflexivity.
Defined.

(** C5 as stated fails: a document without "base" and a document without
    "date" end in the same panic value, which names two types and no
    field. *)
Lemma panic_names_no_field :
  decodeJSON Scenario.Unmarshal Scenario.text_without_base
    = Panic (InterfaceConversion TNil TString)
  /\ decodeJSON Scenario.Unmarshal Scenario.text_without_date
    = Panic (InterfaceConversion TNil TString).
Proof. split; vm_compute; reflexivity. Qed.

(** C7, as the code has it.  [decodeJSON] stores the success flag and does
    not test it: a document whose required fields are well typed and whose
    "success" is false decodes to a snapshot with [Success = false] and with
    the timestamp, base, date and rates of the document, and [convert] on
    that snapshot computes as on one with [Success = true]. *)
Theorem success_flag_not_checked
    (Unmarshal : list Byte.byte -> option json)
    (b : list Byte.byte) (m rm : gmap string json)
    (ts : float64) (base date : string) :
  Unmarshal b = Some (JObject m) ->
  m !! "success" = Some (JBool false) ->
  m !! "timestamp" = Some (JNumber ts) ->
  m !! "base" = Some (JString base) ->
  m !! "date" = Some (JString date) ->
  m !! "rates" = Some (JObject rm) ->
  (forall k v, rm !! k = Some v -> exists x, v = JNumber x) ->
  exists rates,
    decodeJSON Unmarshal b
      = Ret (mkData false (int64_of_float64 ts) base date rates)
    /\ (forall k x, rates !! k = Some x <-> rm !! k = Some (JNumber x))
    /\ (forall c1 c2 amount,
          convert (mkData false (int64_of_float64 ts) base date rates)
                  c1 c2 amount
          = convert (mkData true (int64_of_float64 ts) base date rates)
                    c1 c2 amount).
Proof.
  intros Hb Hs Ht Hbase Hdate Hr Hnum.
  destruct (decodeJSON_complete Hb Hs Ht Hbase Hdate Hr Hnum)
    as (rates & Hdec & Hlook).
  exists rates. repeat split; try assumption; apply Hlook.
Qed.

Lemma success_flag_not_checked_witness :
  exists rates,
    decodeJSON Scenario.Unmarshal (Scenario.document_text "false")
    = Ret (mkData false (int64_of_float64 (F64.of_Z (Scenario.T0 + 7200)))
             "EUR" "2020-09-13" rates).
Proof.
  destruct (@success_flag_not_checked Scenario.Unmarshal
              (Scenario.document_text "false")
              (<["success" := JBool false]>
               (<["timestamp" := JNumber (F64.of_Z (Scenario.T0 + 7200))]>
               (<["base" := JString "EUR"]>
               (<["date" := JString "2020-09-13"]>
               (<["rates" := Scenario.json_rates]> ∅)))))
              (<["USD" := JNumber (F64.dec 12 10)]>
               (<["GBP" := JNumber (F64.dec 9 10)]> ∅))
              (F64.of_Z (Scenario.T0 + 7200)) "EUR" "2020-09-13")
    as (rates & Hdec & _); try (vm_compute; reflexivity).
  - intros k v Hk.
    destruct (decide (k = "USD")) as [-> | Hu];
      [rewrite lookup_insert_eq in Hk; inversion Hk; eauto |].
    rewrite lookup_insert_ne in Hk by congruence.
    destruct (decide (k = "GBP")) as [-> | Hg];
      [rewrite lookup_insert_eq in Hk; inversion Hk; eauto |].
    rewrite lookup_insert_ne in Hk by congruence.
    rewrite lookup_empty in Hk. discriminate.
  - exists rates. exact Hdec.
Defined.

(** C7 as stated fails: the document that reports [success: false] decodes
    to a snapshot, with the rates of the document. *)
Lemma failed_document_decodes :
  decodeJSON Scenario.Unmarshal (Scenario.document_text "false")
  = Ret (mkData false (Scenario.T0 + 7200) "EUR" "2020-09-13" Scenario.rates).
Proof. vm_compute. reflexivity. Qed.

(** ** Refresh *)

Lemma same_env_refl (st : State) : same_env st st.
Proof. repeat split. Qed.

Lemma same_env_trans (st1 st2 st3 : State) :
  same_env st1 st2 -> same_env st2 st3 -> same_env st1 st3.
Proof.
  intros (Ha & Hd & Hc & Hw) (Ha' & Hd' & Hc' & Hw').
  repeat split; congruence.
Qed.

Lemma same_env_age (st st' : State) (d : Data) :
  same_env st st' -> age d st' = age d st.
Proof. intros (_ & _ & Hc & _). unfold age, Now. rewrite Hc. reflexivity. Qed.

Lemma age_same_clock (st st' : State) (d : Data) :
  clock st' = clock st -> age d st' = age d st.
Proof. intros Hc. unfold age, Now. rewrite Hc. reflexivity. Qed.

Lemma same_env_url (st st' : State) :
  same_env st st' -> latest_url st' = latest_url st.
Proof. intros (Ha & _). unfold latest_url. rewrite Ha. reflexivity. Qed.

Lemma getData_spec (st : State) :
  exists st',
    same_env st st' /\ fetches st' = S (fetches st)
    /\ getData st =
         (match fst (wire st (latest_url st) (fetches st)) with
          | None => Panic NilDereference
          | Some resp => Ret (Body resp)
          end, st').
Proof.
  unfold getData, http_Get.
  destruct (wire st (latest_url st) (fetches st)) as [[resp |] err]; cbn.
  - eexists. split; [| split; [| reflexivity]].
    + destruct err, (ReadErr resp); repeat split.
    + destruct err, (ReadErr resp); reflexivity.
  - eexists. split; [| split; [| reflexivity]].
    + destruct err; repeat split.
    + destruct err; reflexivity.
Qed.

Lemma decode_rates_no_exit (l : list (string * json))
    (acc : gmap string float64) (n : Z) :
  decode_rates l acc <> Exit n.
Proof.
  revert acc. induction l as [| [k v] l IH]; intros acc; cbn.
  - discriminate.
  - destruct v; cbn; try discriminate. apply IH.
Qed.

Section RefreshFacts.

Variable Unmarshal : list Byte.byte -> option json.

Lemma decodeJSON_exit (b : list Byte.byte) (n : Z) :
  decodeJSON Unmarshal b = Exit n -> Unmarshal b = None /\ n = 1.
Proof.
  unfold decodeJSON. destruct (Unmarshal b) as [i |].
  - intros Hx. exfalso. revert Hx.
    destruct i; cbn; try discriminate.
    destruct (index m "success"); cbn; try discriminate.
    destruct (index m "timestamp"); cbn; try discriminate.
    destruct (index m "base"); cbn; try discriminate.
    destruct (index m "date"); cbn; try discriminate.
    destruct (index m "rates"); cbn; try discriminate.
    destruct (decode_rates (map_to_list m0) ∅) eqn:Hr; cbn; try discriminate.
    exfalso. exact (decode_rates_no_exit Hr).
  - intros Hx. inversion Hx. split; reflexivity.
Qed.

(** A refresh issues exactly one GET, whatever comes of it. *)
Lemma update_stale_spec (d : Data) (st : State) :
  time.Hour < age d st ->
  exists st',
    same_env st st' /\ fetches st' = S (fetches st)
    /\ update Unmarshal d st =
         (match fst (wire st (latest_url st) (fetches st)) with
          | None => Panic NilDereference
          | Some resp => decodeJSON Unmarshal (Body resp)
          end, st').
Proof.
  intros Hst. rewrite (update_when_stale Unmarshal Hst).
  set (st0 := Println (LogText "Data is older than 1 hour, refreshing") st).
  destruct (getData_spec st0) as (st1 & Henv & Hf & Hg). rewrite Hg.
  change (wire st0) with (wire st). change (latest_url st0) with (latest_url st).
  change (fetches st0) with (fetches st).
  assert (Henv0 : same_env st st1).
  { apply same_env_trans with st0; [repeat split | exact Henv]. }
  destruct (fst (wire st (latest_url st) (fetches st))) as [resp |].
  - exists (Println (LogBytes (Body resp)) st1).
    split; [| split; [exact Hf | reflexivity]].
    apply same_env_trans with st1; [exact Henv0 | repeat split].
  - exists st1. split; [exact Henv0 | split; [exact Hf | reflexivity]].
Qed.

End RefreshFacts.

(** C4, as the code has it.  There is no degraded serving.  When the
    snapshot in [data] is older than one hour and the GET gives a response
    whose body does not decode, [update] does not return the old snapshot:
    it ends the process with status 1 when the body is not JSON, and it
    panics when a required field is missing or of another type.  The
    handler ends the same way, one GET has been issued, and [data] still
    holds the old snapshot because the assignment was not reached. *)
Theorem failed_refresh_serves_nothing
    (Unmarshal : list Byte.byte -> option json)
    (ParseFloat : string -> float64 * bool)
    (Sprint_Time : Z -> string)
    (r : Request) (st : State) (resp : Response) (err : bool) :
  time.Hour < age (data st) st ->
  wire st (latest_url st) (fetches st) = (Some resp, err) ->
  returned (decodeJSON Unmarshal (Body resp)) = false ->
  exists st',
    update Unmarshal (data st) st = (decodeJSON Unmarshal (Body resp), st')
    /\ (Unmarshal (Body resp) = None ->
        update Unmarshal (data st) st = (Exit 1, st'))
    /\ (forall i, Unmarshal (Body resp) = Some i ->
        exists p, update Unmarshal (data st) st = (Panic p, st'))
    /\ fst (update Unmarshal (data st) st) <> Ret (data st)
    /\ returned (fst (convertHandler Unmarshal ParseFloat Sprint_Time r st))
       = false
    /\ snd (convertHandler Unmarshal ParseFloat Sprint_Time r st) = st'
    /\ data st' = data st
    /\ fetches st' = S (fetches st).
Proof.
  intros Hstale Hw Hbad.
  destruct (update_stale_spec Unmarshal Hstale) as (st' & Henv & Hf & Hu).
  rewrite Hw in Hu. cbn [fst] in Hu.
  exists st'. split; [exact Hu |].
  split; [| split; [| split; [| split; [| split; [| split]]]]].
  - intros Hn. rewrite Hu, (decodeJSON_not_json Hn). reflexivity.
  - intros i Hi. rewrite Hu.
    destruct (decodeJSON Unmarshal (Body resp)) as [d | p | n] eqn:Hd.
    + discriminate.
    + exists p. reflexivity.
    + apply decodeJSON_exit in Hd as [Hd _]. congruence.
  - rewrite Hu. cbn. intros Heq. rewrite Heq in Hbad. discriminate.
  - unfold convertHandler. rewrite Hu.
    destruct (decodeJSON Unmarshal (Body resp)); [discriminate | |];
      reflexivity.
  - unfold convertHandler. rewrite Hu.
    destruct (decodeJSON Unmarshal (Body resp)); [discriminate | |];
      reflexivity.
  - apply Henv.
  - exact Hf.
Qed.

Lemma failed_refresh_serves_nothing_witness :
  exists st',
    update Scenario.Unmarshal Scenario.snapshot
      (Scenario.state 7200 Scenario.reply_html)
    = (Exit 1, st').
Proof.
  destruct (@failed_refresh_serves_nothing Scenario.Unmarshal
              Scenario.ParseFloat Scenario.Sprint_Time
              (Scenario.request "USD" "GBP" "120")
              (Scenario.state 7200 Scenario.reply_html)
              (mkResponse Scenario.text_html false) false)
    as (st' & _ & Hexit & _); try (vm_compute; reflexivity).
  exists st'. apply Hexit. vm_compute. reflexivity.
Defined.

(** C4 as stated fails: the snapshot of T0 is in [data], at T0 + 2h the
    refresh fails, and the call does not return that snapshot.  A body that
    is not JSON ends the process; a failed GET ends the call in a nil
    dereference. *)
Lemma stale_snapshot_not_served :
  data (Scenario.state 7200 Scenario.reply_html) = Scenario.snapshot
  /\ fst (update Scenario.Unmarshal Scenario.snapshot
            (Scenario.state 7200 Scenario.reply_html)) = Exit 1
  /\ fst (convertHandler Scenario.Unmarshal Scenario.ParseFloat
            Scenario.Sprint_Time (Scenario.request "USD" "GBP" "120")
            (Scenario.state 7200 Scenario.reply_html)) = Exit 1
  /\ fst (update Scenario.Unmarshal Scenario.snapshot
            (Scenario.state 7200 (None, true))) = Panic NilDereference.
Proof. repeat split; vm_compute; reflexivity. Qed.

(** ** Interleaved calls *)

Lemma pending_all_insert (pool : list goroutine) (i : nat) (g g' : goroutine) :
  pool !! i = Some g ->
  (pending_all (<[i := g']> pool) + pending g
   = pending_all pool + pending g')%nat.
Proof.
  unfold pending_all. generalize pending. intros f. revert i.
  induction pool as [| h pool IH]; intros i Hi; [discriminate |].
  destruct i as [| i]; cbn in *.
  - inversion Hi. subst h. clear IH. lia.
  - specialize (IH i Hi). rewrite <- !Nat.add_assoc. f_equal. exact IH.
Qed.

Lemma pending_le_all (pool : list goroutine) (i : nat) (g : goroutine) :
  pool !! i = Some g -> (pending g <= pending_all pool)%nat.
Proof.
  unfold pending_all. generalize pending. intros f. revert i.
  induction pool as [| h pool IH]; intros i Hi; [discriminate |].
  destruct i as [| i]; cbn in *.
  - inversion Hi. subst h. clear IH. lia.
  - specialize (IH i Hi). etransitivity; [exact IH |]. apply Nat.le_add_l.
Qed.

Lemma pending_all_replicate (n : nat) :
  pending_all (replicate n Entered) = n.
Proof.
  unfold pending_all. induction n as [| n IH]; [reflexivity |].
  cbn [replicate fmap list_fmap sum_list sum_list_with pending].
  cbn [fmap] in IH. rewrite IH. reflexivity.
Qed.

Section InterleavingFacts.

Variable Unmarshal : list Byte.byte -> option json.

Lemma run_cons (i : nat) (schedule : list nat) (sys : system) :
  run Unmarshal (i :: schedule) sys
  = run Unmarshal schedule (sched Unmarshal i sys).
Proof. reflexivity. Qed.

Lemma run_app (s1 s2 : list nat) (sys : system) :
  run Unmarshal (s1 ++ s2) sys = run Unmarshal s2 (run Unmarshal s1 sys).
Proof. unfold run. apply foldl_app. Qed.

Lemma sched_middle (st : State) (pre post : list goroutine) (g : goroutine) :
  sched Unmarshal (length pre) (mkSystem st (pre ++ g :: post) None) =
    match step Unmarshal g st with
    | (inl g', st') => mkSystem st' (pre ++ g' :: post) None
    | (inr n, st') => mkSystem st' (pre ++ g :: post) (Some n)
    end.
Proof.
  unfold sched. cbn [exited pool shared].
  rewrite list_lookup_middle by reflexivity.
  destruct (step Unmarshal g st) as [[g' | n] st']; [| reflexivity].
  rewrite insert_app_r_alt by lia. rewrite Nat.sub_diag. reflexivity.
Qed.

Lemma step_entered_stale (st : State) :
  time.Hour < age (data st) st ->
  step Unmarshal Entered st =
    (inl (Refreshing (data st)),
     Println (LogText "Data is older than 1 hour, refreshing") st).
Proof.
  intros Hst. cbn [step]. rewrite stale_test.
  destruct (Z.ltb_spec time.Hour (age (data st) st)); [reflexivity | lia].
Qed.

Lemma step_entered_fresh (st : State) :
  age (data st) st <= time.Hour ->
  step Unmarshal Entered st = (inl (Returned (data st)), st).
Proof.
  intros Hst. cbn [step]. rewrite stale_test.
  destruct (Z.ltb_spec time.Hour (age (data st) st)); [lia | reflexivity].
Qed.

Lemma step_refreshing (st : State) (d : Data) :
  decodable Unmarshal st ->
  exists g' st',
    step Unmarshal (Refreshing d) st = (inl g', st')
    /\ settled g' /\ same_env st st' /\ fetches st' = S (fetches st).
Proof.
  intros Hdec. cbn [step].
  destruct (getData_spec st) as (st1 & Henv & Hf & Hg). rewrite Hg.
  destruct (wire st (latest_url st) (fetches st)) as [[resp |] err] eqn:Hw;
    cbn [fst].
  - destruct (decodeJSON Unmarshal (Body resp)) as [d' | p | n] eqn:Hd.
    + exists (Returned d'), (Println (LogBytes (Body resp)) st1).
      repeat split; try apply Henv; exact Hf.
    + exists (Panicked p), (Println (LogBytes (Body resp)) st1).
      repeat split; try apply Henv; exact Hf.
    + apply decodeJSON_exit in Hd as [Hd _].
      destruct (Hdec _ _ _ Hw) as [i Hi]. congruence.
  - exists (Panicked NilDereference), st1.
    repeat split; try apply Henv; exact Hf.
Qed.

Lemma decodable_same_env (st st' : State) :
  same_env st st' -> decodable Unmarshal st -> decodable Unmarshal st'.
Proof.
  intros Henv Hdec i resp err Hw.
  rewrite (same_env_url Henv) in Hw.
  destruct Henv as (_ & _ & _ & Hwire). rewrite Hwire in Hw.
  exact (Hdec _ _ _ Hw).
Qed.

(** First phase: every call finds the snapshot stale. *)
Lemma phase_test (k : nat) :
  forall (pre : list goroutine) (st : State),
    time.Hour < age (data st) st ->
    exists st',
      same_env st st' /\ fetches st' = fetches st
      /\ run Unmarshal (seq (length pre) k)
           (mkSystem st (pre ++ replicate k Entered) None)
         = mkSystem st' (pre ++ replicate k (Refreshing (data st))) None.
Proof.
  induction k as [| k IH]; intros pre st Hst.
  - exists st. split; [apply same_env_refl | split; reflexivity].
  - cbn [seq replicate]. rewrite run_cons, sched_middle.
    rewrite (step_entered_stale Hst).
    set (st0 := Println (LogText "Data is older than 1 hour, refreshing") st).
    assert (Henv0 : same_env st st0) by (repeat split).
    destruct (IH (pre ++ [Refreshing (data st)]) st0) as (st' & Henv & Hf & Hrun).
    { exact Hst. }
    exists st'. split; [| split].
    + exact (same_env_trans Henv0 Henv).
    + exact Hf.
    + rewrite length_app, Nat.add_1_r in Hrun.
      rewrite <- !app_assoc in Hrun. exact Hrun.
Qed.

(** Second phase: every call that found the snapshot stale issues its GET. *)
Lemma phase_get (k : nat) :
  forall (pre : list goroutine) (st : State) (d : Data),
    decodable Unmarshal st ->
    exists st' gs,
      same_env st st' /\ fetches st' = (fetches st + k)%nat
      /\ length gs = k /\ Forall settled gs
      /\ run Unmarshal (seq (length pre) k)
           (mkSystem st (pre ++ replicate k (Refreshing d)) None)
         = mkSystem st' (pre ++ gs) None.
Proof.
  induction k as [| k IH]; intros pre st d Hdec.
  - exists st, []. rewrite Nat.add_0_r.
    repeat split; try constructor.
  - cbn [seq replicate]. rewrite run_cons, sched_middle.
    destruct (step_refreshing d Hdec) as (g' & st0 & Hstep & Hset & Henv0 & Hf0).
    rewrite Hstep.
    destruct (IH (pre ++ [g']) st0 d (decodable_same_env Henv0 Hdec))
      as (st' & gs & Henv & Hf & Hlen & Hall & Hrun).
    exists st', (g' :: gs). split; [| split; [| split; [| split]]].
    + exact (same_env_trans Henv0 Henv).
    + rewrite Hf, Hf0. lia.
    + cbn. rewrite Hlen. reflexivity.
    + constructor; assumption.
    + rewrite length_app, Nat.add_1_r in Hrun.
      rewrite <- !app_assoc in Hrun. exact Hrun.
Qed.

(** Last phase: stores issue no GET. *)
Lemma sched_settled (i : nat) (sys : system) :
  exited sys = None -> Forall settled (pool sys) ->
  exited (sched Unmarshal i sys) = None
  /\ Forall settled (pool (sched Unmarshal i sys))
  /\ fetches (shared (sched Unmarshal i sys)) = fetches (shared sys).
Proof.
  intros Hex Hall. unfold sched. rewrite Hex.
  destruct (pool sys !! i) as [g |] eqn:Hg; [| repeat split; assumption].
  assert (Hs : settled g).
  { rewrite Forall_forall in Hall. apply Hall.
    apply list_elem_of_lookup. exists i. exact Hg. }
  destruct g; try contradiction; cbn;
    (split; [reflexivity | split; [| reflexivity]]);
    apply Forall_insert; try assumption; exact I.
Qed.

Lemma run_settled (schedule : list nat) :
  forall sys : system,
    exited sys = None -> Forall settled (pool sys) ->
    exited (run Unmarshal schedule sys) = None
    /\ fetches (shared (run Unmarshal schedule sys)) = fetches (shared sys).
Proof.
  induction schedule as [| i schedule IH]; intros sys Hex Hall.
  - split; [exact Hex | reflexivity].
  - rewrite run_cons.
    destruct (sched_settled i Hex Hall) as (Hex' & Hall' & Hf').
    destruct (IH _ Hex' Hall') as (Hex'' & Hf'').
    split; [exact Hex'' | congruence].
Qed.

Lemma lockstep_fetches (n : nat) (st : State) :
  time.Hour < age (data st) st ->
  decodable Unmarshal st ->
  exited (run Unmarshal (lockstep n) (arrivals n st)) = None
  /\ fetches (shared (run Unmarshal (lockstep n) (arrivals n st)))
     = (fetches st + n)%nat.
Proof.
  intros Hst Hdec. unfold lockstep, arrivals. rewrite !run_app.
  destruct (phase_test n [] Hst) as (st1 & Henv1 & Hf1 & Hrun1).
  cbn [length app] in Hrun1. rewrite Hrun1.
  destruct (phase_get n [] (data st) (decodable_same_env Henv1 Hdec))
    as (st2 & gs & Henv2 & Hf2 & Hlen & Hall & Hrun2).
  cbn [length app] in Hrun2. rewrite Hrun2.
  destruct (@run_settled (seq 0 n) (mkSystem st2 gs None) eq_refl Hall)
    as (Hex & Hf3).
  split; [exact Hex |]. rewrite Hf3. cbn [shared]. lia.
Qed.

Lemma pending_settled (g : goroutine) : settled g -> pending g = 0%nat.
Proof. destruct g; cbn; intros H; try contradiction; reflexivity. Qed.

Lemma pending_all_settled (gs : list goroutine) :
  Forall settled gs -> pending_all gs = 0%nat.
Proof.
  unfold pending_all. induction 1 as [| g gs Hg _ IH]; [reflexivity |].
  cbn [fmap list_fmap sum_list sum_list_with]. cbn [fmap] in IH.
  rewrite IH, (pending_settled Hg). reflexivity.
Qed.

Lemma decodable_set_data (d : Data) (st : State) :
  decodable Unmarshal st -> decodable Unmarshal (set_data d st).
Proof. intros Hdec i resp err Hw. exact (Hdec _ _ _ Hw). Qed.

(** While no store has happened the snapshot is the stale one, and a step
    either is a staleness test that fails or a GET. *)
Lemma sched_no_store (st0 : State) (total i : nat) (sys : system) :
  time.Hour < age (data st0) st0 ->
  decodable Unmarshal st0 ->
  (forall d, pool sys !! i <> Some (Returned d)) ->
  exited sys = None ->
  same_env st0 (shared sys) ->
  (fetches (shared sys) + pending_all (pool sys))%nat = total ->
  exited (sched Unmarshal i sys) = None
  /\ same_env st0 (shared (sched Unmarshal i sys))
  /\ (fetches (shared (sched Unmarshal i sys))
      + pending_all (pool (sched Unmarshal i sys)))%nat = total.
Proof.
  intros Hst Hdec Hno Hex Henv Htot. unfold sched. rewrite Hex.
  destruct (pool sys !! i) as [g |] eqn:Hg;
    [| split; [exact Hex | split; [exact Henv | exact Htot]]].
  destruct g as [| copy | d | d | p].
  - assert (Hst' : time.Hour < age (data (shared sys)) (shared sys)).
    { rewrite (same_env_age (data (shared sys)) Henv).
      destruct Henv as (_ & Hd & _). rewrite Hd. exact Hst. }
    rewrite (step_entered_stale Hst'). cbn [exited shared pool].
    split; [reflexivity |]. split.
    + destruct Henv as (Ha & Hd & Hc & Hw). repeat split; assumption.
    + pose proof (pending_all_insert (Refreshing (data (shared sys))) Hg) as Hp.
      cbn [pending fetches Println] in *. lia.
  - destruct (step_refreshing copy (decodable_same_env Henv Hdec))
      as (g' & st' & Hstep & Hset & Henv' & Hf).
    rewrite Hstep. cbn [exited shared pool].
    split; [reflexivity |]. split; [exact (same_env_trans Henv Henv') |].
    pose proof (pending_all_insert g' Hg) as Hp.
    rewrite (pending_settled Hset) in Hp. cbn [pending] in Hp. lia.
  - exfalso. exact (Hno d eq_refl).
  - cbn [step exited shared pool]. split; [reflexivity |].
    split; [exact Henv |].
    pose proof (pending_all_insert (Stored d) Hg) as Hp. lia.
  - cbn [step exited shared pool]. split; [reflexivity |].
    split; [exact Henv |].
    pose proof (pending_all_insert (Panicked p) Hg) as Hp. lia.
Qed.

Lemma run_store_free (st0 : State) (total : nat) (schedule : list nat) :
  time.Hour < age (data st0) st0 ->
  decodable Unmarshal st0 ->
  forall sys : system,
    store_free Unmarshal schedule sys = true ->
    exited sys = None ->
    same_env st0 (shared sys) ->
    (fetches (shared sys) + pending_all (pool sys))%nat = total ->
    exited (run Unmarshal schedule sys) = None
    /\ same_env st0 (shared (run Unmarshal schedule sys))
    /\ (fetches (shared (run Unmarshal schedule sys))
        + pending_all (pool (run Unmarshal schedule sys)))%nat = total.
Proof.
  intros Hst Hdec.
  induction schedule as [| i schedule IH]; intros sys Hfree Hex Henv Htot.
  - split; [exact Hex | split; [exact Henv | exact Htot]].
  - rewrite run_cons. cbn [store_free] in Hfree.
    assert (Hno : forall d, pool sys !! i <> Some (Returned d)).
    { intros d Hd. rewrite Hd in Hfree. discriminate. }
    assert (Hfree' : store_free Unmarshal schedule (sched Unmarshal i sys)
                     = true).
    { destruct (pool sys !! i) as [[| | d | |] |]; try exact Hfree.
      discriminate. }
    destruct (sched_no_store Hst Hdec Hno Hex Henv Htot)
      as (Hex' & Henv' & Htot').
    exact (IH _ Hfree' Hex' Henv' Htot').
Qed.

(** Once every call has made its test, a step is a GET, a store or
    nothing. *)
Lemma sched_tested (total i : nat) (sys : system) :
  exited sys = None ->
  Forall tested (pool sys) ->
  decodable Unmarshal (shared sys) ->
  (fetches (shared sys) + pending_all (pool sys))%nat = total ->
  exited (sched Unmarshal i sys) = None
  /\ Forall tested (pool (sched Unmarshal i sys))
  /\ decodable Unmarshal (shared (sched Unmarshal i sys))
  /\ (fetches (shared (sched Unmarshal i sys))
      + pending_all (pool (sched Unmarshal i sys)))%nat = total.
Proof.
  intros Hex Hall Hdec Htot. unfold sched. rewrite Hex.
  destruct (pool sys !! i) as [g |] eqn:Hg;
    [| split; [exact Hex | split; [exact Hall | split; [exact Hdec | exact Htot]]]].
  assert (Ht : tested g).
  { rewrite Forall_forall in Hall. apply Hall.
    apply list_elem_of_lookup. exists i. exact Hg. }
  destruct g as [| copy | d | d | p].
  - contradiction.
  - destruct (step_refreshing copy Hdec)
      as (g' & st' & Hstep & Hset & Henv' & Hf).
    rewrite Hstep. cbn [exited shared pool].
    split; [reflexivity |]. split; [| split].
    + apply Forall_insert; [exact Hall |]. destruct g'; try exact I.
      contradiction.
    + exact (decodable_same_env Henv' Hdec).
    + pose proof (pending_all_insert g' Hg) as Hp.
      rewrite (pending_settled Hset) in Hp. cbn [pending] in Hp. lia.
  - cbn [step exited shared pool]. split; [reflexivity |]. split; [| split].
    + apply Forall_insert; [exact Hall | exact I].
    + apply decodable_set_data. exact Hdec.
    + pose proof (pending_all_insert (Stored d) Hg) as Hp.
      cbn [pending fetches set_data] in *. lia.
  - cbn [step exited shared pool]. split; [reflexivity |]. split; [| split].
    + apply Forall_insert; [exact Hall | exact I].
    + exact Hdec.
    + pose proof (pending_all_insert (Stored d) Hg) as Hp. lia.
  - cbn [step exited shared pool]. split; [reflexivity |]. split; [| split].
    + apply Forall_insert; [exact Hall | exact I].
    + exact Hdec.
    + pose proof (pending_all_insert (Panicked p) Hg) as Hp. lia.
Qed.

Lemma run_tested (total : nat) (schedule : list nat) :
  forall sys : system,
    exited sys = None ->
    Forall tested (pool sys) ->
    decodable Unmarshal (shared sys) ->
    (fetches (shared sys) + pending_all (pool sys))%nat = total ->
    exited (run Unmarshal schedule sys) = None
    /\ (fetches (shared (run Unmarshal schedule sys))
        + pending_all (pool (run Unmarshal schedule sys)))%nat = total.
Proof.
  induction schedule as [| i schedule IH]; intros sys Hex Hall Hdec Htot.
  - split; assumption.
  - rewrite run_cons.
    destruct (sched_tested i Hex Hall Hdec Htot)
      as (Hex' & Hall' & Hdec' & Htot').
    exact (IH _ Hex' Hall' Hdec' Htot').
Qed.

(** Every call that makes its test before any store issues its own GET. *)
Lemma tests_first_fetches (n : nat) (st : State) (tests rest : list nat) :
  time.Hour < age (data st) st ->
  decodable Unmarshal st ->
  store_free Unmarshal tests (arrivals n st) = true ->
  Forall tested (pool (run Unmarshal tests (arrivals n st))) ->
  Forall settled (pool (run Unmarshal (tests ++ rest) (arrivals n st))) ->
  exited (run Unmarshal (tests ++ rest) (arrivals n st)) = None
  /\ fetches (shared (run Unmarshal (tests ++ rest) (arrivals n st)))
     = (fetches st + n)%nat.
Proof.
  intros Hst Hdec Hfree Htested Hsettled.
  assert (H0 : (fetches (shared (arrivals n st))
                + pending_all (pool (arrivals n st)))%nat
               = (fetches st + n)%nat).
  { cbn [arrivals shared pool]. rewrite pending_all_replicate. reflexivity. }
  destruct (@run_store_free st (fetches st + n)%nat tests Hst Hdec
              (arrivals n st) Hfree eq_refl (same_env_refl st) H0)
    as (Hex1 & Henv1 & Htot1).
  rewrite run_app in *.
  destruct (@run_tested (fetches st + n)%nat rest
              (run Unmarshal tests (arrivals n st)) Hex1 Htested
              (decodable_same_env Henv1 Hdec) Htot1)
    as (Hex2 & Htot2).
  split; [exact Hex2 |].
  rewrite (pending_all_settled Hsettled) in Htot2. lia.
Qed.

(** One goroutine alone does what [data = data.update()] does. *)
Lemma solo_run (st : State) :
  run Unmarshal [0; 0; 0]%nat (arrivals 1 st) =
    match update Unmarshal (data st) st with
    | (Ret d, st') => mkSystem (set_data d st') [Stored d] None
    | (Panic p, st') => mkSystem st' [Panicked p] None
    | (Exit n, st') => mkSystem st' [Refreshing (data st)] (Some n)
    end.
Proof.
  unfold arrivals, run, update. cbn [foldl replicate].
  unfold sched at 3. cbn [exited pool shared lookup list_lookup step].
  rewrite stale_test.
  destruct (time.Hour <? age (data st) st).
  - cbn [insert list_insert]. unfold sched at 2.
    cbn [exited pool shared lookup list_lookup step].
    destruct (getData (Println (LogText "Data is older than 1 hour, refreshing") st))
      as [[b | p | n] st1]; try reflexivity.
    destruct (decodeJSON Unmarshal b) as [d | p | n]; reflexivity.
  - reflexivity.
Qed.

End InterleavingFacts.

(** C9, as the code has it.  Nothing coalesces refreshes.  A single call of
    [update] on a snapshot older than one hour issues exactly one GET.  When
    [n] calls run together and every one makes its staleness test before
    any of them stores a result, every one issues its own GET: whatever
    the order of the steps otherwise, once every call is past its GET, [n]
    GETs have been issued in all (as long as no answer ends the process).
    The schedule is split at any point [tests] before the first store at
    which every call has made its test; [rest] is arbitrary. *)
Theorem refreshes_not_coalesced
    (Unmarshal : list Byte.byte -> option json)
    (st : State) (n : nat) (tests rest : list nat) :
  time.Hour < age (data st) st ->
  decodable Unmarshal st ->
  store_free Unmarshal tests (arrivals n st) = true ->
  Forall tested (pool (run Unmarshal tests (arrivals n st))) ->
  Forall settled (pool (run Unmarshal (tests ++ rest) (arrivals n st))) ->
  fetches (snd (update Unmarshal (data st) st)) = S (fetches st)
  /\ exited (run Unmarshal (tests ++ rest) (arrivals n st)) = None
  /\ fetches (shared (run Unmarshal (tests ++ rest) (arrivals n st)))
     = (fetches st + n)%nat.
Proof.
  intros Hst Hdec Hfree Htested Hsettled. split.
  - destruct (update_stale_spec Unmarshal Hst) as (st' & _ & Hf & Hu).
    rewrite Hu. exact Hf.
  - exact (@tests_first_fetches Unmarshal n st tests rest
             Hst Hdec Hfree Htested Hsettled).
Qed.

Lemma refreshes_not_coalesced_witness :
  fetches (shared (run Scenario.Unmarshal
                     ([0; 0; 1; 2; 1] ++ [0; 2; 1; 2])%nat
                     (arrivals 3 (Scenario.state 7200 Scenario.reply_ok))))
  = 3%nat.
Proof.
  refine (proj2 (proj2 (@refreshes_not_coalesced Scenario.Unmarshal
            (Scenario.state 7200 Scenario.reply_ok) 3
            [0; 0; 1; 2; 1]%nat [0; 2; 1; 2]%nat _ _ _ _ _))).
  - vm_compute. reflexivity.
  - intros i resp err Hw. cbn in Hw. inversion Hw. subst resp.
    eexists. vm_compute. reflexivity.
  - vm_compute. reflexivity.
  - vm_compute. repeat constructor.
  - vm_compute. repeat constructor.
Defined.

(** C9 as stated fails: two calls that both find the snapshot stale before
    either stores its result issue two GETs, and a hundred issue a
    hundred. *)
Lemma two_callers_two_fetches :
  fetches (shared (run Scenario.Unmarshal (lockstep 2)
                     (arrivals 2 (Scenario.state 7200 Scenario.reply_ok))))
  = 2%nat
  /\ fetches (shared (run Scenario.Unmarshal (lockstep 100)
                        (arrivals 100 (Scenario.state 7200 Scenario.reply_ok))))
     = 100%nat.
Proof. split; vm_compute; reflexivity. Qed.

(** ** binary64 identities used by the conversion *)

Lemma iter_pos_iter {A : Type} (f : A -> A) (p : positive) :
  forall x, SpecFloat.iter_pos f p x = Pos.iter f x p.
Proof.
  induction p as [p IH | p IH |]; intros x; cbn.
  - rewrite !IH. rewrite <- !Pos.iter_swap. reflexivity.
  - rewrite !IH. reflexivity.
  - reflexivity.
Qed.

Lemma digits2_pos_shift (m p : positive) :
  digits2_pos (Pos.iter xO m p) = (digits2_pos m + p)%positive.
Proof.
  induction p as [| p IH] using Pos.peano_ind.
  - cbn. lia.
  - rewrite Pos.iter_succ. cbn. rewrite IH. lia.
Qed.

Lemma shr_shift (m p : positive) :
  SpecFloat.iter_pos shr_1 p
    (Build_shr_record (Zpos (Pos.iter xO m p)) false false)
  = Build_shr_record (Zpos m) false false.
Proof.
  rewrite iter_pos_iter.
  induction p as [| p IH] using Pos.peano_ind.
  - reflexivity.
  - rewrite Pos.iter_succ_r, Pos.iter_succ. cbn. exact IH.
Qed.

(** Rounding a canonical mantissa changes nothing. *)
Lemma round_aux_canonical (s : bool) (m : positive) (e : Z) :
  bounded F64.prec F64.emax m e = true ->
  binary_round_aux F64.prec F64.emax s (Zpos m) e loc_Exact
  = S754_finite s m e.
Proof.
  unfold bounded, canonical_mantissa. intros Hb.
  apply andb_true_iff in Hb as [Hc He].
  apply Z.eqb_eq in Hc.
  unfold binary_round_aux, shr_fexp. cbn [Zdigits2 shr_record_of_loc].
  rewrite Hc, Z.sub_diag.
  cbn [shr shr_m loc_of_shr_record round_nearest_even Zdigits2].
  rewrite Hc, Z.sub_diag. cbn [shr shr_m]. rewrite He. reflexivity.
Qed.

(** Rounding [m * 2^p] at exponent [e - p] gives back [m] at [e]. *)
Lemma round_aux_shift (s : bool) (m p : positive) (e : Z) :
  bounded F64.prec F64.emax m e = true ->
  binary_round_aux F64.prec F64.emax s (Zpos (Pos.iter xO m p))
    (e - Zpos p) loc_Exact
  = S754_finite s m e.
Proof.
  intros Hb. unfold bounded, canonical_mantissa in Hb.
  apply andb_true_iff in Hb as [Hc He].
  apply Z.eqb_eq in Hc.
  unfold binary_round_aux at 1. unfold shr_fexp at 1.
  cbn [Zdigits2 shr_record_of_loc].
  rewrite digits2_pos_shift.
  replace (Z.pos (digits2_pos m + p) + (e - Z.pos p))
    with (Z.pos (digits2_pos m) + e) by lia.
  rewrite Hc.
  replace (e - (e - Z.pos p)) with (Z.pos p) by lia.
  cbn [shr]. rewrite shr_shift.
  replace (e - Z.pos p + Z.pos p) with e by lia.
  cbn [shr_m loc_of_shr_record round_nearest_even].
  unfold shr_fexp. cbn [Zdigits2 shr_record_of_loc].
  rewrite Hc, Z.sub_diag. cbn [shr shr_m]. rewrite He. reflexivity.
Qed.

Lemma one_eq : F64.one = S754_finite false 4503599627370496 (-52).
Proof. vm_compute. reflexivity. Qed.

Lemma mul_one (x : float64) :
  F64.valid x = true -> F64.mul x F64.one = x.
Proof.
  rewrite one_eq. destruct x as [s | s | | s m e]; intros Hv.
  - cbn. destruct s; reflexivity.
  - cbn. destruct s; reflexivity.
  - reflexivity.
  - unfold F64.mul, SFmul. rewrite xorb_false_r.
    change (e + -52) with (e - 52).
    rewrite Pos.mul_comm.
    change (4503599627370496 * m)%positive with (Pos.iter xO m 52).
    apply round_aux_shift. exact Hv.
Qed.

Lemma div_eucl_exact (a b : Z) :
  0 < b -> Z.div_eucl (a * b) b = (a, 0).
Proof.
  intros Hb.
  destruct (Z.div_eucl (a * b) b) as [q r] eqn:Hqr.
  assert (Hq : q = a * b / b) by (unfold Z.div; rewrite Hqr; reflexivity).
  assert (Hr : r = (a * b) mod b)
    by (unfold Z.modulo; rewrite Hqr; reflexivity).
  rewrite Z.div_mul in Hq by lia. rewrite Z.mod_mul in Hr by lia.
  subst. reflexivity.
Qed.

(** Dividing by 1.0: the quotient is the mantissa itself, computed one
    binade lower unless the exponent is already minimal. *)
Lemma div_core_one (m : positive) (e : Z) :
  bounded F64.prec F64.emax m e = true ->
  SFdiv_core_binary F64.prec F64.emax (Zpos m) e 4503599627370496 (-52)
    = (Zpos m, e, loc_Exact)
  \/ SFdiv_core_binary F64.prec F64.emax (Zpos m) e 4503599627370496 (-52)
    = (Zpos (Pos.iter xO m 1), e - 1, loc_Exact).
Proof.
  intros Hb. unfold bounded, canonical_mantissa in Hb.
  apply andb_true_iff in Hb as [Hc He].
  apply Z.eqb_eq in Hc.
  unfold SFdiv_core_binary. cbn [Zdigits2].
  change (Z.pos (digits2_pos 4503599627370496)) with 53.
  unfold fexp, emin, F64.prec, F64.emax in *.
  set (d := Z.pos (digits2_pos m)) in *.
  assert (Hd : 0 < d) by (unfold d; lia).
  destruct (Z.eq_dec e (-1074)) as [Hmin | Hmin].
  - left.
    replace (Z.min (Z.max (d + e - (53 + -52) - 53) (3 - 1024 - 53)) (e - -52))
      with e by lia.
    replace (e - -52 - e) with 52 by lia.
    rewrite Z.shiftl_mul_pow2 by lia.
    change (2 ^ 52) with 4503599627370496.
    change IntDef.Z.div_eucl with Z.div_eucl.
    rewrite div_eucl_exact by lia. reflexivity.
  - right.
    replace (Z.min (Z.max (d + e - (53 + -52) - 53) (3 - 1024 - 53)) (e - -52))
      with (e - 1) by lia.
    replace (e - -52 - (e - 1)) with 53 by lia.
    rewrite Z.shiftl_mul_pow2 by lia.
    change (2 ^ 53) with 9007199254740992.
    replace (Z.pos m * 9007199254740992)
      with (Z.pos (Pos.iter xO m 1) * 4503599627370496)
      by (cbn [Pos.iter]; lia).
    change IntDef.Z.div_eucl with Z.div_eucl.
    rewrite div_eucl_exact by lia. reflexivity.
Qed.

Lemma div_one (x : float64) :
  F64.valid x = true -> F64.div x F64.one = x.
Proof.
  rewrite one_eq. destruct x as [s | s | | s m e]; intros Hv.
  - cbn. destruct s; reflexivity.
  - cbn. destruct s; reflexivity.
  - reflexivity.
  - unfold F64.div, SFdiv. rewrite xorb_false_r.
    destruct (@div_core_one m e Hv) as [-> | ->].
    + apply round_aux_canonical. exact Hv.
    + apply round_aux_shift. exact Hv.
Qed.

(** Round-to-nearest-even does not look at the sign. *)
Lemma round_aux_opp (s : bool) (m e : Z) (l : location) :
  binary_round_aux F64.prec F64.emax (negb s) m e l
  = SFopp (binary_round_aux F64.prec F64.emax s m e l).
Proof.
  unfold binary_round_aux.
  destruct (shr_fexp F64.prec F64.emax m e l) as [mrs e'].
  destruct (shr_fexp F64.prec F64.emax
              (round_nearest_even (shr_m mrs) (loc_of_shr_record mrs))
              e' loc_Exact) as [mrs' e''].
  destruct (shr_m mrs') as [| q | q]; try reflexivity.
  destruct (e'' <=? F64.emax - F64.prec); reflexivity.
Qed.

Lemma div_opp (x y : float64) :
  F64.div (F64.opp x) y = F64.opp (F64.div x y).
Proof.
  unfold F64.div, F64.opp.
  destruct x as [s | s | | s m e], y as [s' | s' | | s' m' e'];
    cbn [SFopp SFdiv]; rewrite ?negb_xorb_l; try reflexivity.
  destruct (SFdiv_core_binary F64.prec F64.emax (Z.pos m) e (Z.pos m') e')
    as [[mz ez] lz].
  rewrite <- negb_xorb_l. apply round_aux_opp.
Qed.

Lemma mul_opp (x y : float64) :
  F64.mul (F64.opp x) y = F64.opp (F64.mul x y).
Proof.
  unfold F64.mul, F64.opp.
  destruct x as [s | s | | s m e], y as [s' | s' | | s' m' e'];
    cbn [SFopp SFmul]; rewrite ?negb_xorb_l; try reflexivity.
  rewrite <- negb_xorb_l. apply round_aux_opp.
Qed.

(** ** Algebraic properties of the conversion *)

(** C10, as the code has it.  Homogeneity is a property of exact
    arithmetic: read over the rationals,
    [convert(s, c1, c2, k * x) = k * convert(s, c1, c2, x)] for codes in the
    rates with a nonzero rate of [c1].  In float64 each side is rounded on
    its own and they can differ in the last bits; what holds exactly is the
    case of the sign, [convert(s, c1, c2, -x) = -convert(s, c1, c2, x)]. *)
Theorem convert_homogeneous :
  (forall (s : Data_ Q) (c1 c2 : string) (r1 r2 k x : Q),
      Rates s !! c1 = Some r1 ->
      Rates s !! c2 = Some r2 ->
      ~ Qeq r1 0 ->
      Qeq (convert s c1 c2 (k * x)%Q) (k * convert s c1 c2 x)%Q)
  /\
  (forall (s : Data) (c1 c2 : string) (x : float64),
      convert s c1 c2 (F64.opp x) = F64.opp (convert s c1 c2 x)).
Proof.
  split.
  - intros s c1 c2 r1 r2 k x H1 H2 Hnz.
    rewrite (@convert_present Q Q_arith s c1 c2 (k * x)%Q r1 r2 H1 H2).
    rewrite (@convert_present Q Q_arith s c1 c2 x r1 r2 H1 H2).
    cbn [amul adiv Q_arith]. field. exact Hnz.
  - intros s c1 c2 x. unfold convert. cbn [amul adiv float64_arith].
    rewrite div_opp. apply mul_opp.
Qed.

Lemma convert_homogeneous_witness :
  Qeq (convert Scenario.exact_snapshot "USD" "GBP" ((3 # 1) * (5 # 1))%Q)
      ((3 # 1) * convert Scenario.exact_snapshot "USD" "GBP" (5 # 1))%Q.
Proof.
  apply (proj1 convert_homogeneous Scenario.exact_snapshot "USD" "GBP"
           (12 # 10)%Q (9 # 10)%Q).
  - reflexivity.
  - reflexivity.
  - discriminate.
Defined.

(** C10 as stated fails in float64: with the rates 1.2 and 0.9, k = 3 and
    x = 5, the conversion of k * x is 11.25 and k times the conversion of x
    is the next float64 above 11.25. *)
Lemma convert_not_homogeneous :
  convert Scenario.snapshot "USD" "GBP" (F64.mul (F64.of_Z 3) (F64.of_Z 5))
    = F64.dec 1125 100
  /\ F64.mul (F64.of_Z 3) (convert Scenario.snapshot "USD" "GBP" (F64.of_Z 5))
    = S754_finite false 6333186975989761 (-49)
  /\ F64.eqb
       (convert Scenario.snapshot "USD" "GBP"
          (F64.mul (F64.of_Z 3) (F64.of_Z 5)))
       (F64.mul (F64.of_Z 3)
          (convert Scenario.snapshot "USD" "GBP" (F64.of_Z 5)))
     = false.
Proof. repeat split; vm_compute; reflexivity. Qed.

(** * Further properties of the program *)

(** ** What the decoder accepts and what it returns *)

Lemma index_is (m : gmap string json) (k : string) (v : json) :
  index m k = v -> v <> JNull -> m !! k = Some v.
Proof.
  unfold index. destruct (m !! k) as [w |]; cbn; congruence.
Qed.

Lemma decode_rates_numbers (l : list (string * json))
    (acc rates : gmap string float64) :
  decode_rates l acc = Ret rates ->
  Forall (fun e => exists x, snd e = JNumber x) l.
Proof.
  revert acc. induction l as [| [k v] l IH]; intros acc; cbn.
  - constructor.
  - destruct v; cbn; try discriminate.
    intros Hd. constructor; [cbn; eauto | exact (IH _ Hd)].
Qed.

Lemma decode_rates_lookup (rm : gmap string json)
    (rates : gmap string float64) :
  decode_rates (map_to_list rm) ∅ = Ret rates ->
  (forall k x, rates !! k = Some x <-> rm !! k = Some (JNumber x))
  /\ dom rates = dom rm.
Proof.
  intros Hd.
  assert (Hnum : forall k v, rm !! k = Some v -> exists x, v = JNumber x).
  { intros k v Hk. pose proof (decode_rates_numbers Hd) as Hall.
    rewrite Forall_forall in Hall.
    apply (elem_of_map_to_list rm) in Hk.
    exact (Hall (k, v) Hk). }
  destruct (decode_rates_map Hnum) as (rates' & Hd' & Hlook).
  rewrite Hd in Hd'. inversion Hd'. subst rates'.
  split; [exact Hlook |].
  apply set_eq. intros k. rewrite !elem_of_dom. split.
  - intros [x Hx]. apply Hlook in Hx. eauto.
  - intros [v Hv]. destruct (Hnum _ _ Hv) as [x ->].
    exists x. apply Hlook. exact Hv.
Qed.

(** X1.  The three ways [decodeJSON] can end are decided by the document
    alone: it ends the process exactly when the bytes are not JSON, it
    returns a snapshot exactly when the document is an object with the five
    keys well typed and numeric rates, and it panics for every other
    document. *)
Theorem decodeJSON_outcomes
    (Unmarshal : list Byte.byte -> option json) (b : list Byte.byte) :
  ((exists n, decodeJSON Unmarshal b = Exit n) <-> Unmarshal b = None)
  /\ ((exists d, decodeJSON Unmarshal b = Ret d) <->
      (exists i, Unmarshal b = Some i /\ well_formed i = true))
  /\ ((exists p, decodeJSON Unmarshal b = Panic p) <->
      (exists i, Unmarshal b = Some i /\ well_formed i = false)).
Proof.
  destruct (Unmarshal b) as [i |] eqn:Hb.
  - destruct (well_formed i) eqn:Hwf.
    + destruct (decodeJSON_well_formed Hb Hwf) as [d Hd].
      split; [| split].
      * split; [intros [n Hn]; congruence | discriminate].
      * split; [intros _; eauto | intros _; eauto].
      * split; [intros [p Hp]; congruence |].
        intros (j & Hj & Hjw). congruence.
    + destruct (decodeJSON_ill_formed Hb Hwf) as (have & want & Hp).
      split; [| split].
      * split; [intros [n Hn]; congruence | discriminate].
      * split; [intros [d Hd]; congruence |].
        intros (j & Hj & Hjw). congruence.
      * split; [intros _; eauto | intros _; eauto].
  - rewrite (decodeJSON_not_json Hb). split; [| split].
    + split; [reflexivity | eauto].
    + split; [intros [d Hd]; discriminate |].
      intros (j & Hj & _). discriminate.
    + split; [intros [p Hp]; discriminate |].
      intros (j & Hj & _). discriminate.
Qed.

(** X2.  A snapshot returned by [decodeJSON] holds what the document holds
    and nothing else: the flag, base and date are those of the document, the
    timestamp is the document's number cut to an int64, and the rates have
    exactly the keys of the document's "rates" object, each with its
    number. *)
Theorem decodeJSON_copies_document
    (Unmarshal : list Byte.byte -> option json)
    (b : list Byte.byte) (d : Data) :
  decodeJSON Unmarshal b = Ret d ->
  exists (m rm : gmap string json) (ts : float64),
    Unmarshal b = Some (JObject m)
    /\ m !! "success" = Some (JBool (Success d))
    /\ m !! "timestamp" = Some (JNumber ts)
    /\ Timestamp d = int64_of_float64 ts
    /\ m !! "base" = Some (JString (Base d))
    /\ m !! "date" = Some (JString (Date d))
    /\ m !! "rates" = Some (JObject rm)
    /\ (forall k x, Rates d !! k = Some x <-> rm !! k = Some (JNumber x))
    /\ dom (Rates d) = dom rm.
Proof.
  unfold decodeJSON. destruct (Unmarshal b) as [i |]; [| discriminate].
  destruct i as [| | | | | m]; cbn; try discriminate.
  destruct (index m "success") as [| fl | | | |] eqn:Hs; cbn; try discriminate.
  destruct (index m "timestamp") as [| | ts | | |] eqn:Ht; cbn;
    try discriminate.
  destruct (index m "base") as [| | | bs | |] eqn:Hbase; cbn; try discriminate.
  destruct (index m "date") as [| | | dt | |] eqn:Hdate; cbn; try discriminate.
  destruct (index m "rates") as [| | | | | rm] eqn:Hr; cbn; try discriminate.
  destruct (decode_rates (map_to_list rm) ∅) as [rates | |] eqn:Hd; cbn;
    try discriminate.
  intros Heq. inversion Heq. subst d. cbn.
  destruct (decode_rates_lookup Hd) as [Hlook Hdom].
  exists m, rm, ts.
  repeat split; try (apply index_is; [assumption | discriminate]);
    try assumption; apply Hlook.
Qed.

Lemma decodeJSON_copies_document_witness :
  exists m : gmap string json,
    Scenario.Unmarshal (Scenario.document_text "true") = Some (JObject m)
    /\ m !! "base" = Some (JString "EUR").
Proof.
  destruct (@decodeJSON_copies_document Scenario.Unmarshal
              (Scenario.document_text "true") Scenario.refreshed)
    as (m & rm & ts & Hu & _ & _ & _ & Hbase & _).
  - vm_compute. reflexivity.
  - exists m. split; [exact Hu | exact Hbase].
Defined.

(** X5.  Keys other than the five that are read do not matter: adding any
    other key to the document leaves the result of [decodeJSON] as it is. *)
Theorem decodeJSON_ignores_other_keys
    (Unmarshal : list Byte.byte -> option json)
    (b b' : list Byte.byte) (m : gmap string json) (k : string) (v : json) :
  Unmarshal b = Some (JObject m) ->
  Unmarshal b' = Some (JObject (<[k := v]> m)) ->
  k ∉ fst <$> required ->
  decodeJSON Unmarshal b' = decodeJSON Unmarshal b.
Proof.
  intros Hb Hb' Hk. unfold decodeJSON. rewrite Hb, Hb'. cbn.
  assert (Hi : forall key, key ∈ fst <$> required ->
                 index (<[k := v]> m) key = index m key).
  { intros key Hkey. unfold index. rewrite lookup_insert_ne; [reflexivity |].
    intros ->. exact (Hk Hkey). }
  rewrite !Hi by (cbn; set_solver). reflexivity.
Qed.

Lemma decodeJSON_ignores_other_keys_witness :
  decodeJSON Scenario.Unmarshal' Scenario.document_with_error_text
  = decodeJSON Scenario.Unmarshal' (Scenario.document_text "true").
Proof.
  apply (@decodeJSON_ignores_other_keys Scenario.Unmarshal'
           (Scenario.document_text "true")
           Scenario.document_with_error_text
           (<["success" := JBool true]>
            (<["timestamp" := JNumber (F64.of_Z (Scenario.T0 + 7200))]>
            (<["base" := JString "EUR"]>
            (<["date" := JString "2020-09-13"]>
            (<["rates" := Scenario.json_rates]> ∅)))))
           "error" (JObject ∅)).
  - vm_compute. reflexivity.
  - vm_compute. reflexivity.
  - cbn. intros Hin. repeat (apply elem_of_cons in Hin as [Hin | Hin];
      [discriminate |]). inversion Hin.
Defined.

(** ** The timestamp *)

Lemma Zpos_iter_xO (p k : positive) :
  Zpos (Pos.iter xO p k) = Zpos p * 2 ^ Zpos k.
Proof.
  induction k as [| k IH] using Pos.peano_ind.
  - cbn. lia.
  - rewrite Pos.iter_succ, Pos2Z.inj_xO, IH, Pos2Z.inj_succ, Z.pow_succ_r by lia.
    lia.
Qed.

Lemma digits2_pos_bound (p : positive) :
  Zpos p < 2 ^ Zpos (digits2_pos p).
Proof.
  induction p as [p IH | p IH |]; cbn [digits2_pos].
  - rewrite Pos2Z.inj_succ, Z.pow_succ_r by lia. lia.
  - rewrite Pos2Z.inj_succ, Z.pow_succ_r by lia. lia.
  - reflexivity.
Qed.

Lemma digits2_pos_le (p : positive) (n : Z) :
  0 <= n -> Zpos p < 2 ^ n -> Zpos (digits2_pos p) <= n.
Proof.
  revert n. induction p as [p IH | p IH |]; intros n Hn Hp; cbn [digits2_pos].
  - assert (0 < n).
    { destruct (Z.eq_dec n 0) as [-> |]; [cbn in Hp; lia | lia]. }
    replace n with (Z.succ (n - 1)) in Hp by lia.
    rewrite Z.pow_succ_r in Hp by lia.
    specialize (IH (n - 1)). lia.
  - assert (0 < n).
    { destruct (Z.eq_dec n 0) as [-> |]; [cbn in Hp; lia | lia]. }
    replace n with (Z.succ (n - 1)) in Hp by lia.
    rewrite Z.pow_succ_r in Hp by lia.
    specialize (IH (n - 1)). lia.
  - destruct (Z.eq_dec n 0) as [-> |]; [cbn in Hp; lia | lia].
Qed.

(** [float64(n)] for [0 < n < 2^53]: the digits of [n], shifted to 53
    bits. *)
Lemma binary_round_small (s : bool) (p : positive) :
  Zpos p < 2 ^ 53 ->
  binary_round F64.prec F64.emax s p 0 = S754_finite s p 0
  \/ exists k : positive,
       Zpos k <= 52
       /\ binary_round F64.prec F64.emax s p 0
          = S754_finite s (Pos.iter xO p k) (- Zpos k).
Proof.
  intros Hp.
  pose proof (@digits2_pos_le p 53 ltac:(lia) Hp) as Hd.
  unfold binary_round, shl_align, fexp, emin, F64.prec, F64.emax.
  rewrite Z.add_0_r.
  set (d := Zpos (digits2_pos p)) in *.
  assert (Hd0 : 0 < d) by (unfold d; lia).
  replace (Z.max (d - 53) (3 - 1024 - 53)) with (d - 53) by lia.
  rewrite Z.sub_0_r.
  destruct (d - 53) as [| q | k] eqn:Hk; try lia.
  - left. apply round_aux_canonical.
    unfold bounded, canonical_mantissa, fexp, emin, F64.prec, F64.emax.
    fold d. rewrite Z.add_0_r.
    apply andb_true_iff. split; [apply Z.eqb_eq; lia | reflexivity].
  - right. exists k. split; [lia |].
    apply round_aux_canonical.
    unfold bounded, canonical_mantissa, fexp, emin, F64.prec, F64.emax.
    rewrite digits2_pos_shift. fold d.
    apply andb_true_iff. split; [apply Z.eqb_eq; lia | apply Z.leb_le; lia].
Qed.

Lemma int64_of_Z (n : Z) :
  Z.abs n < 2 ^ 53 -> int64_of_float64 (F64.of_Z n) = n.
Proof.
  intros Hn. unfold F64.of_Z, binary_normalize.
  assert (Hr : forall z, Z.abs z < 2 ^ 53 -> Int64.in_range z = true).
  { intros z Hz. unfold Int64.in_range, Int64.min, Int64.max.
    apply andb_true_iff. split; apply Z.leb_le.
    - assert (- 2 ^ 63 < - 2 ^ 53) by (vm_compute; reflexivity). lia.
    - assert (2 ^ 53 < 2 ^ 63 - 1) by (vm_compute; reflexivity). lia. }
  destruct n as [| p | p]; [reflexivity | |].
  - destruct (@binary_round_small false p) as [-> | (k & Hk & ->)]; [lia | |].
    + cbn. rewrite Z.shiftl_0_r. rewrite Hr by lia. reflexivity.
    + cbn [int64_of_float64]. destruct (Z.leb_spec 0 (- Zpos k)); [lia |].
      rewrite Z.opp_involutive, Z.shiftr_div_pow2, Zpos_iter_xO by lia.
      rewrite Z.div_mul by lia. rewrite Hr by lia. reflexivity.
  - destruct (@binary_round_small true p) as [-> | (k & Hk & ->)]; [lia | |].
    + cbn. rewrite Z.shiftl_0_r. rewrite Hr by lia. reflexivity.
    + cbn [int64_of_float64]. destruct (Z.leb_spec 0 (- Zpos k)); [lia |].
      rewrite Z.opp_involutive, Z.shiftr_div_pow2, Zpos_iter_xO by lia.
      rewrite Z.div_mul by lia. rewrite Hr by lia. reflexivity.
Qed.

Lemma int64_of_float64_in_range (x : float64) :
  Int64.in_range (int64_of_float64 x) = true.
Proof.
  destruct x as [s | s | | s m e]; try reflexivity.
  cbn [int64_of_float64].
  match goal with
  | |- Int64.in_range (if Int64.in_range ?z then _ else _) = true =>
      destruct (Int64.in_range z) eqn:Hr
  end.
  - exact Hr.
  - reflexivity.
Qed.

Lemma decodeJSON_timestamp
    (Unmarshal : list Byte.byte -> option json)
    (b : list Byte.byte) (d : Data) :
  decodeJSON Unmarshal b = Ret d ->
  exists (m : gmap string json) (ts : float64),
    Unmarshal b = Some (JObject m)
    /\ m !! "timestamp" = Some (JNumber ts)
    /\ Timestamp d = int64_of_float64 ts.
Proof.
  unfold decodeJSON. destruct (Unmarshal b) as [i |]; [| discriminate].
  destruct i as [| | | | | m]; cbn; try discriminate.
  destruct (index m "success"); cbn; try discriminate.
  destruct (index m "timestamp") as [| | ts | | |] eqn:Ht; cbn;
    try discriminate.
  destruct (index m "base"); cbn; try discriminate.
  destruct (index m "date"); cbn; try discriminate.
  destruct (index m "rates"); cbn; try discriminate.
  destruct (decode_rates (map_to_list m0) ∅); cbn; try discriminate.
  intros Heq. inversion Heq. subst d. cbn.
  exists m, ts. repeat split.
  apply index_is; [exact Ht | discriminate].
Qed.

(** X3.  The timestamp of a decoded snapshot always fits an int64, and a
    document whose timestamp is a whole number below 2^53 in magnitude (any
    Unix time in seconds) is decoded to exactly that number. *)
Theorem decodeJSON_keeps_timestamp
    (Unmarshal : list Byte.byte -> option json)
    (b : list Byte.byte) (d : Data) :
  decodeJSON Unmarshal b = Ret d ->
  Int64.in_range (Timestamp d) = true
  /\ forall (m : gmap string json) (n : Z),
       Unmarshal b = Some (JObject m) ->
       m !! "timestamp" = Some (JNumber (F64.of_Z n)) ->
       Z.abs n < 2 ^ 53 ->
       Timestamp d = n.
Proof.
  intros Hd. destruct (decodeJSON_timestamp Hd) as (m & ts & Hb & Ht & Heq).
  split.
  - rewrite Heq. apply int64_of_float64_in_range.
  - intros m' n Hb' Ht' Hn. rewrite Hb in Hb'. inversion Hb'. subst m'.
    rewrite Ht in Ht'. inversion Ht'. subst ts.
    rewrite Heq. apply int64_of_Z. exact Hn.
Qed.

Lemma decodeJSON_keeps_timestamp_witness :
  Timestamp Scenario.refreshed = Scenario.T0 + 7200.
Proof.
  refine (proj2 (@decodeJSON_keeps_timestamp Scenario.Unmarshal
                   (Scenario.document_text "true") Scenario.refreshed _)
            (<["success" := JBool true]>
             (<["timestamp" := JNumber (F64.of_Z (Scenario.T0 + 7200))]>
             (<["base" := JString "EUR"]>
             (<["date" := JString "2020-09-13"]>
             (<["rates" := Scenario.json_rates]> ∅)))))
            (Scenario.T0 + 7200) _ _ _);
    vm_compute; reflexivity.
Defined.

(** ** One call of the handler *)

Lemma log_extends_refl (st : State) : log_extends st st.
Proof. exists []. rewrite app_nil_r. reflexivity. Qed.

Lemma log_extends_trans (st1 st2 st3 : State) :
  log_extends st1 st2 -> log_extends st2 st3 -> log_extends st1 st3.
Proof.
  intros [l1 H1] [l2 H2]. exists (l1 ++ l2).
  rewrite H2, H1, app_assoc. reflexivity.
Qed.

Lemma log_extends_Println (l : log_line) (st : State) :
  log_extends st (Println l st).
Proof. exists [l]. reflexivity. Qed.

Lemma getData_log (st : State) : log_extends st (snd (getData st)).
Proof.
  unfold getData, http_Get, log_extends.
  destruct (wire st (latest_url st) (fetches st)) as [[resp |] err]; cbn.
  - destruct err, (ReadErr resp); cbn.
    + exists [LogError; LogError]. rewrite <- app_assoc. reflexivity.
    + exists [LogError]. reflexivity.
    + exists [LogError]. reflexivity.
    + exists []. rewrite app_nil_r. reflexivity.
  - destruct err; cbn.
    + exists [LogError]. reflexivity.
    + exists []. rewrite app_nil_r. reflexivity.
Qed.

Lemma set_data_same (st : State) : set_data (data st) st = st.
Proof. destruct st. reflexivity. Qed.

Section CallFacts.

Variable Unmarshal : list Byte.byte -> option json.
Variable ParseFloat : string -> float64 * bool.
Variable Sprint_Time : Z -> string.

Lemma update_log (d : Data) (st : State) :
  log_extends st (snd (update Unmarshal d st)).
Proof.
  unfold update.
  destruct (Qgt_bool (time.Hours (Since (time.Unix (Timestamp d) 0) st)) 1);
    [| apply log_extends_refl].
  set (st0 := Println (LogText "Data is older than 1 hour, refreshing") st).
  apply log_extends_trans with st0; [apply log_extends_Println |].
  pose proof (getData_log st0) as Hg.
  destruct (getData st0) as [[b | p | n] st1]; cbn in *; try exact Hg.
  apply log_extends_trans with st1; [exact Hg | apply log_extends_Println].
Qed.

(** The state a call leaves behind. *)
Lemma convertHandler_state (r : Request) (st : State) :
  snd (convertHandler Unmarshal ParseFloat Sprint_Time r st) =
    match update Unmarshal (data st) st with
    | (Ret d, st') => set_data d st'
    | (_, st') => st'
    end.
Proof.
  unfold convertHandler.
  destruct (update Unmarshal (data st) st) as [[d | p | n] st']; reflexivity.
Qed.

End CallFacts.

(** X4.  [getData] issues exactly one GET however it ends, and touches
    neither [apiKey] nor [data]; it never ends the process; it panics
    exactly when [http.Get] gave no response; and when there is a response
    it returns the bytes that were read, also when [http.Get] or
    [ioutil.ReadAll] reported an error (the errors are only logged). *)
Theorem getData_one_request (st : State) :
  fetches (snd (getData st)) = S (fetches st)
  /\ same_env st (snd (getData st))
  /\ log_extends st (snd (getData st))
  /\ (forall n, fst (getData st) <> Exit n)
  /\ (fst (getData st) = Panic NilDereference <->
      fst (wire st (latest_url st) (fetches st)) = None)
  /\ (forall resp err,
        wire st (latest_url st) (fetches st) = (Some resp, err) ->
        fst (getData st) = Ret (Body resp)).
Proof.
  destruct (getData_spec st) as (st' & Henv & Hf & Hg).
  pose proof (getData_log st) as Hlog.
  rewrite Hg in *. cbn [fst snd] in *.
  repeat split; try apply Henv; try assumption.
  - intros n. destruct (fst (wire st (latest_url st) (fetches st)));
      discriminate.
  - destruct (fst (wire st (latest_url st) (fetches st)));
      [discriminate | reflexivity].
  - intros Hn. rewrite Hn. reflexivity.
  - intros resp err Hw. rewrite Hw. reflexivity.
Qed.

Lemma getData_one_request_witness :
  fst (getData (Scenario.state 7200 Scenario.reply_ok))
  = Ret (Scenario.document_text "true").
Proof.
  apply (proj2 (proj2 (proj2 (proj2 (proj2
           (getData_one_request (Scenario.state 7200 Scenario.reply_ok))))))
           (mkResponse (Scenario.document_text "true") false) false).
  reflexivity.
Defined.

(** X6.  A call served from a snapshot whose [age], the time since its
    [Timestamp] as [time.Since(time.Unix(Timestamp, 0))] computes it, is at
    most one hour leaves the whole process state as it was (no GET, no log
    line, the same [data]), and its response is computed from that snapshot
    and the request alone. *)
Theorem convertHandler_cached
    (Unmarshal : list Byte.byte -> option json)
    (ParseFloat : string -> float64 * bool)
    (Sprint_Time : Z -> string)
    (r : Request) (st : State) :
  age (data st) st <= time.Hour ->
  convertHandler Unmarshal ParseFloat Sprint_Time r st
  = (serve ParseFloat Sprint_Time (data st) r, st).
Proof.
  intros Hage. unfold convertHandler.
  rewrite (update_when_fresh Unmarshal Hage). cbn.
  rewrite set_data_same. reflexivity.
Qed.

Lemma convertHandler_cached_witness :
  snd (convertHandler Scenario.Unmarshal Scenario.ParseFloat
         Scenario.Sprint_Time (Scenario.request "USD" "GBP" "120")
         (Scenario.state 1800 Scenario.reply_ok))
  = Scenario.state 1800 Scenario.reply_ok.
Proof.
  refine (f_equal snd
    (@convertHandler_cached Scenario.Unmarshal Scenario.ParseFloat
       Scenario.Sprint_Time (Scenario.request "USD" "GBP" "120")
       (Scenario.state 1800 Scenario.reply_ok) _)).
  vm_compute. discriminate.
Defined.

(** X7.  Whatever the request and however the call ends, one call of
    [convertHandler] leaves [apiKey], the clock and the upstream as they
    are, only adds to the log, issues one GET when the [age] of the
    snapshot in [data], as [time.Since(time.Unix(Timestamp, 0))] computes
    it, is above one hour and none otherwise, and leaves in [data] either
    the snapshot that was there or one decoded from the body of that GET. *)
Theorem convertHandler_accounting
    (Unmarshal : list Byte.byte -> option json)
    (ParseFloat : string -> float64 * bool)
    (Sprint_Time : Z -> string)
    (r : Request) (st : State) :
  let st' := snd (convertHandler Unmarshal ParseFloat Sprint_Time r st) in
  apiKey st' = apiKey st
  /\ clock st' = clock st
  /\ wire st' = wire st
  /\ log_extends st st'
  /\ fetches st'
     = (fetches st + (if (time.Hour <? age (data st) st)%Z then 1 else 0))%nat
  /\ (data st' = data st
      \/ exists resp err,
           wire st (latest_url st) (fetches st) = (Some resp, err)
           /\ decodeJSON Unmarshal (Body resp) = Ret (data st')).
Proof.
  cbv zeta. rewrite convertHandler_state.
  pose proof (update_log Unmarshal (data st) st) as Hlog.
  destruct (Z.ltb_spec time.Hour (age (data st) st)) as [Hst | Hfr].
  - destruct (@update_stale_spec Unmarshal (data st) st Hst)
      as (st1 & Henv & Hf & Hu).
    rewrite Hu in *. cbn [snd] in Hlog.
    destruct Henv as (Ha & Hd & Hc & Hw).
    assert (Hcount : fetches st1 = (fetches st + 1)%nat) by lia.
    destruct (wire st (latest_url st) (fetches st)) as [[resp |] err] eqn:Hwire;
      cbn [fst] in *.
    + destruct (decodeJSON Unmarshal (Body resp)) as [d | p | n] eqn:Hdec.
      * cbn [apiKey clock wire fetches data set_data].
        split; [exact Ha |]. split; [exact Hc |]. split; [exact Hw |].
        split; [destruct Hlog as [l Hl]; exists l; exact Hl |].
        split; [exact Hcount |].
        right. exists resp, err. split; [reflexivity | exact Hdec].
      * split; [exact Ha |]. split; [exact Hc |]. split; [exact Hw |].
        split; [exact Hlog |]. split; [exact Hcount |]. left. exact Hd.
      * split; [exact Ha |]. split; [exact Hc |]. split; [exact Hw |].
        split; [exact Hlog |]. split; [exact Hcount |]. left. exact Hd.
    + split; [exact Ha |]. split; [exact Hc |]. split; [exact Hw |].
      split; [exact Hlog |]. split; [exact Hcount |]. left. exact Hd.
  - rewrite (@update_when_fresh Unmarshal (data st) st Hfr) in *.
    rewrite set_data_same.
    repeat split; [apply log_extends_refl | lia | left; reflexivity].
Qed.

(** X8.  The age of a refreshed snapshot is measured from the timestamp in
    the upstream document, not from the moment of the GET.  When the
    document fetched by one call carries a timestamp that is itself more
    than one hour old, the call stores that snapshot and the next call, even
    at the same instant, issues another GET. *)
Theorem stale_document_fetched_again
    (Unmarshal : list Byte.byte -> option json)
    (ParseFloat : string -> float64 * bool)
    (Sprint_Time : Z -> string)
    (r r' : Request) (st : State) (resp : Response) (err : bool) (d' : Data) :
  time.Hour < age (data st) st ->
  wire st (latest_url st) (fetches st) = (Some resp, err) ->
  decodeJSON Unmarshal (Body resp) = Ret d' ->
  time.Hour < age d' st ->
  let st1 := snd (convertHandler Unmarshal ParseFloat Sprint_Time r st) in
  data st1 = d'
  /\ fetches st1 = S (fetches st)
  /\ fetches (snd (convertHandler Unmarshal ParseFloat Sprint_Time r' st1))
     = S (S (fetches st)).
Proof.
  intros Hst Hw Hdec Hold. cbv zeta.
  rewrite (convertHandler_state Unmarshal ParseFloat Sprint_Time r st).
  destruct (@update_stale_spec Unmarshal (data st) st Hst)
    as (st0 & Henv & Hf & Hu).
  rewrite Hu, Hw. cbn [fst]. rewrite Hdec.
  split; [reflexivity |]. split; [exact Hf |].
  rewrite convertHandler_state. cbn [data set_data].
  assert (Hst1 : time.Hour < age d' (set_data d' st0)).
  { rewrite (@age_same_clock st (set_data d' st0) d'); [exact Hold |].
    destruct Henv as (_ & _ & Hc & _). exact Hc. }
  destruct (@update_stale_spec Unmarshal d' (set_data d' st0) Hst1)
    as (st2 & _ & Hf2 & Hu2).
  rewrite Hu2. cbn [fetches set_data] in Hf2.
  destruct (fst (wire (set_data d' st0) (latest_url (set_data d' st0))
                   (fetches (set_data d' st0)))) as [resp2 |]; cbn [fst].
  - destruct (decodeJSON Unmarshal (Body resp2)); cbn; congruence.
  - congruence.
Qed.

Lemma stale_document_fetched_again_witness :
  fetches
    (snd (convertHandler Scenario.Unmarshal' Scenario.ParseFloat
            Scenario.Sprint_Time (Scenario.request "USD" "GBP" "120")
            (snd (convertHandler Scenario.Unmarshal' Scenario.ParseFloat
                    Scenario.Sprint_Time (Scenario.request "USD" "GBP" "10")
                    (Scenario.state 7200 Scenario.reply_old)))))
  = 2%nat.
Proof.
  refine (proj2 (proj2
    (@stale_document_fetched_again Scenario.Unmarshal' Scenario.ParseFloat
       Scenario.Sprint_Time (Scenario.request "USD" "GBP" "10")
       (Scenario.request "USD" "GBP" "120")
       (Scenario.state 7200 Scenario.reply_old)
       (mkResponse Scenario.old_document_text false) false
       Scenario.snapshot _ _ _ _))); vm_compute; reflexivity.
Defined.

(** X9.  A request that lacks "from", "to" or "value" in its query is not
    redirected: indexing the empty value list panics.  This happens after
    [data = data.update()], so a refreshed snapshot has already been
    stored. *)
Theorem missing_parameter_panics
    (Unmarshal : list Byte.byte -> option json)
    (ParseFloat : string -> float64 * bool)
    (Sprint_Time : Z -> string)
    (r : Request) (st st1 : State) (d : Data) (k : string) :
  update Unmarshal (data st) st = (Ret d, st1) ->
  k ∈ ["from"; "to"; "value"] ->
  default [] (Query r !! k) = [] ->
  convertHandler Unmarshal ParseFloat Sprint_Time r st
  = (Panic (IndexOutOfRange 0 0), set_data d st1).
Proof.
  intros Hu Hk Hnil.
  rewrite (convertHandler_returned ParseFloat Sprint_Time r Hu).
  f_equal. unfold serve, first_value.
  destruct (default [] (Query r !! "from")) as [| from fs] eqn:Hf;
    [reflexivity |].
  destruct (default [] (Query r !! "to")) as [| to ts] eqn:Ht;
    [reflexivity |].
  destruct (default [] (Query r !! "value")) as [| v vs] eqn:Hv;
    [reflexivity |].
  exfalso.
  repeat (apply elem_of_cons in Hk as [-> | Hk]; [congruence |]).
  inversion Hk.
Qed.

Lemma missing_parameter_panics_witness :
  fst (convertHandler Scenario.Unmarshal Scenario.ParseFloat
         Scenario.Sprint_Time
         (mkRequest (<["from" := ["USD"]]> (<["to" := ["GBP"]]> ∅)))
         (Scenario.state 1800 Scenario.reply_ok))
  = Panic (IndexOutOfRange 0 0).
Proof.
  refine (f_equal fst
    (@missing_parameter_panics Scenario.Unmarshal Scenario.ParseFloat
       Scenario.Sprint_Time
       (mkRequest (<["from" := ["USD"]]> (<["to" := ["GBP"]]> ∅)))
       (Scenario.state 1800 Scenario.reply_ok)
       (Scenario.state 1800 Scenario.reply_ok)
       Scenario.snapshot "value" _ _ _)).
  - vm_compute. reflexivity.
  - apply elem_of_cons. right. apply elem_of_cons. right.
    apply elem_of_cons. left. reflexivity.
  - vm_compute. reflexivity.
Defined.

Lemma first_value_head (q : gmap string (list string)) (k : string) :
  first_value q k =
    match head (default [] (q !! k)) with
    | Some v => Ret v
    | None => Panic (IndexOutOfRange 0 0)
    end.
Proof. unfold first_value. destruct (default [] (q !! k)); reflexivity. Qed.

(** X10.  The response depends on the query only through the first value
    of "from", of "to" and of "value": further values of these keys and
    all other keys are ignored. *)
Theorem only_first_values_matter
    (ParseFloat : string -> float64 * bool)
    (Sprint_Time : Z -> string)
    (d : Data) (r r' : Request) :
  (forall k, k ∈ ["from"; "to"; "value"] ->
     head (default [] (Query r !! k)) = head (default [] (Query r' !! k))) ->
  serve ParseFloat Sprint_Time d r = serve ParseFloat Sprint_Time d r'.
Proof.
  intros Hq. unfold serve. rewrite !first_value_head.
  rewrite !Hq by set_solver. reflexivity.
Qed.

Lemma only_first_values_matter_witness :
  serve Scenario.ParseFloat Scenario.Sprint_Time Scenario.snapshot
    (mkRequest (<["from" := ["USD"; "GBP"]]> (<["to" := ["GBP"]]>
               (<["value" := ["120"; "7"]]> (<["lang" := ["en"]]> ∅)))))
  = serve Scenario.ParseFloat Scenario.Sprint_Time Scenario.snapshot
      (Scenario.request "USD" "GBP" "120").
Proof.
  apply only_first_values_matter.
  intros k Hk.
  repeat (apply elem_of_cons in Hk as [-> | Hk];
          [vm_compute; reflexivity |]).
  inversion Hk.
Defined.

(** ** The form handler *)

(** X11.  [redirectHandler] answers with a 302 to
    "/convert/?from=F&to=T&value=V" built from the first value of each form
    field, exactly when the three fields have a value; if one of them has
    none it panics. *)
Theorem redirectHandler_outcomes (form : gmap string (list string)) :
  (forall from to value fs ts vs,
      form !! "from" = Some (from :: fs) ->
      form !! "to" = Some (to :: ts) ->
      form !! "value" = Some (value :: vs) ->
      redirectHandler form
      = Ret (Redirect ("/convert/?from=" +:+ from +:+ "&to=" +:+ to
                       +:+ "&value=" +:+ value) 302))
  /\ ((exists k, k ∈ ["from"; "to"; "value"] /\ default [] (form !! k) = [])
      <-> redirectHandler form = Panic (IndexOutOfRange 0 0))
  /\ (forall n, redirectHandler form <> Exit n).
Proof.
  unfold redirectHandler. split; [| split].
  - intros from to value fs ts vs Hf Ht Hv.
    rewrite (first_value_cons Hf), (first_value_cons Ht),
      (first_value_cons Hv). reflexivity.
  - rewrite !first_value_head. split.
    + intros (k & Hk & Hnil).
      destruct (default [] (form !! "from")) as [| f fs] eqn:Hf;
        [reflexivity |].
      destruct (default [] (form !! "to")) as [| t ts] eqn:Ht;
        [reflexivity |].
      destruct (default [] (form !! "value")) as [| v vs] eqn:Hv;
        [reflexivity |].
      exfalso.
      repeat (apply elem_of_cons in Hk as [-> | Hk]; [congruence |]).
      inversion Hk.
    + destruct (default [] (form !! "from")) as [| f fs] eqn:Hf.
      { intros _. exists "from". split; [set_solver | exact Hf]. }
      destruct (default [] (form !! "to")) as [| t ts] eqn:Ht.
      { intros _. exists "to". split; [set_solver | exact Ht]. }
      destruct (default [] (form !! "value")) as [| v vs] eqn:Hv.
      { intros _. exists "value". split; [set_solver | exact Hv]. }
      cbn. discriminate.
  - intros n. rewrite !first_value_head.
    destruct (head (default [] (form !! "from"))); cbn; [| discriminate].
    destruct (head (default [] (form !! "to"))); cbn; [| discriminate].
    destruct (head (default [] (form !! "value"))); cbn; discriminate.
Qed.

Lemma redirectHandler_outcomes_witness :
  redirectHandler (Query (Scenario.request "USD" "GBP" "120"))
  = Ret (Redirect "/convert/?from=USD&to=GBP&value=120" 302).
Proof.
  refine (proj1 (redirectHandler_outcomes
                   (Query (Scenario.request "USD" "GBP" "120")))
            "USD" "GBP" "120" [] [] [] _ _ _); reflexivity.
Defined.

(** ** Start-up and a sequence of calls *)

Section ServiceFacts.

Variable Unmarshal : list Byte.byte -> option json.
Variable ParseFloat : string -> float64 * bool.
Variable Sprint_Time : Z -> string.

Lemma serve_no_exit (d : Data) (r : Request) (n : Z) :
  serve ParseFloat Sprint_Time d r <> Exit n.
Proof.
  unfold serve. rewrite !first_value_head.
  destruct (head (default [] (Query r !! "from"))); cbn; [| discriminate].
  destruct (head (default [] (Query r !! "to"))); cbn; [| discriminate].
  destruct (head (default [] (Query r !! "value"))); cbn; [| discriminate].
  destruct (ParseFloat s1) as [value err].
  destruct (err || negb (has_rate d s) || negb (has_rate d s0));
    discriminate.
Qed.

Lemma from_upstream_env (st st' : State) (d : Data) :
  apiKey st' = apiKey st -> wire st' = wire st ->
  from_upstream Unmarshal st d -> from_upstream Unmarshal st' d.
Proof.
  intros Ha Hw (n & resp & err & Hwire & Hdec).
  exists n, resp, err. split; [| exact Hdec].
  unfold latest_url. rewrite Ha, Hw. exact Hwire.
Qed.

Lemma convertHandler_when_fresh (r : Request) (st : State) :
  age (data st) st <= time.Hour ->
  convertHandler Unmarshal ParseFloat Sprint_Time r st
  = (serve ParseFloat Sprint_Time (data st) r, st).
Proof.
  intros Hage. unfold convertHandler.
  rewrite (update_when_fresh Unmarshal Hage). cbn.
  rewrite set_data_same. reflexivity.
Qed.

(** A call keeps [apiKey] and the upstream, and leaves in [data] the old
    snapshot or one decoded from the upstream. *)
Lemma convertHandler_provenance (r : Request) (st : State) :
  let st' := snd (convertHandler Unmarshal ParseFloat Sprint_Time r st) in
  apiKey st' = apiKey st /\ wire st' = wire st
  /\ (data st' = data st \/ from_upstream Unmarshal st (data st')).
Proof.
  cbv zeta. rewrite convertHandler_state.
  destruct (Z.le_gt_cases (age (data st) st) time.Hour) as [Hfr | Hst].
  - rewrite (update_when_fresh Unmarshal Hfr). rewrite set_data_same.
    repeat split. left. reflexivity.
  - destruct (@update_stale_spec Unmarshal (data st) st Hst)
      as (st1 & (Ha & Hd & Hc & Hw) & Hf & Hu).
    rewrite Hu.
    destruct (wire st (latest_url st) (fetches st)) as [[resp |] err] eqn:Hwire;
      cbn [fst].
    + destruct (decodeJSON Unmarshal (Body resp)) as [d | p | n] eqn:Hdec.
      * cbn [apiKey wire data set_data].
        split; [exact Ha |]. split; [exact Hw |].
        right. exists (fetches st), resp, err. split; assumption.
      * split; [exact Ha |]. split; [exact Hw |]. left. exact Hd.
      * split; [exact Ha |]. split; [exact Hw |]. left. exact Hd.
    + split; [exact Ha |]. split; [exact Hw |]. left. exact Hd.
Qed.

Lemma serve_all_cons (now : Z) (r : Request) (calls : list (Z * Request))
    (st : State) :
  snd (serve_all Unmarshal ParseFloat Sprint_Time ((now, r) :: calls) st) =
    match fst (convertHandler Unmarshal ParseFloat Sprint_Time r
                 (set_clock now st)) with
    | Exit _ =>
        snd (convertHandler Unmarshal ParseFloat Sprint_Time r
               (set_clock now st))
    | _ =>
        snd (serve_all Unmarshal ParseFloat Sprint_Time calls
               (snd (convertHandler Unmarshal ParseFloat Sprint_Time r
                       (set_clock now st))))
    end.
Proof.
  cbn [serve_all].
  destruct (convertHandler Unmarshal ParseFloat Sprint_Time r
              (set_clock now st)) as [[resp | p | n] st'];
    cbn [fst snd]; try reflexivity;
    destruct (serve_all Unmarshal ParseFloat Sprint_Time calls st');
    reflexivity.
Qed.

Lemma serve_all_provenance (calls : list (Z * Request)) :
  forall st : State,
    from_upstream Unmarshal st (data st) ->
    let st' := snd (serve_all Unmarshal ParseFloat Sprint_Time calls st) in
    apiKey st' = apiKey st /\ wire st' = wire st
    /\ from_upstream Unmarshal st' (data st').
Proof.
  induction calls as [| [now r] calls IH]; intros st Hup; cbv zeta.
  - repeat split. exact Hup.
  - rewrite serve_all_cons.
    pose proof (convertHandler_provenance r (set_clock now st)) as Hp.
    cbv zeta in Hp. cbn [apiKey wire data set_clock] in Hp.
    destruct Hp as (Ha & Hw & Hd).
    set (st1 := snd (convertHandler Unmarshal ParseFloat Sprint_Time r
                       (set_clock now st))) in *.
    assert (Hup1 : from_upstream Unmarshal st1 (data st1)).
    { destruct Hd as [Hd | Hd].
      - rewrite Hd. apply (from_upstream_env (st := st)); assumption.
      - apply (from_upstream_env (st := set_clock now st)); assumption. }
    destruct (fst (convertHandler Unmarshal ParseFloat Sprint_Time r
                     (set_clock now st))).
    + destruct (IH st1 Hup1) as (Ha' & Hw' & Hup').
      repeat split; [congruence | congruence | exact Hup'].
    + destruct (IH st1 Hup1) as (Ha' & Hw' & Hup').
      repeat split; [congruence | congruence | exact Hup'].
    + repeat split; assumption.
Qed.

Lemma startup_provenance (fs : FileSystem) (st st0 : State) :
  startup Unmarshal fs st = (Ret tt, st0) ->
  from_upstream Unmarshal st0 (data st0)
  /\ fs !! "key.txt" = Some (String.list_byte_of_string (apiKey st0))
  /\ fetches st0 = S (fetches st).
Proof.
  unfold startup, readAPIKey.
  destruct (fs !! "key.txt") as [key |] eqn:Hkey; [| discriminate].
  set (st1 := set_apiKey (String.string_of_list_byte key) st).
  destruct (getData_spec st1) as (st2 & (Ha & Hd & Hc & Hw) & Hf & Hg).
  rewrite Hg.
  destruct (wire st1 (latest_url st1) (fetches st1)) as [[resp |] err] eqn:Hwire;
    cbn [fst]; [| discriminate].
  destruct (decodeJSON Unmarshal (Body resp)) as [d | p | n] eqn:Hdec;
    try discriminate.
  intros Heq. inversion Heq. subst st0. cbn [data apiKey fetches set_data].
  split; [| split].
  - exists (fetches st1), resp, err. split; [| exact Hdec].
    unfold latest_url. cbn [apiKey wire set_data]. rewrite Ha, Hw.
    exact Hwire.
  - rewrite Ha. unfold st1. cbn [apiKey set_apiKey].
    rewrite String.list_byte_of_string_of_list_byte. reflexivity.
  - exact Hf.
Qed.

Lemma serve_all_cached (calls : list (Z * Request)) :
  forall st : State,
    Forall (fun c => age (data st) (set_clock (fst c) st) <= time.Hour) calls ->
    fetches (snd (serve_all Unmarshal ParseFloat Sprint_Time calls st))
      = fetches st
    /\ data (snd (serve_all Unmarshal ParseFloat Sprint_Time calls st))
      = data st.
Proof.
  induction calls as [| [now r] calls IH]; intros st Hall.
  - split; reflexivity.
  - inversion Hall as [| ? ? Hnow Hrest]; subst. cbn [fst] in Hnow.
    rewrite serve_all_cons.
    rewrite (@convertHandler_when_fresh r (set_clock now st) Hnow).
    cbn [fst snd].
    destruct (IH (set_clock now st)) as [Hf Hd].
    { eapply Forall_impl; [exact Hrest | intros c Hc; exact Hc]. }
    destruct (serve ParseFloat Sprint_Time (data (set_clock now st)) r)
      eqn:Hs; [split; assumption | split; assumption |].
    exfalso. exact (serve_no_exit Hs).
Qed.

End ServiceFacts.

(** X12.  Once [main] has gone through its start-up, [data] holds a
    snapshot decoded from a body that the upstream sent, [apiKey] is the
    content of "key.txt", and every sequence of calls of [convertHandler],
    whenever they arrive and however they end, keeps it so. *)
Theorem data_always_from_upstream
    (Unmarshal : list Byte.byte -> option json)
    (ParseFloat : string -> float64 * bool)
    (Sprint_Time : Z -> string)
    (fs : FileSystem) (st st0 : State) (calls : list (Z * Request)) :
  startup Unmarshal fs st = (Ret tt, st0) ->
  let st' := snd (serve_all Unmarshal ParseFloat Sprint_Time calls st0) in
  from_upstream Unmarshal st' (data st')
  /\ fs !! "key.txt" = Some (String.list_byte_of_string (apiKey st')).
Proof.
  intros Hs. cbv zeta.
  destruct (startup_provenance Hs) as (Hup & Hkey & _).
  destruct (@serve_all_provenance Unmarshal ParseFloat Sprint_Time calls
              st0 Hup) as (Ha & _ & Hup').
  split; [exact Hup' |]. rewrite Ha. exact Hkey.
Qed.

Lemma data_always_from_upstream_witness :
  from_upstream Scenario.Unmarshal
    (snd (serve_all Scenario.Unmarshal Scenario.ParseFloat
            Scenario.Sprint_Time
            [(Scenario.T0 * time.Second, Scenario.request "USD" "GBP" "120")]
            (set_data Scenario.refreshed
               (count_fetch (set_apiKey "k"
                  (Scenario.state 0 Scenario.reply_ok))))))
    (data (snd (serve_all Scenario.Unmarshal Scenario.ParseFloat
            Scenario.Sprint_Time
            [(Scenario.T0 * time.Second, Scenario.request "USD" "GBP" "120")]
            (set_data Scenario.refreshed
               (count_fetch (set_apiKey "k"
                  (Scenario.state 0 Scenario.reply_ok))))))).
Proof.
  refine (proj1 (@data_always_from_upstream Scenario.Unmarshal
            Scenario.ParseFloat Scenario.Sprint_Time Scenario.files
            (Scenario.state 0 Scenario.reply_ok) _ _ _)).
  vm_compute. reflexivity.
Defined.

(** X13.  Calls served one after the other share a refresh: when the first
    call finds the [age] of the snapshot above one hour and the [age] of the
    document it fetches, as [time.Since(time.Unix(Timestamp, 0))] computes
    it, is at most one hour at the time of each later call, the whole
    sequence issues exactly one GET and ends with the fetched snapshot in
    [data]. *)
Theorem sequential_calls_share_one_fetch
    (Unmarshal : list Byte.byte -> option json)
    (ParseFloat : string -> float64 * bool)
    (Sprint_Time : Z -> string)
    (now : Z) (r : Request) (calls : list (Z * Request))
    (st : State) (resp : Response) (err : bool) (d' : Data) :
  time.Hour < age (data st) (set_clock now st) ->
  wire st (latest_url st) (fetches st) = (Some resp, err) ->
  decodeJSON Unmarshal (Body resp) = Ret d' ->
  Forall (fun c => age d' (set_clock (fst c) st) <= time.Hour) calls ->
  let st' := snd (serve_all Unmarshal ParseFloat Sprint_Time
                    ((now, r) :: calls) st) in
  fetches st' = S (fetches st) /\ data st' = d'.
Proof.
  intros Hst Hw Hdec Hall. cbv zeta. rewrite serve_all_cons.
  rewrite (convertHandler_state Unmarshal ParseFloat Sprint_Time r
             (set_clock now st)).
  unfold convertHandler. cbn [data set_clock] in *.
  destruct (@update_stale_spec Unmarshal (data st) (set_clock now st) Hst)
    as (st1 & (Ha & Hd & Hc & Hw1) & Hf & Hu).
  cbn [data set_clock] in Hu. rewrite Hu.
  change (wire (set_clock now st)) with (wire st).
  change (latest_url (set_clock now st)) with (latest_url st).
  change (fetches (set_clock now st)) with (fetches st).
  rewrite Hw. cbn [fst snd]. rewrite Hdec.
  destruct (@serve_all_cached Unmarshal ParseFloat Sprint_Time calls
              (set_data d' st1)) as [Hf' Hd'].
  { eapply Forall_impl; [exact Hall |]. intros c Hfresh.
    unfold age in *. cbn [data clock set_data set_clock] in *.
    exact Hfresh. }
  cbn [fetches data set_data set_clock] in Hf', Hd', Hf.
  destruct (serve ParseFloat Sprint_Time d' r) eqn:Hs; cbn [fst].
  - split; [rewrite Hf'; exact Hf | exact Hd'].
  - split; [rewrite Hf'; exact Hf | exact Hd'].
  - exfalso. exact (serve_no_exit Hs).
Qed.

Lemma sequential_calls_share_one_fetch_witness :
  fetches
    (snd (serve_all Scenario.Unmarshal Scenario.ParseFloat
            Scenario.Sprint_Time
            [((Scenario.T0 + 7200) * time.Second,
              Scenario.request "USD" "GBP" "120");
             ((Scenario.T0 + 7260) * time.Second,
              Scenario.request "GBP" "USD" "10")]
            (Scenario.state 7200 Scenario.reply_ok)))
  = 1%nat.
Proof.
  refine (proj1 (@sequential_calls_share_one_fetch Scenario.Unmarshal
            Scenario.ParseFloat Scenario.Sprint_Time
            ((Scenario.T0 + 7200) * time.Second)
            (Scenario.request "USD" "GBP" "120")
            [((Scenario.T0 + 7260) * time.Second,
              Scenario.request "GBP" "USD" "10")]
            (Scenario.state 7200 Scenario.reply_ok)
            (mkResponse (Scenario.document_text "true") false) false
            Scenario.refreshed _ _ _ _)).
  - vm_compute. reflexivity.
  - reflexivity.
  - vm_compute. reflexivity.
  - constructor; [vm_compute; discriminate | constructor].
Defined.

(** ** Any interleaving *)

Section BoundFacts.

Variable Unmarshal : list Byte.byte -> option json.

Lemma step_budget (g : goroutine) (st : State) :
  (fetches (snd (step Unmarshal g st))
   + match fst (step Unmarshal g st) with
     | inl g' => pending g'
     | inr _ => 0
     end
   <= fetches st + pending g)%nat.
Proof.
  destruct g as [| copy | d | d | p]; cbn [step].
  - destruct (Qgt_bool
                (time.Hours (Since (time.Unix (Timestamp (data st)) 0) st)) 1);
      cbn; lia.
  - destruct (getData_spec st) as (st1 & _ & Hf & Hg). rewrite Hg.
    destruct (fst (wire st (latest_url st) (fetches st))) as [resp |];
      [| cbn; lia].
    destruct (decodeJSON Unmarshal (Body resp)); cbn; lia.
  - cbn. lia.
  - cbn. lia.
  - cbn. lia.
Qed.

Lemma sched_budget (i : nat) (sys : system) :
  (budget (sched Unmarshal i sys) <= budget sys)%nat.
Proof.
  unfold budget, sched.
  destruct (exited sys) eqn:Hex; [rewrite Hex; lia |].
  destruct (pool sys !! i) as [g |] eqn:Hg; [| rewrite Hex; lia].
  pose proof (step_budget g (shared sys)) as Hs.
  destruct (step Unmarshal g (shared sys)) as [[g' | n] st'];
    cbn [fst snd exited shared pool] in *.
  - pose proof (pending_all_insert g' Hg). lia.
  - pose proof (pending_le_all Hg). lia.
Qed.

Lemma run_budget (schedule : list nat) :
  forall sys : system,
    (budget (run Unmarshal schedule sys) <= budget sys)%nat.
Proof.
  induction schedule as [| i schedule IH]; intros sys.
  - cbn. lia.
  - rewrite run_cons. pose proof (sched_budget i sys).
    pose proof (IH (sched Unmarshal i sys)). lia.
Qed.

End BoundFacts.

(** X14.  However the steps of [n] concurrent calls interleave, and
    whatever the upstream answers, the calls issue at most [n] GETs between
    them: no call fetches twice. *)
Theorem at_most_one_fetch_per_call
    (Unmarshal : list Byte.byte -> option json)
    (schedule : list nat) (n : nat) (st : State) :
  (fetches (shared (run Unmarshal schedule (arrivals n st)))
   <= fetches st + n)%nat.
Proof.
  pose proof (@run_budget Unmarshal schedule (arrivals n st)) as Hb.
  assert (Hinit : budget (arrivals n st) = (fetches st + n)%nat).
  { unfold budget, arrivals. cbn [exited shared pool].
    rewrite pending_all_replicate. reflexivity. }
  rewrite Hinit in Hb. unfold budget in Hb.
  destruct (exited (run Unmarshal schedule (arrivals n st))); lia.
Qed.

(** ** Rounding and special values *)

Lemma binary_round_opp (s : bool) (m : positive) (e : Z) :
  binary_round F64.prec F64.emax (negb s) m e
  = SFopp (binary_round F64.prec F64.emax s m e).
Proof.
  unfold binary_round.
  destruct (shl_align m e
              (fexp F64.prec F64.emax (Z.pos (digits2_pos m) + e)))
    as [mz ez].
  apply round_aux_opp.
Qed.

Lemma Round_opp (x : float64) :
  math.Round (F64.opp x) = F64.opp (math.Round x).
Proof.
  destruct x as [s | s | | s m e]; try reflexivity.
  cbn [F64.opp SFopp math.Round].
  destruct (0 <=? e); [reflexivity |].
  set (q := if Z.shiftl 1 (- e)
               <=? 2 * (Z.pos m - Z.shiftl (Z.shiftr (Z.pos m) (- e)) (- e))
            then Z.shiftr (Z.pos m) (- e) + 1
            else Z.shiftr (Z.pos m) (- e)).
  destruct q as [| p | p], s; cbn [negb Z.opp binary_normalize];
    try reflexivity;
    try (apply (binary_round_opp false));
    try (apply (binary_round_opp true)).
Qed.

Lemma of_Z_100 : F64.of_Z 100 = S754_finite false 7036874417766400 (-46).
Proof. vm_compute. reflexivity. Qed.

(** X15.  Rounding to two decimals commutes with negation: halves are
    rounded away from zero on both sides of zero, so
    [roundTo2Decimals(-x) = -roundTo2Decimals(x)] for every float64. *)
Theorem roundTo2Decimals_opp (x : float64) :
  roundTo2Decimals (F64.opp x) = F64.opp (roundTo2Decimals x).
Proof.
  unfold roundTo2Decimals.
  rewrite mul_opp, Round_opp. apply div_opp.
Qed.

(** X16.  [roundTo2Decimals] gives back a float64 that is not finite
    whenever [x * 100] is not finite: NaN stays NaN, an infinity stays that
    infinity, and a finite [x] whose hundredfold overflows is turned into
    an infinity. *)
Theorem roundTo2Decimals_not_finite (x : float64) :
  F64.is_finite (F64.mul x (F64.of_Z 100)) = false ->
  roundTo2Decimals x = F64.mul x (F64.of_Z 100)
  /\ F64.is_finite (roundTo2Decimals x) = false.
Proof.
  unfold roundTo2Decimals. intros Hnf.
  destruct (F64.mul x (F64.of_Z 100)) as [s | s | | s m e];
    try discriminate; rewrite of_Z_100; cbn.
  - rewrite xorb_false_r. split; reflexivity.
  - split; reflexivity.
Qed.

Lemma roundTo2Decimals_not_finite_witness :
  F64.is_finite (S754_finite false 4503599627370496 971) = true
  /\ roundTo2Decimals (S754_finite false 4503599627370496 971) = F64.pinf.
Proof.
  split; [reflexivity |].
  apply (proj1 (@roundTo2Decimals_not_finite
                  (S754_finite false 4503599627370496 971) eq_refl)).
Defined.

(** X17.  An amount of NaN comes out as NaN whatever the codes and the
    rates are, through [convert] and through the rounding; the handler
    renders it, since "NaN" parses as a float64. *)
Theorem nan_amount_gives_nan
    (ParseFloat : string -> float64 * bool)
    (Sprint_Time : Z -> string)
    (d : Data) (r : Request) (fromCode toCode v : string)
    (fs ts vs : list string) (r1 r2 : float64) :
  Query r !! "from" = Some (fromCode :: fs) ->
  Query r !! "to" = Some (toCode :: ts) ->
  Query r !! "value" = Some (v :: vs) ->
  ParseFloat v = (F64.nan, false) ->
  Rates d !! fromCode = Some r1 ->
  Rates d !! toCode = Some r2 ->
  (forall c1 c2, convert d c1 c2 F64.nan = F64.nan)
  /\ roundTo2Decimals F64.nan = F64.nan
  /\ serve ParseFloat Sprint_Time d r
     = Ret (Render "convert"
              (mkPage fromCode toCode F64.nan F64.nan
                 (Sprint_Time (time.Unix (Timestamp d) 0)))).
Proof.
  intros Hf Ht Hv Hp H1 H2.
  assert (Hc : forall c1 c2, convert d c1 c2 F64.nan = F64.nan).
  { intros c1 c2. unfold convert. cbn [adiv amul float64_arith].
    destruct (rate d c1), (rate d c2); reflexivity. }
  split; [exact Hc |]. split; [reflexivity |].
  rewrite (serve_spec ParseFloat Sprint_Time d Hf Ht Hv).
  rewrite Hp. cbn [fst snd].
  rewrite (has_rate_present H1), (has_rate_present H2).
  rewrite Hc. reflexivity.
Qed.

Lemma nan_amount_gives_nan_witness :
  serve Scenario.ParseFloat Scenario.Sprint_Time Scenario.snapshot
    (Scenario.request "USD" "GBP" "NaN")
  = Ret (Render "convert"
           (mkPage "USD" "GBP" F64.nan F64.nan
              (Scenario.Sprint_Time (time.Unix Scenario.T0 0)))).
Proof.
  refine (proj2 (proj2
    (@nan_amount_gives_nan Scenario.ParseFloat
       Scenario.Sprint_Time Scenario.snapshot
       (Scenario.request "USD" "GBP" "NaN") "USD" "GBP" "NaN" [] [] []
       (F64.dec 12 10) (F64.dec 9 10) _ _ _ _ _ _)));
    vm_compute; reflexivity.
Defined.

(** X18.  Converting from a currency whose rate is 1.0 (the base) is one
    multiplication: [convert(s, base, c2, amount) = amount * rates[c2]],
    with no rounding from the division. *)
Theorem convert_from_base
    (s : Data) (base c2 : string) (amount r2 : float64) :
  Rates s !! base = Some F64.one ->
  Rates s !! c2 = Some r2 ->
  F64.valid amount = true ->
  convert s base c2 amount = F64.mul amount r2.
Proof.
  intros Hb H2 Hv.
  rewrite (@convert_present float64 float64_arith s base c2 amount _ _ Hb H2).
  cbn [amul adiv float64_arith]. rewrite (div_one Hv). reflexivity.
Qed.

Lemma convert_from_base_witness :
  convert Scenario.snapshot_with_base "EUR" "USD" (F64.of_Z 120)
  = F64.mul (F64.of_Z 120) (F64.dec 12 10).
Proof.
  apply convert_from_base; reflexivity.
Defined.

(** ** Whole amounts *)

Lemma digits2_pos_lower (p : positive) :
  2 ^ (Zpos (digits2_pos p) - 1) <= Zpos p.
Proof.
  induction p as [p IH | p IH |]; cbn [digits2_pos].
  - rewrite Pos2Z.inj_succ.
    replace (Z.succ (Z.pos (digits2_pos p)) - 1)
      with (Z.succ (Z.pos (digits2_pos p) - 1)) by lia.
    rewrite Z.pow_succ_r by lia. lia.
  - rewrite Pos2Z.inj_succ.
    replace (Z.succ (Z.pos (digits2_pos p)) - 1)
      with (Z.succ (Z.pos (digits2_pos p) - 1)) by lia.
    rewrite Z.pow_succ_r by lia. lia.
  - cbn. lia.
Qed.

(** Rounding a value that a canonical mantissa represents gives that
    mantissa. *)
Lemma round_aux_exact (s : bool) (M : Z) (m : positive) (E e : Z) :
  bounded F64.prec F64.emax m e = true ->
  E <= e ->
  M = Zpos m * 2 ^ (e - E) ->
  binary_round_aux F64.prec F64.emax s M E loc_Exact
  = S754_finite s m e.
Proof.
  intros Hb HE HM. subst M.
  destruct (e - E) as [| p | p] eqn:Hp; try lia.
  - assert (E = e) by lia. subst E.
    rewrite Z.pow_0_r, Z.mul_1_r.
    apply round_aux_canonical. exact Hb.
  - rewrite <- Zpos_iter_xO.
    replace E with (e - Zpos p) by lia.
    apply round_aux_shift. exact Hb.
Qed.

(** [float64(±p)] for [p < 2^53]: a 53-bit mantissa [p * 2^-e]. *)
Lemma binary_round_repr (s : bool) (p : positive) :
  Zpos p < 2 ^ 53 ->
  exists (m : positive) (e : Z),
    binary_round F64.prec F64.emax s p 0 = S754_finite s m e
    /\ bounded F64.prec F64.emax m e = true
    /\ -52 <= e <= 0
    /\ Zpos m = Zpos p * 2 ^ (- e)
    /\ 2 ^ 52 <= Zpos m < 2 ^ 53.
Proof.
  intros Hp.
  pose proof (@digits2_pos_le p 53 ltac:(lia) Hp) as Hd.
  pose proof (@digits2_pos_lower p) as Hlo.
  pose proof (@digits2_pos_bound p) as Hhi.
  set (d := Zpos (digits2_pos p)) in *.
  assert (Hd0 : 0 < d) by (unfold d; lia).
  exists (match (53 - d)%Z with Zpos k => Pos.iter xO p k | _ => p end), (d - 53).
  assert (Hm : Zpos (match (53 - d)%Z with Zpos k => Pos.iter xO p k | _ => p end)
               = Zpos p * 2 ^ (53 - d)).
  { destruct (53 - d) as [| k | k] eqn:Hk;
      [lia | apply Zpos_iter_xO | lia]. }
  assert (Hpow : 2 ^ (d - 1) * 2 ^ (53 - d) = 2 ^ 52).
  { rewrite <- Z.pow_add_r by lia. f_equal. lia. }
  assert (Hpow' : 2 ^ d * 2 ^ (53 - d) = 2 ^ 53).
  { rewrite <- Z.pow_add_r by lia. f_equal. lia. }
  assert (Hpos : 0 < 2 ^ (53 - d)) by (apply Z.pow_pos_nonneg; lia).
  assert (Hrange : 2 ^ 52 <= Zpos p * 2 ^ (53 - d) < 2 ^ 53) by nia.
  assert (Hbd : bounded F64.prec F64.emax
                  (match (53 - d)%Z with Zpos k => Pos.iter xO p k | _ => p end)
                  (d - 53) = true).
  { unfold bounded, canonical_mantissa, fexp, emin, F64.prec, F64.emax.
    apply andb_true_iff. split; [apply Z.eqb_eq | apply Z.leb_le; lia].
    destruct (53 - d) as [| k | k] eqn:Hk;
      [fold d; lia | rewrite digits2_pos_shift; fold d; lia | lia]. }
  split; [| split; [exact Hbd | split; [lia | split; [| lia]]]].
  - unfold binary_round, shl_align.
    replace (fexp F64.prec F64.emax (Z.pos (digits2_pos p) + 0)) with (d - 53)
      by (unfold fexp, emin, F64.prec, F64.emax; fold d; lia).
    rewrite Z.sub_0_r.
    destruct (d - 53) as [| q | k] eqn:Hk; try lia.
    + replace (53 - d) with 0 in * by lia.
      apply round_aux_canonical. exact Hbd.
    + replace (53 - d) with (Zpos k) in * by lia.
      apply round_aux_canonical. exact Hbd.
  - replace (- (d - 53)) with (53 - d) by lia. exact Hm.
Qed.

Lemma pow2_lt_mono (a b : Z) : 0 <= a -> 0 <= b -> 2 ^ a < 2 ^ b -> a < b.
Proof.
  intros Ha Hb Hlt. destruct (Z.lt_ge_cases a b) as [| Hge]; [assumption |].
  pose proof (Z.pow_le_mono_r 2 b a ltac:(lia) Hge). lia.
Qed.

(** Multiplying a whole number by 100 is exact while the product stays
    below 2^53. *)
Lemma mul_100_exact (s : bool) (p : positive) :
  Zpos p * 100 < 2 ^ 53 ->
  F64.mul (binary_round F64.prec F64.emax s p 0) (F64.of_Z 100)
  = binary_round F64.prec F64.emax s (p * 100) 0.
Proof.
  intros Hp.
  destruct (@binary_round_repr s p ltac:(lia))
    as (ma & ea & -> & Hba & Hea & Hma & Hra).
  destruct (@binary_round_repr s (p * 100) ltac:(lia))
    as (mb & eb & -> & Hbb & Heb & Hmb & Hrb).
  rewrite of_Z_100. unfold F64.mul, SFmul. rewrite xorb_false_r.
  rewrite Pos2Z.inj_mul in Hmb.
  assert (HA : 0 < 2 ^ (- ea)) by (apply Z.pow_pos_nonneg; lia).
  assert (HB : 0 < 2 ^ (- eb)) by (apply Z.pow_pos_nonneg; lia).
  assert (Hlt : ea < eb).
  { assert (2 ^ (- eb) < 2 ^ (- ea)) by nia.
    pose proof (@pow2_lt_mono (- eb) (- ea) ltac:(lia) ltac:(lia) H). lia. }
  apply round_aux_exact; [exact Hbb | lia |].
  rewrite Pos2Z.inj_mul, Hma, Hmb.
  assert (Hpw : 2 ^ (- ea) * 70368744177664
                = 2 ^ (eb - (ea + -46)) * 2 ^ (- eb)).
  { change 70368744177664 with (2 ^ 46).
    rewrite <- !Z.pow_add_r by lia. f_equal. lia. }
  transitivity (Z.pos p * 100 * (2 ^ (- ea) * 70368744177664)); [ring |].
  rewrite Hpw. ring.
Qed.

(** [math.Round] leaves a float64 that holds a whole number as it is. *)
Lemma Round_whole (s : bool) (p : positive) :
  Zpos p < 2 ^ 53 ->
  math.Round (binary_round F64.prec F64.emax s p 0)
  = binary_round F64.prec F64.emax s p 0.
Proof.
  intros Hp.
  destruct (@binary_round_repr s p Hp) as (m & e & Heq & Hb & He & Hm & Hr).
  rewrite Heq. cbn [math.Round].
  destruct (Z.leb_spec 0 e) as [H0 | H0]; [reflexivity |].
  assert (HA : 0 < 2 ^ (- e)) by (apply Z.pow_pos_nonneg; lia).
  rewrite Z.shiftr_div_pow2, Hm, Z.div_mul by lia.
  rewrite !Z.shiftl_mul_pow2 by lia.
  replace (Z.pos p * 2 ^ (- e) - Z.pos p * 2 ^ (- e)) with 0 by lia.
  rewrite Z.mul_1_l.
  destruct (Z.leb_spec (2 ^ (- e)) (2 * 0)) as [H1 | H1]; [lia |].
  destruct s; cbn [Z.opp binary_normalize]; exact Heq.
Qed.

(** Dividing a whole multiple of 100 by 100 is exact. *)
Lemma div_100_exact (s : bool) (p : positive) :
  Zpos p * 100 < 2 ^ 53 ->
  F64.div (binary_round F64.prec F64.emax s (p * 100) 0) (F64.of_Z 100)
  = binary_round F64.prec F64.emax s p 0.
Proof.
  intros Hp.
  destruct (@binary_round_repr s p ltac:(lia))
    as (ma & ea & -> & Hba & Hea & Hma & Hra).
  destruct (@binary_round_repr s (p * 100) ltac:(lia))
    as (mb & eb & -> & Hbb & Heb & Hmb & Hrb).
  rewrite of_Z_100. unfold F64.div, SFdiv. rewrite xorb_false_r.
  rewrite Pos2Z.inj_mul in Hmb.
  assert (HA : 0 < 2 ^ (- ea)) by (apply Z.pow_pos_nonneg; lia).
  assert (HB : 0 < 2 ^ (- eb)) by (apply Z.pow_pos_nonneg; lia).
  assert (Hlt : ea < eb).
  { assert (2 ^ (- eb) < 2 ^ (- ea)) by nia.
    pose proof (@pow2_lt_mono (- eb) (- ea) ltac:(lia) ltac:(lia) H). lia. }
  assert (Hle : eb <= ea + 7).
  { destruct (Z.le_gt_cases eb (ea + 7)) as [| Hgt]; [assumption |].
    exfalso.
    assert (Hpw : 2 ^ (- ea) = 2 ^ (- ea - - eb) * 2 ^ (- eb)).
    { rewrite <- Z.pow_add_r by lia. f_equal. lia. }
    assert (H8 : 2 ^ 8 <= 2 ^ (- ea - - eb))
      by (apply Z.pow_le_mono_r; lia).
    change (2 ^ 8) with 256 in H8.
    change (2 ^ 52) with 4503599627370496 in *.
    change (2 ^ 53) with 9007199254740992 in *.
    nia. }
  assert (Hcore :
    SFdiv_core_binary F64.prec F64.emax (Z.pos mb) eb
      (Z.pos 7036874417766400) (-46)
    = (Z.pos ma * 2 ^ (ea - (eb - 7)), eb - 7, loc_Exact)).
  { unfold SFdiv_core_binary. cbn [Zdigits2].
    change (Z.pos (digits2_pos 7036874417766400)) with 53.
    assert (Hdb : Z.pos (digits2_pos mb) = 53).
    { unfold bounded, canonical_mantissa, fexp, emin, F64.prec, F64.emax
        in Hbb.
      apply andb_true_iff in Hbb as [Hc _]. apply Z.eqb_eq in Hc. lia. }
    rewrite Hdb.
    unfold fexp, emin, F64.prec, F64.emax.
    replace (Z.min (Z.max (53 + eb - (53 + -46) - 53) (3 - 1024 - 53))
               (eb - -46)) with (eb - 7) by lia.
    replace (eb - -46 - (eb - 7)) with 53 by lia.
    rewrite Z.shiftl_mul_pow2 by lia.
    change IntDef.Z.div_eucl with Z.div_eucl.
    replace (Z.pos mb * 2 ^ 53)
      with (Z.pos ma * 2 ^ (ea - (eb - 7)) * Z.pos 7036874417766400).
    - rewrite div_eucl_exact by lia. reflexivity.
    - rewrite Hma, Hmb.
      assert (Hpw : 2 ^ (- ea) * 2 ^ (ea - (eb - 7)) = 2 ^ (- eb) * 128).
      { change 128 with (2 ^ 7).
        rewrite <- !Z.pow_add_r by lia. f_equal. lia. }
      change (2 ^ 53) with (128 * 70368744177664).
      transitivity (Z.pos p * (2 ^ (- ea) * 2 ^ (ea - (eb - 7)))
                    * 7036874417766400); [ring |].
      rewrite Hpw. ring. }
  rewrite Hcore.
  apply round_aux_exact; [exact Hba | lia | reflexivity].
Qed.

(** X19.  Whole amounts pass through the rounding unchanged:
    [roundTo2Decimals(n) = n] for every whole number [n] with
    [|n| * 100 < 2^53], the multiplication by 100, [math.Round] and the
    division by 100 all being exact. *)
Theorem roundTo2Decimals_whole (n : Z) :
  Z.abs n * 100 < 2 ^ 53 ->
  roundTo2Decimals (F64.of_Z n) = F64.of_Z n.
Proof.
  intros Hn. unfold roundTo2Decimals.
  destruct n as [| p | p].
  - vm_compute. reflexivity.
  - change (F64.of_Z (Z.pos p))
      with (binary_round F64.prec F64.emax false p 0).
    rewrite mul_100_exact by exact Hn.
    rewrite Round_whole by (rewrite Pos2Z.inj_mul; exact Hn).
    apply div_100_exact. exact Hn.
  - change (F64.of_Z (Z.neg p))
      with (binary_round F64.prec F64.emax true p 0).
    rewrite mul_100_exact by exact Hn.
    rewrite Round_whole by (rewrite Pos2Z.inj_mul; exact Hn).
    apply div_100_exact. exact Hn.
Qed.

Lemma roundTo2Decimals_whole_witness :
  roundTo2Decimals (F64.of_Z 90071992547409) = F64.of_Z 90071992547409.
Proof.
  apply roundTo2Decimals_whole. vm_compute. reflexivity.
Defined.

(** ** How start-up can end *)

(** X20.  [main] does not get to serve unless everything at start-up
    works: without a readable "key.txt" the process ends with status 1
    before any GET; otherwise exactly one GET is issued, and start-up
    completes exactly when that GET gave a response whose body is a
    well-formed document. *)
Theorem startup_outcomes
    (Unmarshal : list Byte.byte -> option json)
    (fs : FileSystem) (st : State) :
  (fs !! "key.txt" = None -> startup Unmarshal fs st = (Exit 1, st))
  /\ (forall key,
        fs !! "key.txt" = Some key ->
        fetches (snd (startup Unmarshal fs st)) = S (fetches st)
        /\ ((exists st0, startup Unmarshal fs st = (Ret tt, st0)) <->
            (exists resp err i,
                wire st
                  (latest_url (set_apiKey (String.string_of_list_byte key) st))
                  (fetches st) = (Some resp, err)
                /\ Unmarshal (Body resp) = Some i
                /\ well_formed i = true))).
Proof.
  unfold startup, readAPIKey. split.
  - intros ->. reflexivity.
  - intros key ->.
    set (st1 := set_apiKey (String.string_of_list_byte key) st).
    destruct (getData_spec st1) as (st2 & Henv & Hf & Hg). rewrite Hg.
    change (wire st1) with (wire st). change (fetches st1) with (fetches st)
      in *.
    destruct (wire st (latest_url st1) (fetches st)) as [[resp |] err] eqn:Hw;
      cbn [fst].
    + destruct (Unmarshal (Body resp)) as [i |] eqn:Hu.
      * destruct (well_formed i) eqn:Hwf.
        -- destruct (decodeJSON_well_formed Hu Hwf) as [d Hd]. rewrite Hd.
           split; [exact Hf |]. split; [| eauto].
           intros _. exists resp, err, i. repeat split; assumption.
        -- destruct (decodeJSON_ill_formed Hu Hwf) as (have & want & Hp).
           rewrite Hp. split; [exact Hf |]. split.
           ++ intros [st0 Hs]. discriminate.
           ++ intros (resp' & err' & j & Heq & Hj & Hjw).
              inversion Heq. subst resp'. congruence.
      * rewrite (decodeJSON_not_json Hu). split; [exact Hf |]. split.
        -- intros [st0 Hs]. discriminate.
        -- intros (resp' & err' & j & Heq & Hj & Hjw).
           inversion Heq. subst resp'. congruence.
    + split; [exact Hf |]. split.
      * intros [st0 Hs]. discriminate.
      * intros (resp' & err' & j & Heq & _). discriminate.
Qed.

Lemma startup_outcomes_witness :
  startup Scenario.Unmarshal ∅ (Scenario.state 0 Scenario.reply_ok)
  = (Exit 1, Scenario.state 0 Scenario.reply_ok).
Proof.
  apply (proj1 (startup_outcomes Scenario.Unmarshal ∅
                  (Scenario.state 0 Scenario.reply_ok))).
  reflexivity.
Defined.

(** ** Zero and sign *)

(** The sign bit of a float64, NaN apart. *)
Lemma round_aux_sign (s : bool) (M E : Z) (l : location) :
  match binary_round_aux F64.prec F64.emax s M E l with
  | S754_zero s' | S754_infinity s' | S754_finite s' _ _ => s' = s
  | S754_nan => True
  end.
Proof.
  unfold binary_round_aux.
  destruct (shr_fexp F64.prec F64.emax M E l) as [mrs e'].
  destruct (shr_fexp F64.prec F64.emax
              (round_nearest_even (shr_m mrs) (loc_of_shr_record mrs))
              e' loc_Exact) as [mrs' e''].
  destruct (shr_m mrs') as [| q | q]; try exact I; try reflexivity.
  destruct (e'' <=? F64.emax - F64.prec); reflexivity.
Qed.

Lemma div_positive_signbit (a : float64) (m : positive) (e : Z) :
  F64.is_nan (F64.div a (S754_finite false m e)) = false ->
  math.Signbit (F64.div a (S754_finite false m e)) = math.Signbit a.
Proof.
  destruct a as [s | s | | s ma ea]; cbn.
  - intros _. destruct s; reflexivity.
  - intros _. destruct s; reflexivity.
  - discriminate.
  - destruct (SFdiv_core_binary F64.prec F64.emax (Z.pos ma) ea (Z.pos m) e)
      as [[mz ez] lz].
    pose proof (round_aux_sign (xorb s false) mz ez lz) as Hr.
    destruct (binary_round_aux F64.prec F64.emax (xorb s false) mz ez lz);
      cbn; try discriminate; intros _; subst; destruct s; reflexivity.
Qed.

Lemma mul_positive_signbit (a : float64) (m : positive) (e : Z) :
  F64.is_nan (F64.mul a (S754_finite false m e)) = false ->
  math.Signbit (F64.mul a (S754_finite false m e)) = math.Signbit a.
Proof.
  destruct a as [s | s | | s ma ea]; cbn.
  - intros _. destruct s; reflexivity.
  - intros _. destruct s; reflexivity.
  - discriminate.
  - pose proof (round_aux_sign (xorb s false) (Z.pos (ma * m)) (ea + e)
                  loc_Exact) as Hr.
    destruct (binary_round_aux F64.prec F64.emax (xorb s false)
                (Z.pos (ma * m)) (ea + e) loc_Exact);
      cbn; try discriminate; intros _; subst; destruct s; reflexivity.
Qed.

Lemma mul_nan_l (y : float64) : F64.mul F64.nan y = F64.nan.
Proof. reflexivity. Qed.

(** X21.  With positive rates the result of [convert], whenever it is not
    NaN, has the sign bit of the amount, -0.0 included: an amount whose
    sign bit is clear never converts to a result whose sign bit is set, and
    the other way round. *)
Theorem convert_keeps_sign
    (s : Data) (c1 c2 : string) (amount : float64)
    (m1 m2 : positive) (e1 e2 : Z) :
  Rates s !! c1 = Some (S754_finite false m1 e1) ->
  Rates s !! c2 = Some (S754_finite false m2 e2) ->
  F64.is_nan (convert s c1 c2 amount) = false ->
  math.Signbit (convert s c1 c2 amount) = math.Signbit amount.
Proof.
  intros H1 H2.
  rewrite (@convert_present float64 float64_arith s c1 c2 amount _ _ H1 H2).
  cbn [amul adiv float64_arith]. intros Hn.
  rewrite (mul_positive_signbit Hn).
  apply div_positive_signbit.
  destruct (F64.div amount (S754_finite false m1 e1)) eqn:Hd;
    try reflexivity.
  rewrite mul_nan_l in Hn. discriminate.
Qed.

Lemma convert_keeps_sign_witness :
  math.Signbit (convert Scenario.snapshot "USD" "GBP" (S754_zero true))
  = true.
Proof.
  apply (@convert_keeps_sign Scenario.snapshot "USD" "GBP" (S754_zero true)
           5404319552844595 8106479329266893 (-52) (-53));
    vm_compute; reflexivity.
Defined.

(** X22.  An amount of zero converts to zero whenever the rate of the
    source is a finite nonzero number and the rate of the target is
    finite. *)
Theorem convert_zero
    (s : Data) (c1 c2 : string) (sign sign1 : bool)
    (m1 : positive) (e1 : Z) (r2 : float64) :
  Rates s !! c1 = Some (S754_finite sign1 m1 e1) ->
  Rates s !! c2 = Some r2 ->
  F64.is_finite r2 = true ->
  F64.is_zero (convert s c1 c2 (S754_zero sign)) = true.
Proof.
  intros H1 H2 Hf.
  rewrite (@convert_present float64 float64_arith s c1 c2 _ _ _ H1 H2).
  cbn [amul adiv float64_arith]. cbn.
  destruct r2 as [s2 | s2 | | s2 m2 e2]; try discriminate; reflexivity.
Qed.

Lemma convert_zero_witness :
  F64.is_zero (convert Scenario.snapshot "USD" "GBP" F64.zero) = true.
Proof.
  apply (@convert_zero Scenario.snapshot "USD" "GBP" false false
           5404319552844595 (-52) (F64.dec 9 10));
    vm_compute; reflexivity.
Defined.

(** * Converting a currency to itself

    [convert(s, X, X, amount)] is [(amount / r) * r] with two roundings.
    The lemmas below follow [binary_round_aux] through its shifts to bound
    what one rounding changes, for the division and for the
    multiplication. *)

Lemma loc_of_record_of_loc (m : Z) (l : location) :
  loc_of_shr_record (shr_record_of_loc m l) = l.
Proof. destruct l as [| []]; reflexivity. Qed.

Lemma shr_1_spec (rec : shr_record) (t D : Z) :
  0 <= shr_m rec -> 0 <= t < D ->
  loc_int (loc_of_shr_record rec) t D ->
  exists b : Z,
    0 <= b <= 1
    /\ shr_m rec = 2 * shr_m (shr_1 rec) + b
    /\ 0 <= shr_m (shr_1 rec)
    /\ loc_int (loc_of_shr_record (shr_1 rec)) (b * D + t) (2 * D).
Proof.
  destruct rec as [m r s]. cbn [shr_m]. intros Hm Ht Hl.
  destruct m as [| [p | p |] | p]; try lia.
  - exists 0. destruct r, s; cbn in *; lia.
  - exists 1. destruct r, s; cbn in *; lia.
  - exists 0. destruct r, s; cbn in *; lia.
  - exists 1. destruct r, s; cbn in *; lia.
Qed.

Lemma shr_iter_spec (p : positive) (rec : shr_record) (t d : Z) :
  0 <= shr_m rec -> 0 <= t < d ->
  loc_int (loc_of_shr_record rec) t d ->
  exists t' : Z,
    0 <= shr_m (Pos.iter shr_1 rec p)
    /\ 0 <= t' < 2 ^ Zpos p * d
    /\ shr_m rec * d + t = shr_m (Pos.iter shr_1 rec p) * (2 ^ Zpos p * d) + t'
    /\ loc_int (loc_of_shr_record (Pos.iter shr_1 rec p)) t' (2 ^ Zpos p * d).
Proof.
  intros Hm Ht Hl.
  induction p as [| p IH] using Pos.peano_ind.
  - cbn [Pos.iter]. destruct (@shr_1_spec rec t d Hm Ht Hl) as (b & Hb & Hmb & Hm' & Hl').
    exists (b * d + t). change (2 ^ 1) with 2.
    split; [exact Hm' |]. split; [nia |]. split; [nia | exact Hl'].
  - destruct IH as (t' & Hm' & Ht' & Hv & Hl').
    rewrite Pos.iter_succ.
    set (rec' := Pos.iter shr_1 rec p) in *.
    destruct (@shr_1_spec rec' t' (2 ^ Z.pos p * d) Hm' Ht' Hl') as (b & Hb & Hmb & Hm'' & Hl'').
    rewrite Pos2Z.inj_succ, Z.pow_succ_r by lia.
    set (D := 2 ^ Z.pos p * d) in *.
    replace (2 * 2 ^ Z.pos p * d) with (2 * D) by (unfold D; ring).
    exists (b * D + t').
    split; [exact Hm'' |]. split; [nia |]. split; [nia | exact Hl''].
Qed.

Lemma shr_spec (m : Z) (l : location) (e n t d : Z) :
  0 <= m -> 0 <= n -> 0 <= t < d -> loc_int l t d ->
  exists (rec' : shr_record) (t' : Z),
    shr (shr_record_of_loc m l) e n = (rec', e + n)
    /\ 0 <= shr_m rec'
    /\ 0 <= t' < 2 ^ n * d
    /\ m * d + t = shr_m rec' * (2 ^ n * d) + t'
    /\ loc_int (loc_of_shr_record rec') t' (2 ^ n * d).
Proof.
  intros Hm Hn Ht Hl.
  assert (Hm0 : shr_m (shr_record_of_loc m l) = m) by (destruct l as [| []]; reflexivity).
  destruct n as [| p | p]; [| | lia].
  - exists (shr_record_of_loc m l), t. cbn [shr]. rewrite Z.add_0_r, Hm0.
    change (2 ^ 0) with 1. rewrite loc_of_record_of_loc, Z.mul_1_l.
    repeat split; try lia. exact Hl.
  - cbn [shr]. rewrite iter_pos_iter.
    destruct (@shr_iter_spec p (shr_record_of_loc m l) t d) as (t' & H1 & H2 & H3 & H4).
    + rewrite Hm0. exact Hm.
    + exact Ht.
    + rewrite loc_of_record_of_loc. exact Hl.
    + rewrite Hm0 in H3. eexists _, t'. split; [reflexivity |].
      repeat split; try assumption; lia.
Qed.

Lemma round_ne_spec (m : Z) (l : location) (t D : Z) :
  0 <= t < D -> loc_int l t D ->
  m <= round_nearest_even m l <= m + 1
  /\ 2 * Z.abs (round_nearest_even m l * D - (m * D + t)) <= D.
Proof.
  intros Ht Hl. destruct l as [| []]; cbn in *.
  - split; [lia |]. lia.
  - destruct (Z.even m); split; lia.
  - split; lia.
  - split; lia.
Qed.

Lemma digits2_pos_eq (p : positive) (k : Z) :
  2 ^ (k - 1) <= Zpos p < 2 ^ k -> Zpos (digits2_pos p) = k.
Proof.
  intros [Hlo Hhi].
  pose proof (@digits2_pos_lower p) as Hl.
  pose proof (@digits2_pos_bound p) as Hu.
  assert (Hk : 0 < k).
  { destruct (Z.lt_ge_cases 0 k) as [H | H]; [exact H |].
    rewrite Z.pow_neg_r in Hlo by lia.
    destruct (Z.eq_dec k 0) as [-> | Hne]; [cbn in Hhi; lia |].
    rewrite Z.pow_neg_r in Hhi by lia. lia. }
  set (d := Zpos (digits2_pos p)) in *.
  assert (Hd : 0 < d) by (unfold d; lia).
  assert (H1 : d - 1 < k) by (apply pow2_lt_mono; lia).
  assert (H2 : k - 1 < d) by (apply pow2_lt_mono; lia).
  lia.
Qed.

Lemma round_aux_spec (s : bool) (M : positive) (E : Z) (l : location)
    (t d n : Z) :
  0 <= t < d -> loc_int l t d ->
  Zpos (digits2_pos M) = 53 + n -> 0 <= n ->
  -1074 <= E + n -> E + n + 1 <= 971 ->
  exists (m : positive) (e : Z),
    binary_round_aux F64.prec F64.emax s (Zpos M) E l = S754_finite s m e
    /\ Zpos (digits2_pos m) = 53
    /\ E + n <= e <= E + n + 1
    /\ 2 * Z.abs (Zpos m * 2 ^ (e - E) * d - (Zpos M * d + t)) <= 2 ^ n * d.
Proof.
  intros Ht Hl Hdig Hn Hlo Hhi.
  assert (Hf1 : fexp F64.prec F64.emax (Zdigits2 (Zpos M) + E) - E = n).
  { unfold fexp, emin, F64.prec, F64.emax. cbn [Zdigits2]. rewrite Hdig. lia. }
  destruct (@shr_spec (Zpos M) l E n t d ltac:(lia) Hn Ht Hl)
    as (rec' & t' & Hshr & Hm' & Ht' & Hv & Hl').
  pose proof (@digits2_pos_lower M) as HMlo.
  pose proof (@digits2_pos_bound M) as HMhi.
  rewrite Hdig in HMlo, HMhi.
  replace (53 + n - 1) with (52 + n) in HMlo by lia.
  rewrite Z.pow_add_r in HMlo, HMhi by lia.
  set (P := 2 ^ n) in *.
  assert (HP : 0 < P) by (unfold P; apply Z.pow_pos_nonneg; lia).
  set (Q := P * d) in *.
  assert (HQ : 0 < Q) by (unfold Q; nia).
  set (mn := shr_m rec') in *.
  assert (HX1 : Zpos M * d + t < 2 ^ 53 * Q) by (unfold Q; nia).
  assert (HX2 : 2 ^ 52 * Q <= Zpos M * d + t) by (unfold Q; nia).
  assert (Hmn : 2 ^ 52 <= mn < 2 ^ 53) by nia.
  destruct (@round_ne_spec mn (loc_of_shr_record rec') t' Q Ht' Hl')
    as (Hr1 & Hr2).
  set (m2 := round_nearest_even mn (loc_of_shr_record rec')) in *.
  assert (Hs1 : shr_fexp F64.prec F64.emax (Zpos M) E l = (rec', E + n)).
  { unfold shr_fexp. rewrite Hf1. exact Hshr. }
  unfold binary_round_aux. rewrite Hs1.
  fold mn. fold m2.
  destruct (Z.eq_dec m2 (2 ^ 53)) as [Heq | Hne].
  - rewrite Heq. exists 4503599627370496%positive, (E + n + 1).
    unfold shr_fexp, fexp, emin, F64.prec, F64.emax.
    change (Zdigits2 (2 ^ 53)) with 54.
    replace (Z.max (54 + (E + n) - 53) (3 - 1024 - 53) - (E + n)) with 1 by lia.
    cbn [shr shr_record_of_loc SpecFloat.iter_pos shr_1 shr_m].
    change (2 ^ 53) with 9007199254740992.
    cbn [shr_1 shr_m].
    replace (E + n + 1 <=? 1024 - 53) with true by (symmetry; apply Z.leb_le; lia).
    split; [reflexivity |]. split; [reflexivity |]. split; [lia |].
    replace (E + n + 1 - E) with (n + 1) by lia.
    rewrite Z.pow_add_r by lia. fold P. change (2 ^ 1) with 2.
    replace (4503599627370496 * (P * 2) * d) with (2 ^ 53 * Q)
      by (unfold Q; change (2 ^ 53) with 9007199254740992; ring).
    rewrite <- Heq. rewrite Hv. exact Hr2.
  - assert (Hm2 : 2 ^ 52 <= m2 < 2 ^ 53) by lia.
    destruct m2 as [| mp | mp] eqn:Hm2e; try lia.
    assert (Hd2 : Zpos (digits2_pos mp) = 53).
    { apply digits2_pos_eq. change (53 - 1) with 52. exact Hm2. }
    exists mp, (E + n).
    unfold shr_fexp, fexp, emin, F64.prec, F64.emax.
    cbn [Zdigits2]. rewrite Hd2.
    replace (Z.max (53 + (E + n) - 53) (3 - 1024 - 53) - (E + n)) with 0 by lia.
    cbn [shr shr_record_of_loc shr_m].
    replace (E + n <=? 1024 - 53) with true by (symmetry; apply Z.leb_le; lia).
    split; [reflexivity |]. split; [reflexivity |]. split; [lia |].
    replace (E + n - E) with n by lia. fold P.
    replace (Zpos mp * P * d) with (Zpos mp * Q) by (unfold Q; ring).
    rewrite Hv. exact Hr2.
Qed.

Lemma pow2_pos (e : Z) : (0 < Qpower 2 e)%Q.
Proof. apply Qpower_0_lt. reflexivity. Qed.

Lemma pow2_add (a b : Z) : (Qpower 2 (a + b) == Qpower 2 a * Qpower 2 b)%Q.
Proof. apply Qpower_plus. discriminate. Qed.

Lemma pow2_inject (k : Z) : 0 <= k -> (Qpower 2 k == inject_Z (2 ^ k))%Q.
Proof. intros Hk. rewrite Zpower_Qpower by exact Hk. reflexivity. Qed.

Lemma near_of_int (m k E X d : Z) :
  0 <= k -> 0 < d ->
  2 ^ 53 * Z.abs (m * 2 ^ k * d - X) <= X ->
  near1 (inject_Z m * Qpower 2 (E + k)) (inject_Z X / inject_Z d * Qpower 2 E).
Proof.
  intros Hk Hd Hb.
  set (A := m * 2 ^ k * d) in *.
  assert (H1 : 2 ^ 53 * A <= (2 ^ 53 + 1) * X) by lia.
  assert (H2 : (2 ^ 53 - 1) * X <= 2 ^ 53 * A) by lia.
  rewrite Zle_Qle in H1, H2.
  rewrite !inject_Z_mult in H1, H2.
  change (inject_Z (2 ^ 53)) with (9007199254740992 # 1)%Q in H1, H2.
  change (inject_Z (2 ^ 53 + 1)) with (9007199254740993 # 1)%Q in H1.
  change (inject_Z (2 ^ 53 - 1)) with (9007199254740991 # 1)%Q in H2.
  assert (HA : (inject_Z A == inject_Z m * inject_Z (2 ^ k) * inject_Z d)%Q).
  { unfold A. rewrite !inject_Z_mult. reflexivity. }
  assert (Hqd : (0 < inject_Z d)%Q).
  { change 0%Q with (inject_Z 0). rewrite <- Zlt_Qlt. exact Hd. }
  pose proof (pow2_pos E) as Hw.
  set (w := Qpower 2 E) in *.
  set (c := (w / inject_Z d)%Q).
  assert (Hc : (0 <= c)%Q).
  { unfold c. apply Qlt_le_weak. apply Qlt_shift_div_l; [exact Hqd |]. lra. }
  assert (E1 : (inject_Z m * Qpower 2 (E + k) == inject_Z A * c)%Q).
  { rewrite pow2_add, (pow2_inject Hk), HA. fold w. unfold c. field. lra. }
  assert (E2 : forall z : Q,
             (inject_Z X / inject_Z d * w * z == inject_Z X * z * c)%Q).
  { intros z. unfold c. field. lra. }
  unfold near1. rewrite E1, !E2. unfold half_ulp.
  split; apply Qmult_le_compat_r; try exact Hc; lra.
Qed.

Lemma digits53_bounds (m : positive) :
  Zpos (digits2_pos m) = 53 -> 2 ^ 52 <= Zpos m < 2 ^ 53.
Proof.
  intros Hd. pose proof (@digits2_pos_lower m) as Hl.
  pose proof (@digits2_pos_bound m) as Hu. rewrite Hd in Hl, Hu.
  change (53 - 1) with 52 in Hl. lia.
Qed.

Lemma inject_pos_gt0 (p : positive) : (0 < inject_Z (Zpos p))%Q.
Proof. reflexivity. Qed.

Lemma mul_spec (s1 s2 : bool) (m1 m2 : positive) (e1 e2 : Z) :
  Zpos (digits2_pos m1) = 53 -> Zpos (digits2_pos m2) = 53 ->
  -1074 <= e1 + e2 + 52 -> e1 + e2 + 54 <= 971 ->
  exists (m : positive) (e : Z),
    F64.mul (S754_finite s1 m1 e1) (S754_finite s2 m2 e2)
    = S754_finite (xorb s1 s2) m e
    /\ Zpos (digits2_pos m) = 53
    /\ e1 + e2 + 52 <= e <= e1 + e2 + 54
    /\ near1 (F64.mag (S754_finite (xorb s1 s2) m e))
           (F64.mag (S754_finite s1 m1 e1) * F64.mag (S754_finite s2 m2 e2)).
Proof.
  intros Hd1 Hd2 Hlo Hhi.
  pose proof (digits53_bounds Hd1) as Hb1.
  pose proof (digits53_bounds Hd2) as Hb2.
  set (n := Zpos (digits2_pos (m1 * m2)) - 53).
  assert (HM : 2 ^ 104 <= Zpos (m1 * m2) < 2 ^ 106).
  { rewrite Pos2Z.inj_mul.
    change (2 ^ 104) with (2 ^ 52 * 2 ^ 52).
    change (2 ^ 106) with (2 ^ 53 * 2 ^ 53). nia. }
  pose proof (@digits2_pos_lower (m1 * m2)) as Hl.
  pose proof (@digits2_pos_bound (m1 * m2)) as Hu.
  assert (Hn : 52 <= n <= 53).
  { unfold n. set (D := Zpos (digits2_pos (m1 * m2))) in *.
    assert (0 < D) by (unfold D; lia).
    assert (D - 1 < 106) by (apply pow2_lt_mono; lia).
    assert (104 < D) by (apply pow2_lt_mono; lia). lia. }
  destruct (@round_aux_spec (xorb s1 s2) (m1 * m2) (e1 + e2) loc_Exact 0 1 n)
    as (m & e & Hr & Hdm & He & Hb); try lia; try reflexivity.
  exists m, e. split; [exact Hr |]. split; [exact Hdm |]. split; [lia |].
  cbn [F64.mag].
  assert (HX : 2 ^ 53 * Z.abs (Zpos m * 2 ^ (e - (e1 + e2)) * 1 - Zpos (m1 * m2))
               <= Zpos (m1 * m2)).
  { rewrite Z.add_0_r, !Z.mul_1_r in Hb.
    assert (Hp : 2 ^ 52 * 2 ^ n <= Zpos (m1 * m2)).
    { rewrite <- Z.pow_add_r by lia.
      replace (52 + n) with (Zpos (digits2_pos (m1 * m2)) - 1) by (unfold n; lia).
      exact Hl. }
    rewrite Z.mul_1_r.
    change (2 ^ 53) with (2 ^ 52 * 2). lia. }
  pose proof (@near_of_int (Zpos m) (e - (e1 + e2)) (e1 + e2) (Zpos (m1 * m2)) 1
                ltac:(lia) ltac:(lia) HX) as Hrel.
  replace (e1 + e2 + (e - (e1 + e2))) with e in Hrel by lia.
  unfold near1 in *.
  assert (Ev : (inject_Z (Zpos (m1 * m2)) / inject_Z 1 * Qpower 2 (e1 + e2)
                == inject_Z (Zpos m1) * Qpower 2 e1
                   * (inject_Z (Zpos m2) * Qpower 2 e2))%Q).
  { rewrite Pos2Z.inj_mul, inject_Z_mult, pow2_add.
    change (inject_Z 1) with 1%Q.
    set (a1 := Qpower 2 e1). set (a2 := Qpower 2 e2). field. }
  rewrite Ev in Hrel. exact Hrel.
Qed.

Lemma new_location_spec (d r : Z) :
  0 <= r < d -> loc_int (new_location d r) r d.
Proof.
  intros Hr. unfold new_location.
  destruct (Z.even d) eqn:He.
  - unfold new_location_even.
    destruct (Z.eqb_spec r 0) as [-> | Hne]; [reflexivity |].
    cbn [loc_int]. destruct (Z.compare_spec (2 * r) d); lia.
  - unfold new_location_odd.
    destruct (Z.eqb_spec r 0) as [-> | Hne]; [reflexivity |].
    assert (Hodd : Z.odd d = true) by (rewrite <- Z.negb_even, He; reflexivity).
    apply Z.odd_spec in Hodd as [k Hk].
    cbn [loc_int]. destruct (Z.compare_spec (2 * r + 1) d); lia.
Qed.

Lemma div_spec (s1 s2 : bool) (m1 m2 : positive) (e1 e2 : Z) :
  Zpos (digits2_pos m1) = 53 -> Zpos (digits2_pos m2) = 53 ->
  -1074 <= e1 - e2 - 53 -> e1 - e2 - 51 <= 971 ->
  exists (m : positive) (e : Z),
    F64.div (S754_finite s1 m1 e1) (S754_finite s2 m2 e2)
    = S754_finite (xorb s1 s2) m e
    /\ Zpos (digits2_pos m) = 53
    /\ e1 - e2 - 53 <= e <= e1 - e2 - 51
    /\ near1 (F64.mag (S754_finite (xorb s1 s2) m e))
           (F64.mag (S754_finite s1 m1 e1) / F64.mag (S754_finite s2 m2 e2)).
Proof.
  intros Hd1 Hd2 Hlo Hhi.
  pose proof (digits53_bounds Hd1) as Hb1.
  pose proof (digits53_bounds Hd2) as Hb2.
  unfold F64.div, SFdiv, SFdiv_core_binary. cbn [Zdigits2].
  rewrite Hd1, Hd2.
  unfold fexp, emin, F64.prec, F64.emax.
  replace (Z.min (Z.max (53 + e1 - (53 + e2) - 53) (3 - 1024 - 53)) (e1 - e2))
    with (e1 - e2 - 53) by lia.
  replace (e1 - e2 - (e1 - e2 - 53)) with 53 by lia.
  rewrite Z.shiftl_mul_pow2 by lia.
  change IntDef.Z.div_eucl with Z.div_eucl.
  pose proof (Z_div_mod (Zpos m1 * 2 ^ 53) (Zpos m2) ltac:(lia)) as Hdm.
  destruct (Z.div_eucl (Zpos m1 * 2 ^ 53) (Zpos m2)) as [q r].
  destruct Hdm as [Hq Hr].
  assert (Hqb : 2 ^ 52 <= q < 2 ^ 54).
  { change (2 ^ 54) with (2 * 2 ^ 53). change (2 ^ 53) with (2 * 2 ^ 52) in *.
    nia. }
  destruct q as [| qp | qp]; try lia.
  set (n := Zpos (digits2_pos qp) - 53).
  pose proof (@digits2_pos_lower qp) as Hl.
  pose proof (@digits2_pos_bound qp) as Hu.
  assert (Hn : 0 <= n <= 1).
  { unfold n. set (D := Zpos (digits2_pos qp)) in *.
    assert (0 < D) by (unfold D; lia).
    assert (D - 1 < 54) by (apply pow2_lt_mono; lia).
    assert (52 < D) by (apply pow2_lt_mono; lia). lia. }
  destruct (@round_aux_spec (xorb s1 s2) qp (e1 - e2 - 53)
              (new_location (Zpos m2) r) r (Zpos m2) n)
    as (m & e & Hres & Hdm & He & Hb); try lia.
  { apply new_location_spec. lia. }
  exists m, e. split; [exact Hres |]. split; [exact Hdm |]. split; [lia |].
  cbn [F64.mag].
  set (E := e1 - e2 - 53) in *.
  assert (HX : 2 ^ 53 * Z.abs (Zpos m * 2 ^ (e - E) * Zpos m2
                               - Zpos m1 * 2 ^ 53)
               <= Zpos m1 * 2 ^ 53).
  { assert (Hp : 2 ^ 52 * 2 ^ n <= Zpos qp).
    { rewrite <- Z.pow_add_r by lia.
      replace (52 + n) with (Zpos (digits2_pos qp) - 1) by (unfold n; lia).
      exact Hl. }
    rewrite Hq. replace (Zpos m2 * Zpos qp + r) with (Zpos qp * Zpos m2 + r) by ring.
    change (2 ^ 53) with (2 ^ 52 * 2) at 1. nia. }
  pose proof (@near_of_int (Zpos m) (e - E) E (Zpos m1 * 2 ^ 53) (Zpos m2)
                ltac:(lia) ltac:(lia) HX) as Hrel.
  replace (E + (e - E)) with e in Hrel by lia.
  unfold near1 in *.
  assert (Ev : (inject_Z (Zpos m1 * 2 ^ 53) / inject_Z (Zpos m2) * Qpower 2 E
                == inject_Z (Zpos m1) * Qpower 2 e1
                   / (inject_Z (Zpos m2) * Qpower 2 e2))%Q).
  { unfold E. replace (e1 - e2 - 53) with (e1 + (- e2 + Z.opp 53)) by lia.
    rewrite inject_Z_mult, !pow2_add, !Qpower_opp.
    rewrite <- (@pow2_inject 53) by lia.
    pose proof (pow2_pos e2) as Hp2. pose proof (pow2_pos 53) as Hp53.
    pose proof (inject_pos_gt0 m2) as Hm2.
    set (a1 := Qpower 2 e1) in *. set (a2 := Qpower 2 e2) in *.
    set (a3 := Qpower 2 53) in *.
    set (x1 := inject_Z (Zpos m1)) in *. set (x2 := inject_Z (Zpos m2)) in *.
    field. repeat split; lra. }
  rewrite Ev in Hrel. exact Hrel.
Qed.

Lemma mag_pos (s : bool) (m : positive) (e : Z) :
  (0 < F64.mag (S754_finite s m e))%Q.
Proof.
  cbn [F64.mag]. apply Qmult_lt_0_compat; [reflexivity | apply pow2_pos].
Qed.

Lemma cancel_spec (sa sr : bool) (ma mr : positive) (ea er : Z) :
  Zpos (digits2_pos ma) = 53 -> Zpos (digits2_pos mr) = 53 ->
  -1074 <= ea - er - 53 -> ea - er - 51 <= 971 ->
  -1074 <= ea - 1 -> ea + 3 <= 971 ->
  exists (m : positive) (e : Z),
    F64.mul (F64.div (S754_finite sa ma ea) (S754_finite sr mr er))
            (S754_finite sr mr er)
    = S754_finite sa m e
    /\ Zpos (digits2_pos m) = 53
    /\ ea - 1 <= e <= ea + 3
    /\ near2 (F64.mag (S754_finite sa m e)) (F64.mag (S754_finite sa ma ea)).
Proof.
  intros Hda Hdr H1 H2 H3 H4.
  destruct (@div_spec sa sr ma mr ea er Hda Hdr H1 H2)
    as (m1 & e1 & Hdiv & Hd1 & He1 & Hrel1).
  rewrite Hdiv.
  destruct (@mul_spec (xorb sa sr) sr m1 mr e1 er Hd1 Hdr ltac:(lia) ltac:(lia))
    as (m & e & Hmul & Hd & He & Hrel).
  rewrite Hmul.
  assert (Hs : xorb (xorb sa sr) sr = sa) by (destruct sa, sr; reflexivity).
  rewrite Hs in *.
  exists m, e. split; [reflexivity |]. split; [exact Hd |]. split; [lia |].
  pose proof (mag_pos sr mr er) as HR.
  pose proof (mag_pos sa ma ea) as HA.
  change (F64.mag (S754_finite (xorb sa sr) m1 e1))
    with (F64.mag (S754_finite sa m1 e1)) in *.
  set (A := F64.mag (S754_finite sa ma ea)) in *.
  set (R := F64.mag (S754_finite sr mr er)) in *.
  set (C1 := F64.mag (S754_finite sa m1 e1)) in *.
  set (C := F64.mag (S754_finite sa m e)) in *.
  unfold near1, near2 in *. destruct Hrel1 as [L1 U1]. destruct Hrel as [L U].
  assert (L1' : (A * (1 - half_ulp) <= C1 * R)%Q).
  { assert (Eq1 : (A * (1 - half_ulp) == A / R * (1 - half_ulp) * R)%Q)
      by (field; lra).
    rewrite Eq1. apply Qmult_le_compat_r; [exact L1 | lra]. }
  assert (U1' : (C1 * R <= A * (1 + half_ulp))%Q).
  { assert (Eq1 : (A * (1 + half_ulp) == A / R * (1 + half_ulp) * R)%Q)
      by (field; lra).
    rewrite Eq1. apply Qmult_le_compat_r; [exact U1 | lra]. }
  set (P := (C1 * R)%Q) in *. unfold half_ulp in *. split; lra.
Qed.

Lemma of_Z_normal (p : positive) :
  Zpos p < 2 ^ 53 ->
  exists (m : positive) (e : Z),
    F64.of_Z (Zpos p) = S754_finite false m e
    /\ Zpos (digits2_pos m) = 53
    /\ -52 <= e <= 0
    /\ (F64.mag (S754_finite false m e) == inject_Z (Zpos p))%Q.
Proof.
  intros Hp.
  destruct (@binary_round_repr false p Hp) as (m & e & Hr & _ & He & Hm & Hb).
  exists m, e. split; [exact Hr |]. split.
  { apply digits2_pos_eq. exact Hb. }
  split; [exact He |].
  cbn [F64.mag]. rewrite Hm, inject_Z_mult.
  rewrite <- (@pow2_inject (- e)) by lia.
  rewrite <- Qmult_assoc, <- pow2_add.
  replace (- e + e) with 0 by lia. change (Qpower 2 0) with 1%Q. ring.
Qed.

Lemma mag_hundred :
  (F64.mag (S754_finite false 7036874417766400 (-46)) == 100)%Q.
Proof. vm_compute. reflexivity. Qed.

Lemma Round_near (m : positive) (e : Z) (k : positive) :
  Zpos (digits2_pos m) = 53 ->
  Zpos k <= 2 ^ 49 ->
  (inject_Z (Zpos k) - (1 # 2) < F64.mag (S754_finite false m e))%Q ->
  (F64.mag (S754_finite false m e) < inject_Z (Zpos k) + (1 # 2))%Q ->
  math.Round (S754_finite false m e) = F64.of_Z (Zpos k).
Proof.
  intros Hd Hk Hlo Hhi. cbn [F64.mag] in *.
  pose proof (digits53_bounds Hd) as Hb.
  assert (Hqk : (inject_Z (Zpos k) <= inject_Z (2 ^ 49))%Q)
    by (rewrite <- Zle_Qle; exact Hk).
  assert (Hqm : (inject_Z (2 ^ 52) <= inject_Z (Zpos m))%Q)
    by (rewrite <- Zle_Qle; lia).
  change (inject_Z (2 ^ 49)) with (562949953421312 # 1)%Q in Hqk.
  change (inject_Z (2 ^ 52)) with (4503599627370496 # 1)%Q in Hqm.
  assert (He : e < 0).
  { destruct (Z.lt_ge_cases e 0) as [H | H]; [exact H | exfalso].
    assert (H1 : (1 <= Qpower 2 e)%Q) by (apply Qpower_1_le; [lra | lia]).
    assert (H2 : (inject_Z (Zpos m) * 1 <= inject_Z (Zpos m) * Qpower 2 e)%Q).
    { apply Qmult_le_l; [reflexivity | exact H1]. }
    lra. }
  set (P := 2 ^ (- e)).
  assert (HP : 0 < P) by (apply Z.pow_pos_nonneg; lia).
  assert (HqP : (0 < inject_Z P)%Q).
  { change 0%Q with (inject_Z 0). rewrite <- Zlt_Qlt. exact HP. }
  assert (Hpow : (Qpower 2 e == / inject_Z P)%Q).
  { replace e with (- - e) at 1 by lia. rewrite Qpower_opp.
    rewrite (@pow2_inject (- e)) by lia. reflexivity. }
  rewrite Hpow in Hlo, Hhi.
  apply (Qmult_lt_compat_r _ _ (inject_Z P) HqP) in Hlo.
  apply (Qmult_lt_compat_r _ _ (inject_Z P) HqP) in Hhi.
  assert (Eq1 : (inject_Z (Zpos m) * / inject_Z P * inject_Z P
                 == inject_Z (Zpos m))%Q) by (field; lra).
  rewrite Eq1 in Hlo, Hhi.
  assert (Zlo : 2 * (Zpos k * P) < 2 * Zpos m + P).
  { rewrite Zlt_Qlt, inject_Z_plus, !inject_Z_mult.
    change (inject_Z 2) with 2%Q.
    set (qk := inject_Z (Zpos k)) in *. set (qm := inject_Z (Zpos m)) in *.
    set (qP := inject_Z P) in *. set (X := (qk * qP)%Q).
    assert (EX : ((qk - (1 # 2)) * qP == X - (1 # 2) * qP)%Q) by (unfold X; ring).
    rewrite EX in Hlo. lra. }
  assert (Zhi : 2 * Zpos m < 2 * (Zpos k * P) + P).
  { rewrite Zlt_Qlt, inject_Z_plus, !inject_Z_mult.
    change (inject_Z 2) with 2%Q.
    set (qk := inject_Z (Zpos k)) in *. set (qm := inject_Z (Zpos m)) in *.
    set (qP := inject_Z P) in *. set (X := (qk * qP)%Q).
    assert (EX : ((qk + (1 # 2)) * qP == X + (1 # 2) * qP)%Q) by (unfold X; ring).
    rewrite EX in Hhi. lra. }
  unfold math.Round.
  replace (0 <=? e) with false by (symmetry; apply Z.leb_gt; exact He).
  rewrite Z.shiftr_div_pow2, !Z.shiftl_mul_pow2 by lia. fold P.
  rewrite Z.mul_1_l.
  pose proof (Z.div_mod (Zpos m) P ltac:(lia)) as Hdm.
  pose proof (Z.mod_pos_bound (Zpos m) P HP) as Hmod.
  set (q := Zpos m / P) in *.
  set (r := Zpos m mod P) in *.
  replace (Zpos m - q * P) with r by lia.
  assert (Hq : (if P <=? 2 * r then q + 1 else q) = Zpos k).
  { destruct (Z.leb_spec P (2 * r)); nia. }
  rewrite Hq. reflexivity.
Qed.

Lemma in_binades_inv (lo hi : Z) (x : float64) :
  F64.in_binades lo hi x = true ->
  exists s m e, x = S754_finite s m e
    /\ Zpos (digits2_pos m) = 53 /\ lo <= e + 52 <= hi.
Proof.
  destruct x as [| | | s m e]; try discriminate. cbn [F64.in_binades].
  intros H. apply andb_prop in H as [H H3]. apply andb_prop in H as [H1 H2].
  apply Z.eqb_eq in H1. apply Z.leb_le in H2, H3.
  exists s, m, e. repeat split; assumption.
Qed.

Lemma cancel_near (r amount : float64) :
  F64.in_binades (-500) 500 r = true ->
  F64.in_binades (-500) 500 amount = true ->
  F64.is_finite (F64.mul (F64.div amount r) r) = true
  /\ math.Signbit (F64.mul (F64.div amount r) r) = math.Signbit amount
  /\ (Qabs (F64.mag (F64.mul (F64.div amount r) r) - F64.mag amount)
      <= F64.mag amount * F64.two_roundings)%Q.
Proof.
  intros Hr Ha.
  apply in_binades_inv in Hr as (sr & mr & er & -> & Hdr & Her).
  apply in_binades_inv in Ha as (sa & ma & ea & -> & Hda & Hea).
  destruct (@cancel_spec sa sr ma mr ea er Hda Hdr
              ltac:(lia) ltac:(lia) ltac:(lia) ltac:(lia))
    as (m & e & Hc & Hd & He & Hrel).
  rewrite Hc. split; [reflexivity |]. split; [reflexivity |].
  pose proof (mag_pos sa ma ea) as HA.
  set (A := F64.mag (S754_finite sa ma ea)) in *.
  set (C := F64.mag (S754_finite sa m e)) in *.
  unfold near2, half_ulp in Hrel. destruct Hrel as [L U].
  apply Qabs_Qle_condition. unfold F64.two_roundings. split; lra.
Qed.

Lemma hundredths_round_trip (r : float64) (k : positive) :
  F64.in_binades (-500) 500 r = true ->
  Zpos k <= 2 ^ 49 ->
  roundTo2Decimals (F64.mul (F64.div (F64.dec (Zpos k) 100) r) r)
  = F64.dec (Zpos k) 100.
Proof.
  intros Hr Hk.
  apply in_binades_inv in Hr as (sr & mr & er & -> & Hdr & Her).
  destruct (@of_Z_normal k ltac:(lia)) as (mK & eK & HK & HdK & HeK & HmK).
  unfold F64.dec at 1. rewrite HK, of_Z_100.
  destruct (@div_spec false false mK 7036874417766400 eK (-46) HdK eq_refl
              ltac:(lia) ltac:(lia))
    as (ma & ea & Ha & Hda & Hea & Hrela).
  rewrite Ha. cbn [xorb].
  destruct (@cancel_spec false sr ma mr ea er Hda Hdr
              ltac:(lia) ltac:(lia) ltac:(lia) ltac:(lia))
    as (mc & ec & Hc & Hdc & Hec & Hrelc).
  rewrite Hc. unfold roundTo2Decimals. rewrite of_Z_100.
  destruct (@mul_spec false false mc 7036874417766400 ec (-46) Hdc eq_refl
              ltac:(lia) ltac:(lia))
    as (my & ey & Hy & Hdy & Hey & Hrely).
  rewrite Hy. cbn [xorb] in *.
  assert (Hqk : (inject_Z (Zpos k) <= inject_Z (2 ^ 49))%Q)
    by (rewrite <- Zle_Qle; exact Hk).
  assert (Hq1 : (inject_Z 1 <= inject_Z (Zpos k))%Q)
    by (rewrite <- Zle_Qle; lia).
  change (inject_Z (2 ^ 49)) with (562949953421312 # 1)%Q in Hqk.
  change (inject_Z 1) with 1%Q in Hq1.
  unfold near1, near2, half_ulp in *.
  destruct Hrela as [La Ua]. destruct Hrelc as [Lc Uc].
  destruct Hrely as [Ly Uy].
  rewrite mag_hundred in La, Ua, Ly, Uy. rewrite HmK in La, Ua.
  set (qk := inject_Z (Zpos k)) in *.
  set (A := F64.mag (S754_finite false ma ea)) in *.
  set (C := F64.mag (S754_finite false mc ec)) in *.
  assert (La' : (qk * (1 - (1 # 9007199254740992)) <= 100 * A)%Q).
  { assert (E1 : (qk * (1 - (1 # 9007199254740992))
                  == 100 * (qk / 100 * (1 - (1 # 9007199254740992))))%Q)
      by field.
    rewrite E1. lra. }
  assert (Ua' : (100 * A <= qk * (1 + (1 # 9007199254740992)))%Q).
  { assert (E1 : (qk * (1 + (1 # 9007199254740992))
                  == 100 * (qk / 100 * (1 + (1 # 9007199254740992))))%Q)
      by field.
    rewrite E1. lra. }
  rewrite (@Round_near my ey k Hdy Hk).
  - unfold F64.dec. rewrite of_Z_100. reflexivity.
  - fold qk. set (Y := F64.mag (S754_finite false my ey)) in *. lra.
  - fold qk. set (Y := F64.mag (S754_finite false my ey)) in *. lra.
Qed.

Lemma zero_round_trip (r : float64) :
  F64.in_binades (-500) 500 r = true ->
  roundTo2Decimals (F64.mul (F64.div (F64.dec 0 100) r) r) = F64.dec 0 100.
Proof.
  intros Hr. apply in_binades_inv in Hr as (sr & mr & er & -> & _ & _).
  unfold roundTo2Decimals. rewrite of_Z_100.
  destruct sr; reflexivity.
Qed.

(** C6, as the code has it.  The rate has to be nonzero, and the identity
    is one of exact arithmetic: read over the rationals,
    [convert(s, X, X, amount)] is [amount] for every [X] with a nonzero
    rate.  In float64 the program computes [(amount / r) * r] with two
    roundings.  The result is [amount] itself when the rate of [X] is 1.0
    (the base currency), for every float64 amount.  For a normal rate and a
    normal amount of either sign, both between 2^-500 and 2^501 in absolute
    value, the result is finite, has the sign of the amount and is within
    the relative error 2^-52 + 2^-106 of it.  For such a rate and an amount
    of [k] hundredths, [0 <= k <= 2^49], written as the decimal [k / 100],
    rounding the result to two decimals gives the amount back. *)
Theorem convert_to_itself :
  (forall (s : Data_ Q) (X : string) (r amount : Q),
      Rates s !! X = Some r ->
      ~ Qeq r 0 ->
      Qeq (convert s X X amount) amount)
  /\
  (forall (s : Data) (X : string) (amount : float64),
      Rates s !! X = Some F64.one ->
      F64.valid amount = true ->
      convert s X X amount = amount)
  /\
  (forall (s : Data) (X : string) (r amount : float64),
      Rates s !! X = Some r ->
      F64.in_binades (-500) 500 r = true ->
      F64.in_binades (-500) 500 amount = true ->
      F64.is_finite (convert s X X amount) = true
      /\ math.Signbit (convert s X X amount) = math.Signbit amount
      /\ (Qabs (F64.mag (convert s X X amount) - F64.mag amount)
          <= F64.mag amount * F64.two_roundings)%Q)
  /\
  (forall (s : Data) (X : string) (r : float64) (k : Z),
      Rates s !! X = Some r ->
      F64.in_binades (-500) 500 r = true ->
      0 <= k <= 2 ^ 49 ->
      roundTo2Decimals (convert s X X (F64.dec k 100)) = F64.dec k 100).
Proof.
  split; [| split; [| split]].
  - intros s X r amount Hr Hnz.
    rewrite (@convert_present Q Q_arith s X X amount r r Hr Hr).
    cbn [amul adiv Q_arith]. field. exact Hnz.
  - intros s X amount Hr Hv.
    rewrite (@convert_present float64 float64_arith s X X amount _ _ Hr Hr).
    cbn [amul adiv float64_arith].
    rewrite (div_one Hv). apply mul_one. exact Hv.
  - intros s X r amount Hr Hnr Hna.
    rewrite (@convert_present float64 float64_arith s X X amount _ _ Hr Hr).
    cbn [amul adiv float64_arith].
    exact (cancel_near Hnr Hna).
  - intros s X r k Hr Hnr Hk.
    rewrite (@convert_present float64 float64_arith s X X _ _ _ Hr Hr).
    cbn [amul adiv float64_arith].
    destruct k as [| k | k]; [| | lia].
    + exact (zero_round_trip Hnr).
    + apply hundredths_round_trip; [exact Hnr | lia].
Qed.

Lemma convert_to_itself_witness :
  Qeq (convert Scenario.exact_snapshot "USD" "USD" (120 # 1)) (120 # 1)
  /\ convert Scenario.snapshot_with_base "EUR" "EUR" (F64.of_Z 120)
     = F64.of_Z 120
  /\ (Qabs (F64.mag (convert Scenario.snapshot "USD" "USD" (F64.of_Z 120))
            - F64.mag (F64.of_Z 120))
      <= F64.mag (F64.of_Z 120) * F64.two_roundings)%Q
  /\ roundTo2Decimals (convert Scenario.snapshot "USD" "USD" (F64.dec 1999 100))
     = F64.dec 1999 100.
Proof.
  split; [| split; [| split]].
  - apply (proj1 convert_to_itself Scenario.exact_snapshot "USD" (12 # 10)%Q).
    + reflexivity.
    + discriminate.
  - apply (proj1 (proj2 convert_to_itself) Scenario.snapshot_with_base "EUR").
    + reflexivity.
    + reflexivity.
  - apply (proj1 (proj2 (proj2 convert_to_itself)) Scenario.snapshot "USD"
             (F64.dec 12 10) (F64.of_Z 120)).
    + reflexivity.
    + vm_compute. reflexivity.
    + vm_compute. reflexivity.
  - apply (proj2 (proj2 (proj2 convert_to_itself)) Scenario.snapshot "USD"
             (F64.dec 12 10) 1999).
    + reflexivity.
    + vm_compute. reflexivity.
    + lia.
Defined.

(** C6 as stated fails.  A currency listed with rate 0 converts to itself
    as NaN.  With the rate 1.2, the amount 7000000000000000 converts to
    7000000000000001, and rounding to two decimals keeps the two apart.
    With the same rate the amount 0.225 comes back as the float64 just
    below it, which rounds to 0.22 where 0.225 rounds to 0.23.  And with a
    rate of 2^-600 the amount 2^600 overflows in the division and comes
    back as +Inf. *)
Lemma convert_to_itself_fails :
  (Rates Scenario.snapshot_zero_rate !! "XXX" = Some F64.zero
   /\ convert Scenario.snapshot_zero_rate "XXX" "XXX" (F64.of_Z 10) = F64.nan)
  /\ (Rates Scenario.snapshot !! "USD" = Some (F64.dec 12 10)
      /\ convert Scenario.snapshot "USD" "USD" (F64.of_Z 7000000000000000)
         = F64.of_Z 7000000000000001
      /\ roundTo2Decimals (F64.of_Z 7000000000000001)
         = F64.of_Z 7000000000000001
      /\ roundTo2Decimals (F64.of_Z 7000000000000000)
         = F64.of_Z 7000000000000000
      /\ F64.eqb (F64.of_Z 7000000000000001) (F64.of_Z 7000000000000000)
         = false)
  /\ (roundTo2Decimals (convert Scenario.snapshot "USD" "USD" (F64.dec 225 1000))
      = F64.dec 22 100
      /\ roundTo2Decimals (F64.dec 225 1000) = F64.dec 23 100
      /\ F64.eqb (F64.dec 22 100) (F64.dec 23 100) = false)
  /\ (Rates Scenario.snapshot_tiny_rate !! "XXX"
      = Some (S754_finite false 4503599627370496 (-652))
      /\ F64.valid (S754_finite false 4503599627370496 548) = true
      /\ convert Scenario.snapshot_tiny_rate "XXX" "XXX"
           (S754_finite false 4503599627370496 548) = F64.pinf).
Proof. repeat split; vm_compute; reflexivity. Qed.
